(** * amcat4: the aggregation engine ([amcat4/aggregate.py])

    A shallow embedding of [amcat4/aggregate.py] and of the field type
    resolver of [amcat4/elastic.py] it calls, followed by the properties
    of the aggregation engine.

    - Python objects that flow through the engine (JSON documents of the
      search backend, bucket keys, metric values, decoded dates) are
      terms of [value]; a [dict] is an association list in insertion
      order, a [tuple] of row cells is a [list value].
    - Exceptions are values of [exn]; pure code returns [result].
    - Code that talks to the backend, reads or writes the module level
      [FIELD_CACHE], or is a generator, is a term of [prog]: a tree of
      the effects in the order the interpreter performs them.  [run]
      executes a tree against a backend and records every round trip.
    - A [float] is the rational a binary64 number denotes; division and
      multiplication round to the nearest double. *)

From Stdlib Require Import ZArith QArith Qround Qabs Qpower List String Ascii Bool Lia Lqa.
Import ListNotations.

Set Warnings "-register-all".

Local Open Scope string_scope.
Local Open Scope Z_scope.

(* ================================================================== *)
(** ** Python values *)

Inductive value : Type :=
| VNone
| VBool (b : bool)
| VInt (n : Z)
| VFloat (q : Q)
| VStr (s : string)
| VList (items : list value)
| VDict (entries : list (string * value))
| VDateTime (micros : Z)   (* naive UTC datetime: microseconds since the epoch *)
| VDate (days : Z).        (* calendar date: days since 1970-01-01 *)

Inductive exn : Type :=
| ValueError (msg : string)
| KeyError (key : string)
| TypeError (msg : string)
| AttributeError (msg : string)
| RecursionError
| OverflowError (msg : string)
| OSError (errno : Z) (msg : string)
| Exception (msg : string) (detail : value)
| TransportError (status : Z) (info : value).

Inductive result (A : Type) : Type :=
| Ok (a : A)
| Err (e : exn).
Arguments Ok {A} a.
Arguments Err {A} e.

Definition rbind {A B} (r : result A) (f : A -> result B) : result B :=
  match r with
  | Ok a => f a
  | Err e => Err e
  end.

Declare Scope result_scope.
Delimit Scope result_scope with result.
Notation "x <- r ;; k" := (rbind r (fun x => k))
  (at level 61, r at next level, right associativity) : result_scope.

Fixpoint rmapM {A B} (f : A -> result B) (l : list A) : result (list B) :=
  match l with
  | [] => Ok []
  | a :: l' => (b <- f a ;; bs <- rmapM f l' ;; Ok (b :: bs))%result
  end.

(** [bool(v)] *)
Definition truthy (v : value) : bool :=
  match v with
  | VNone => false
  | VBool b => b
  | VInt n => negb (n =? 0)
  | VFloat q => negb (Qnum q =? 0)
  | VStr s => negb (s =? "")%string
  | VList l => match l with [] => false | _ => true end
  | VDict d => match d with [] => false | _ => true end
  | VDateTime _ => true
  | VDate _ => true
  end.

Definition str_truthy (s : option string) : bool :=
  match s with
  | Some s => negb (s =? "")%string
  | None => false
  end.

Definition opt_str (s : option string) : value :=
  match s with
  | Some s => VStr s
  | None => VNone
  end.

(** *** dict *)

Fixpoint dict_get {V} (k : string) (d : list (string * V)) : option V :=
  match d with
  | [] => None
  | (k', v) :: d' => if (k =? k')%string then Some v else dict_get k d'
  end.

(** [d[k] = v]: an existing key keeps its position. *)
Fixpoint dict_set {V} (k : string) (v : V) (d : list (string * V)) : list (string * V) :=
  match d with
  | [] => [(k, v)]
  | (k', v') :: d' =>
      if (k =? k')%string then (k, v) :: d' else (k', v') :: dict_set k v d'
  end.

(** [dict(pairs)] and [d.update(pairs)] *)
Definition dict_update {V} (d : list (string * V)) (pairs : list (string * V)) :=
  fold_left (fun acc kv => dict_set (fst kv) (snd kv) acc) pairs d.

Definition dict_of {V} (pairs : list (string * V)) := dict_update [] pairs.

(** [v[k]] for a string key *)
Definition py_getitem (v : value) (k : string) : result value :=
  match v with
  | VDict d => match dict_get k d with
               | Some x => Ok x
               | None => Err (KeyError k)
               end
  | _ => Err (TypeError "object is not subscriptable with a str key")
  end.

(** [v.get(k, default)] *)
Definition py_get (v : value) (k : string) (default : value) : result value :=
  match v with
  | VDict d => match dict_get k d with
               | Some x => Ok x
               | None => Ok default
               end
  | _ => Err (AttributeError "object has no attribute 'get'")
  end.

(** [v.items()] *)
Definition py_items (v : value) : result (list (string * value)) :=
  match v with
  | VDict d => Ok d
  | _ => Err (AttributeError "object has no attribute 'items'")
  end.

(** [iter(v)], drained *)
Definition py_iter (v : value) : result (list value) :=
  match v with
  | VList l => Ok l
  | VDict d => Ok (map (fun kv => VStr (fst kv)) d)
  | VStr s => Ok (map (fun c => VStr (String c EmptyString)) (list_ascii_of_string s))
  | _ => Err (TypeError "object is not iterable")
  end.

(** Numbers as the rationals they denote; [True] is 1. *)
Definition as_number (v : value) : option Q :=
  match v with
  | VBool b => Some (inject_Z (if b then 1 else 0))
  | VInt n => Some (inject_Z n)
  | VFloat q => Some q
  | _ => None
  end.

(** [a == b]: numbers compare by value, dicts regardless of order. *)
Fixpoint py_eqb (a b : value) {struct a} : bool :=
  match a, b with
  | VNone, VNone => true
  | VStr s, VStr t => (s =? t)%string
  | VDateTime x, VDateTime y => x =? y
  | VDate x, VDate y => x =? y
  | VList l, VList m =>
      (fix all2 (l m : list value) {struct l} : bool :=
         match l, m with
         | [], [] => true
         | x :: l', y :: m' => py_eqb x y && all2 l' m'
         | _, _ => false
         end) l m
  | VDict d, VDict e =>
      (List.length d =? List.length e)%nat &&
      (fix incl (d : list (string * value)) {struct d} : bool :=
         match d with
         | [] => true
         | (k, x) :: d' =>
             match dict_get k e with
             | Some y => py_eqb x y && incl d'
             | None => false
             end
         end) d
  | _, _ =>
      match as_number a, as_number b with
      | Some x, Some y => Qeq_bool x y
      | _, _ => false
      end
  end.

(** [sep.join(parts)] *)
Fixpoint join (sep : string) (parts : list string) : string :=
  match parts with
  | [] => ""
  | [p] => p
  | p :: rest => p ++ sep ++ join sep rest
  end.

(* ================================================================== *)
(** ** [float]

    A [float] is an IEEE 754 binary64 number.  A finite one is the
    rational it denotes, and the result of an arithmetic operation is
    the exact result rounded to the nearest double, ties to even. *)

(** Round to the nearest integer, ties to even. *)
Definition round_half_even (q : Q) : Z :=
  let n := Qnum q in
  let d := Zpos (Qden q) in
  let fl := n / d in
  let r2 := 2 * (n mod d) in
  if r2 <? d then fl
  else if d <? r2 then fl + 1
  else if Z.even fl then fl else fl + 1.

(** [floor(log2 |q|)] of a [q] other than 0: the difference of the bit
    lengths of numerator and denominator, or one less. *)
Definition binade (q : Q) : Z :=
  let c := Z.log2 (Z.abs (Qnum q)) - Z.log2 (Zpos (Qden q)) in
  if Qle_bool (2 ^ c) (Qabs q) then c else c - 1.

(** The exponent of the spacing of the doubles around [q]: 53
    significant bits, and [2^-1074] throughout the subnormal range. *)
Definition quantum (q : Q) : Z := Z.max (binade q - 52) (-1074).

(** The double nearest to [q].  The exponent is not bounded above
    here: a result of magnitude [2^1024] or more is an overflow. *)
Definition to_double (q : Q) : Q :=
  if Qeq_bool q 0 then 0
  else (inject_Z (round_half_even (q / 2 ^ quantum q)) * 2 ^ quantum q)%Q.

Definition is_finite (x : Q) : bool := negb (Qle_bool (2 ^ 1024) (Qabs x)).

(** An [int] operand; [bool] is a subclass of [int]. *)
Definition as_int (v : value) : option Z :=
  match v with
  | VBool b => Some (if b then 1 else 0)
  | VInt n => Some n
  | _ => None
  end.

(** [float(n)] of an [int], as [/] converts an [int] operand that
    meets a [float]. *)
Definition float_of_int (n : Z) : result Q :=
  let x := to_double (inject_Z n) in
  if is_finite x then Ok x
  else Err (OverflowError "int too large to convert to float").

(** A number as the operand of a [float] operation. *)
Definition as_float (v : value) : option (result Q) :=
  match v with
  | VFloat q => Some (Ok q)
  | _ => match as_int v with
         | Some n => Some (float_of_int n)
         | None => None
         end
  end.

(** [v / 1000.] *)
Definition div_1000 (v : value) : result Q :=
  match as_float v with
  | Some x => (x <- x ;; Ok (to_double (x / inject_Z 1000)))%result
  | None => Err (TypeError "unsupported operand type(s) for /")
  end.

(** The integral part of [math.modf]: towards zero. *)
Definition trunc (q : Q) : Z := if Qle_bool 0 q then Qfloor q else Qceiling q.

(* ================================================================== *)
(** ** [datetime] *)

(** [datetime.min] and [datetime.max] in microseconds since the epoch
    (0001-01-01T00:00:00 and 9999-12-31T23:59:59.999999). *)
Definition MIN_MICROS : Z := -62135596800000000.
Definition MAX_MICROS : Z := 253402300799999999.

(** The bounds of [time_t] as the doubles the seconds are compared
    with ([2^63 - 1] rounds to [2^63]), and the seconds whose year fits
    the [int] of [struct tm], which is what [gmtime] converts (CPython
    3.11 on 64 bit Linux, glibc). *)
Definition TIME_T_MIN : Z := - 2 ^ 63.
Definition TIME_T_MAX : Z := 2 ^ 63.
Definition GMTIME_MIN : Z := -67768040609740800.
Definition GMTIME_MAX : Z := 67768036191676799.

(** The instant [utcfromtimestamp] makes of a float, in microseconds
    since the epoch: the fraction of [modf], times [1e6] as a float
    product, rounded half to even, is added to the whole seconds. *)
Definition timestamp_micros (seconds : Q) : Z :=
  let intpart := trunc seconds in
  let floatpart := to_double ((seconds - inject_Z intpart) * inject_Z 1000000)%Q in
  intpart * 1000000 + round_half_even floatpart.

(** [datetime.utcfromtimestamp(seconds)] of a float: the seconds (after
    the carry of the microseconds) must lie within the bounds of
    [time_t], [gmtime] must convert them, and the year must lie in
    1..9999. *)
Definition utcfromtimestamp (seconds : Q) : result Z :=
  let micros := timestamp_micros seconds in
  let timet := micros / 1000000 in
  if (timet <? TIME_T_MIN) || (TIME_T_MAX <? timet)
  then Err (OverflowError "timestamp out of range for platform time_t")
  else if (timet <? GMTIME_MIN) || (GMTIME_MAX <? timet)
  then Err (OSError 75 "Value too large for defined data type")
  else if (micros <? MIN_MICROS) || (MAX_MICROS <? micros)
  then Err (ValueError "year is out of range")
  else Ok micros.

(** [dt.date()] *)
Definition date_of (micros : Z) : Z := micros / 86400000000.

(* ================================================================== *)
(** ** Effects: backend round trips, the field cache, generators *)

(** The three client methods the engine uses: [es().search],
    [es().count] and [es().indices.get_mapping]. *)
Inductive api : Type := search | count | indices_get_mapping.

(** A request: the method and its keyword arguments as written. *)
Record call : Type := { method : api; kwargs : list (string * value) }.

(** One round trip: the request and what the client returned or raised. *)
Definition event : Type := (call * result value)%type.

(** Programs yielding values of [Y] (a generator body) and returning [A]. *)
Inductive prog (Y A : Type) : Type :=
| Ret (a : A)
| Raise (e : exn)
| Yield (y : Y) (k : prog Y A)
| EsCall (c : call) (k : value -> prog Y A)
| CacheGet (index : string) (k : value -> prog Y A)    (* FIELD_CACHE.get(index) *)
| CacheSet (index : string) (fields : value) (k : prog Y A).
Arguments Ret {Y A} a.
Arguments Raise {Y A} e.
Arguments Yield {Y A} y k.
Arguments EsCall {Y A} c k.
Arguments CacheGet {Y A} index k.
Arguments CacheSet {Y A} index fields k.

Fixpoint bind {Y A B} (p : prog Y A) (f : A -> prog Y B) : prog Y B :=
  match p with
  | Ret a => f a
  | Raise e => Raise e
  | Yield y k => Yield y (bind k f)
  | EsCall c k => EsCall c (fun v => bind (k v) f)
  | CacheGet i k => CacheGet i (fun v => bind (k v) f)
  | CacheSet i v k => CacheSet i v (bind k f)
  end.

Declare Scope prog_scope.
Delimit Scope prog_scope with prog.
Notation "x <- p ;; k" := (bind p (fun x => k))
  (at level 61, p at next level, right associativity) : prog_scope.
Notation "p ;; k" := (bind p (fun _ => k))
  (at level 61, right associativity) : prog_scope.

Definition lift {Y A} (r : result A) : prog Y A :=
  match r with
  | Ok a => Ret a
  | Err e => Raise e
  end.

Definition es_call {Y} (m : api) (kw : list (string * value)) : prog Y value :=
  EsCall {| method := m; kwargs := kw |} (fun v => Ret v).

Definition cache_get {Y} (index : string) : prog Y value :=
  CacheGet index (fun v => Ret v).

Definition cache_set {Y} (index : string) (fields : value) : prog Y unit :=
  CacheSet index fields (Ret tt).

(** [yield y] *)
Definition yield {Y} (y : Y) : prog Y unit := Yield y (Ret tt).

(** [yield from l] for a materialised iterable *)
Fixpoint yield_from {Y} (l : list Y) : prog Y unit :=
  match l with
  | [] => Ret tt
  | y :: l' => Yield y (yield_from l')
  end.

(** [for x in l: body(x)] *)
Fixpoint for_list {X Y} (l : list X) (body : X -> prog Y unit) : prog Y unit :=
  match l with
  | [] => Ret tt
  | x :: l' => bind (body x) (fun _ => for_list l' body)
  end.

(** [for y in g: body(y)]: the body runs each time the generator [g]
    yields, before [g] is resumed. *)
Fixpoint for_each {Y Z} (g : prog Y unit) (body : Y -> prog Z unit) : prog Z unit :=
  match g with
  | Ret _ => Ret tt
  | Raise e => Raise e
  | Yield y k => bind (body y) (fun _ => for_each k body)
  | EsCall c k => EsCall c (fun v => for_each (k v) body)
  | CacheGet i k => CacheGet i (fun v => for_each (k v) body)
  | CacheSet i v k => CacheSet i v (for_each k body)
  end.

(** [list(g)] *)
Fixpoint collect {Y Z} (g : prog Y unit) : prog Z (list Y) :=
  match g with
  | Ret _ => Ret []
  | Raise e => Raise e
  | Yield y k => bind (collect k) (fun l => Ret (y :: l))
  | EsCall c k => EsCall c (fun v => collect (k v))
  | CacheGet i k => CacheGet i (fun v => collect (k v))
  | CacheSet i v k => CacheSet i v (collect k)
  end.

(** [[f(x) for x in l]] where [f] has effects *)
Fixpoint mapM {X Y B} (f : X -> prog Y B) (l : list X) : prog Y (list B) :=
  match l with
  | [] => Ret []
  | x :: l' => bind (f x) (fun b => bind (mapM f l') (fun bs => Ret (b :: bs)))
  end.

(** The process state: the module level [FIELD_CACHE] of
    [amcat4/elastic.py] and the round trips made so far, oldest first. *)
Record world : Type := { FIELD_CACHE : list (string * value); calls : list event }.

(** A backend: its answer to a request may depend on every earlier
    round trip.  The client is set up ([es()] returns it); what it
    raises is an answer like any other. *)
Definition backend : Type := list event -> call -> result value.

Fixpoint run {A} (respond : backend) (p : prog Empty_set A) (w : world)
  : result A * world :=
  match p with
  | Ret a => (Ok a, w)
  | Raise e => (Err e, w)
  | Yield y _ => match y with end
  | EsCall c k =>
      let r := respond (calls w) c in
      let w' := {| FIELD_CACHE := FIELD_CACHE w; calls := calls w ++ [(c, r)] |} in
      match r with
      | Ok v => run respond (k v) w'
      | Err e => (Err e, w')
      end
  | CacheGet i k =>
      run respond (k match dict_get i (FIELD_CACHE w) with Some v => v | None => VNone end) w
  | CacheSet i v k =>
      run respond k {| FIELD_CACHE := dict_set i v (FIELD_CACHE w); calls := calls w |}
  end.

(* ================================================================== *)
(** ** [amcat4/elastic.py]: the field type resolver *)

(** [index: Union[str, Sequence[str]]] *)
Inductive index_arg : Type :=
| IndexStr (name : string)
| IndexList (names : list string).

Definition index_value (index : index_arg) : value :=
  match index with
  | IndexStr s => VStr s
  | IndexList l => VList (map VStr l)
  end.

(** [index if isinstance(index, str) else ",".join(index)] *)
Definition index_joined (index : index_arg) : value :=
  match index with
  | IndexStr s => VStr s
  | IndexList l => VStr (join "," l)
  end.

Definition _get_type_from_property (properties : value) : result value :=
  (meta <- py_get properties "meta" (VDict []) ;;
   r <- py_get meta "amcat4_type" VNone ;;
   if truthy r then Ok r else py_getitem properties "type")%result.

Definition _get_fields_item (kv : string * value) : result (string * value) :=
  let (k, v) := kv in
  (ty <- _get_type_from_property v ;;
   meta <- py_get v "meta" VNone ;;
   let t := [("name", VStr k); ("type", ty)] in
   Ok (k, VDict (if truthy meta then dict_set "meta" meta t else t)))%result.

Definition _get_fields {Y} (index : string) : prog Y (list (string * value)) :=
  (r <- es_call indices_get_mapping [("index", VStr index)] ;;
   lift (ri <- py_getitem r index ;;
         m <- py_getitem ri "mappings" ;;
         p <- py_getitem m "properties" ;;
         items <- py_items p ;;
         rmapM _get_fields_item items)%result)%prog.

Definition get_index_fields {Y} (index : string) : prog Y value :=
  (cached <- cache_get index ;;
   if truthy cached then Ret cached
   else
     fields <- _get_fields index ;;
     let result := VDict (dict_of fields) in
     cache_set index result ;;
     Ret result)%prog.

(** One step of the merge loop of [get_fields]. *)
Definition merge_field (result : list (string * value)) (item : string * value)
  : list (string * value) :=
  let (f, ftype) := item in
  match dict_get f result with
  | Some known =>
      if negb (py_eqb known ftype)
      then dict_set f (VDict [("name", VStr f); ("type", VStr "keyword");
                              ("meta", VDict [("merged", VBool true)])]) result
      else result
  | None => dict_set f ftype result
  end.

Fixpoint get_fields_merge {Y} (indices : list string) (result : list (string * value))
  : prog Y value :=
  match indices with
  | [] => Ret (VDict result)
  | ix :: rest =>
      (fields <- get_index_fields ix ;;
       items <- lift (py_items fields) ;;
       get_fields_merge rest (fold_left merge_field items result))%prog
  end.

Definition get_fields {Y} (index : index_arg) : prog Y value :=
  match index with
  | IndexStr s => get_index_fields s
  | IndexList l => get_fields_merge l []
  end.

Definition field_type {Y} (index : index_arg) (field_name : string) : prog Y value :=
  (fields <- get_fields index ;;
   lift (f <- py_getitem fields field_name ;; py_getitem f "type")%result)%prog.

(* ================================================================== *)
(** ** [amcat4/aggregate.py] *)

Module Axis.
Record t : Type := { field : string; interval : option string; name : string }.

(** [Axis.__init__(field, interval=None, name=None)] *)
Definition init (field : string) (interval name : option string) : t :=
  {| field := field;
     interval := interval;
     name := if str_truthy name then match name with Some n => n | None => field end
             else if str_truthy interval
                  then match interval with Some i => field ++ "_" ++ i | None => field end
                  else field |}.
End Axis.

(** What [interval_mapping] of [amcat4.date_mappings] returns for an
    interval it knows: an object with [fieldname], [mapping] and
    [postprocess]. *)
Module DateMapping.
Record t : Type := {
  fieldname : string -> string;
  mapping : string -> value;
  postprocess : value -> result value }.
End DateMapping.

Module BoundAxis.
Record t : Type := { axis : Axis.t; index : index_arg; ftype : value }.

Definition init {Y} (axis : Axis.t) (index : index_arg) : prog Y t :=
  (ftype <- (if (Axis.field axis =? "_query")%string then Ret (VStr "_query")
             else field_type index (Axis.field axis)) ;;
   Ret {| axis := axis; index := index; ftype := ftype |})%prog.

Definition field (self : t) : string := Axis.field (axis self).
Definition name (self : t) : string := Axis.name (axis self).
Definition interval (self : t) : option string := Axis.interval (axis self).

Section Methods.
Variable interval_mapping : option string -> option DateMapping.t.

Definition query (self : t) : result value :=
  if negb (truthy (ftype self))
  then Err (ValueError "Please set index before using axis")
  else if str_truthy (interval self) then
    if py_eqb (ftype self) (VStr "date") then
      match interval_mapping (interval self) with
      | Some m =>
          Ok (VDict [(name self, VDict [("terms",
                VDict [("field", VStr (DateMapping.fieldname m (field self)))])])])
      | None =>
          Ok (VDict [(name self, VDict [("date_histogram",
                VDict [("field", VStr (field self));
                       ("calendar_interval", opt_str (interval self))])])])
      end
    else
      Ok (VDict [(name self, VDict [("histogram",
            VDict [("field", VStr (field self));
                   ("interval", opt_str (interval self))])])])
  else
    Ok (VDict [(name self, VDict [("terms", VDict [("field", VStr (field self))])])]).

(** [self.interval in {"year", "month", "week", "day"}] *)
Definition calendar_unit (interval : option string) : bool :=
  match interval with
  | Some i => existsb (String.eqb i) ["year"; "month"; "week"; "day"]
  | None => false
  end.

Definition get_value (self : t) (values : value) : result value :=
  (value <- py_getitem values (name self) ;;
   match interval_mapping (interval self) with
   | Some m => DateMapping.postprocess m value
   | None =>
       if py_eqb (ftype self) (VStr "date") then
         seconds <- div_1000 value ;;
         dt <- utcfromtimestamp seconds ;;
         if calendar_unit (interval self) then Ok (VDate (date_of dt))
         else Ok (VDateTime dt)
       else Ok value
   end)%result.

Definition asdict (self : t) : value :=
  VDict [("name", VStr (name self)); ("field", VStr (field self));
         ("type", ftype self); ("interval", opt_str (interval self))].

Definition runtime_mappings (self : t) : value :=
  match interval_mapping (interval self) with
  | Some m => DateMapping.mapping m (field self)
  | None => VNone
  end.
End Methods.
End BoundAxis.

Module Aggregation.
Record t : Type := { field : string; function : string; name : string }.

(** [Aggregation.__init__(field, function, name=None)] *)
Definition init (field function : string) (name : option string) : t :=
  {| field := field;
     function := function;
     name := if str_truthy name then match name with Some n => n | None => "" end
             else function ++ "_" ++ field |}.
End Aggregation.

Module BoundAggregation.
Record t : Type := { aggregation : Aggregation.t; index : index_arg; ftype : value }.

Definition init {Y} (aggregation : Aggregation.t) (index : index_arg) : prog Y t :=
  (ftype <- field_type index (Aggregation.field aggregation) ;;
   Ret {| aggregation := aggregation; index := index; ftype := ftype |})%prog.

Definition name (self : t) : string := Aggregation.name (aggregation self).
Definition function (self : t) : string := Aggregation.function (aggregation self).
Definition field (self : t) : string := Aggregation.field (aggregation self).

Definition dsl_item (self : t) : string * value :=
  (name self, VDict [(function self, VDict [("field", VStr (field self))])]).

Definition get_value (self : t) (bucket : value) : result value :=
  (sub <- py_getitem bucket (name self) ;;
   result <- py_getitem sub "value" ;;
   if truthy result && py_eqb (ftype self) (VStr "date") then
     seconds <- div_1000 result ;;
     dt <- utcfromtimestamp seconds ;;
     Ok (VDateTime dt)
   else Ok result)%result.

Definition asdict (self : t) : value :=
  VDict [("field", VStr (field self)); ("type", ftype self);
         ("function", VStr (function self)); ("name", VStr (name self))].
End BoundAggregation.

(** [_combine_mappings]: [result.update(mapping)] for every truthy one. *)
Fixpoint _combine_mappings_from (acc : list (string * value)) (mappings : list value)
  : result (list (string * value)) :=
  match mappings with
  | [] => Ok acc
  | m :: rest =>
      if truthy m then
        match m with
        | VDict d => _combine_mappings_from (dict_update acc d) rest
        | _ => Err (TypeError "cannot update a dict from this object")
        end
      else _combine_mappings_from acc rest
  end.

Definition _combine_mappings (mappings : list value) : result (list (string * value)) :=
  _combine_mappings_from [] mappings.

(** [aggregation_dsl]: [dict(a.dsl_item() for a in aggregations)] *)
Definition aggregation_dsl (aggregations : list BoundAggregation.t) : value :=
  VDict (dict_of (map BoundAggregation.dsl_item aggregations)).

Module AggregateResult.
Record t : Type := {
  axes : list BoundAxis.t;
  data : list (list value);
  aggregations : list BoundAggregation.t;
  count_column : string }.

(** [as_dicts]: [dict(zip(keys, row))] for every row *)
Definition as_dicts (self : t) : list value :=
  let keys := (map BoundAxis.name (axes self) ++ [count_column self])%list in
  let keys := match aggregations self with
              | [] => keys
              | _ => (keys ++ map BoundAggregation.name (aggregations self))%list
              end in
  map (fun row => VDict (dict_of (combine keys row))) (data self).
End AggregateResult.

(** [queries: Union[Mapping[str, str], Sequence[str]] = None] *)
Inductive queries_arg : Type :=
| QueriesNone
| QueriesMapping (m : list (string * string))
| QueriesSequence (l : list string).

(** The mapping [queries] and its view [queries.values()] as objects. *)
Definition queries_dict (queries : list (string * string)) : value :=
  VDict (map (fun lq => (fst lq, VStr (snd lq))) queries).

Definition queries_values (queries : list (string * string)) : value :=
  VList (map (fun lq => VStr (snd lq)) queries).

Definition nonempty {X} (l : list X) : bool :=
  match l with [] => false | _ => true end.

(** [l.index(x)] on a list known to contain [x] *)
Fixpoint index_of (x : string) (l : list string) : nat :=
  match l with
  | [] => 0
  | y :: l' => if (y =? x)%string then 0%nat else S (index_of x l')
  end.

Definition is_query_axis (ax : BoundAxis.t) : bool :=
  (BoundAxis.field ax =? "_query")%string.

(** [result.get("_shards", {}).get("failures")] *)
Definition shard_failures (response : value) : result value :=
  (shards <- py_get response "_shards" (VDict []) ;;
   py_get shards "failures" VNone)%result.

(** [iter(result['aggregations']['aggs']['buckets'])] *)
Definition page_buckets (response : value) : result (list value) :=
  (a <- py_getitem response "aggregations" ;;
   aggs <- py_getitem a "aggs" ;;
   b <- py_getitem aggs "buckets" ;;
   py_iter b)%result.

(** [result['aggregations']['aggs'].get('after_key')] *)
Definition page_after_key (response : value) : result value :=
  (a <- py_getitem response "aggregations" ;;
   aggs <- py_getitem a "aggs" ;;
   py_get aggs "after_key" VNone)%result.

(** [result_tuple[:i] + (label,) + result_tuple[i:]] *)
Definition insert_label (i : nat) (label : string) (result_tuple : list value)
  : list value :=
  (firstn i result_tuple ++ [VStr label] ++ skipn i result_tuple)%list.

(** [axes[:i] + axes[(i+1):]] *)
Definition without_nth {X} (i : nat) (axes : list X) : list X :=
  (firstn i axes ++ skipn (S i) axes)%list.

Section Engine.

(** Collaborators whose module is not part of the engine:
    [amcat4.date_mappings.interval_mapping], and [build_body] and
    [_normalize_queries] of [amcat4.query].  [build_body] receives its
    [queries] and [filters] keyword arguments. *)
Variable interval_mapping : option string -> option DateMapping.t.
Variable build_body : value -> value -> result value.
Variable _normalize_queries : queries_arg -> list (string * string).

Definition _bare_aggregate {Y} (index : index_arg) (queries : list (string * string))
    (filters : value) (aggregations : list BoundAggregation.t)
  : prog Y (value * value) :=
  (query <- lift (if truthy filters || nonempty queries
                  then build_body (queries_dict queries) filters
                  else Ok (VDict [("match_all", VDict [])])) ;;
   q <- lift (py_getitem query "query") ;;
   aresult <- es_call search [("query", q); ("index", index_value index);
                              ("size", VInt 0);
                              ("aggregations", aggregation_dsl aggregations)] ;;
   cresult <- es_call count [("body", query); ("index", index_value index)] ;;
   n <- lift (py_getitem cresult "count") ;;
   a <- lift (py_getitem aresult "aggregations") ;;
   Ret (n, a))%prog.

(** [aggr]: the [aggregations=] body of one page request. *)
Definition composite_body (sources : value) (aggregations : list BoundAggregation.t)
    (after_key : value) : value :=
  let after := if truthy after_key then [("after", after_key)] else [] in
  let composite := VDict (("sources", sources) :: after) in
  VDict [("aggs", VDict (if nonempty aggregations
                         then [("composite", composite);
                               ("aggregations", aggregation_dsl aggregations)]
                         else [("composite", composite)]))].

(** [kargs]: the query clause of a page request, if any. *)
Definition query_kargs (queries : list (string * string)) (filters : value)
  : result (list (string * value)) :=
  if truthy filters || nonempty queries
  then (q <- build_body (queries_values queries) filters ;;
        qq <- py_getitem q "query" ;;
        Ok [("query", qq)])%result
  else Ok [].

(** The page request for a cursor. *)
Definition page_request (index : index_arg) (sources : value)
    (aggregations : list BoundAggregation.t) (runtime_mappings : value)
    (kargs : list (string * value)) (after_key : value) : call :=
  {| method := search;
     kwargs := [("index", index_joined index); ("size", VInt 0);
                ("aggregations", composite_body sources aggregations after_key);
                ("runtime_mappings", runtime_mappings)] ++ kargs |}.

(** [depth] is the number of nested frames the interpreter still
    allows; a recursive call beyond it raises [RecursionError]. *)
Fixpoint _elastic_aggregate (depth : nat) (index : index_arg) (sources : value)
    (queries : list (string * string)) (filters : value)
    (aggregations : list BoundAggregation.t) (runtime_mappings after_key : value)
  : prog value unit :=
  match depth with
  | O => Raise RecursionError
  | S depth' =>
      (kargs <- lift (query_kargs queries filters) ;;
       result <- EsCall (page_request index sources aggregations runtime_mappings
                                      kargs after_key) (fun v => Ret v) ;;
       failure <- lift (shard_failures result) ;;
       if truthy failure
       then Raise (Exception "Error on running aggregate search" failure)
       else
         buckets <- lift (page_buckets result) ;;
         yield_from buckets ;;
         after_key <- lift (page_after_key result) ;;
         if truthy after_key
         then _elastic_aggregate depth' index sources queries filters aggregations
                                 runtime_mappings after_key
         else Ret tt)%prog
  end.

(** The row of one composite bucket. *)
Definition bucket_row (axes : list BoundAxis.t) (aggregations : list BoundAggregation.t)
    (bucket : value) : result (list value) :=
  (row <- rmapM (fun axis => key <- py_getitem bucket "key" ;;
                             BoundAxis.get_value interval_mapping axis key) axes ;;
   n <- py_getitem bucket "doc_count" ;;
   let row := (row ++ [n])%list in
   if nonempty aggregations
   then vals <- rmapM (fun a => BoundAggregation.get_value a bucket) aggregations ;;
        Ok (row ++ vals)%list
   else Ok row)%result.

Fixpoint _aggregate_results (depth : nat) (index : index_arg) (axes : list BoundAxis.t)
    (queries : list (string * string)) (filters : value)
    (aggregations : list BoundAggregation.t) : prog (list value) unit :=
  match depth with
  | O => Raise RecursionError
  | S depth' =>
      if negb (nonempty axes) then
        if nonempty aggregations then
          (cr <- _bare_aggregate index queries filters aggregations ;;
           vals <- lift (rmapM (fun a => BoundAggregation.get_value a (snd cr))
                               aggregations) ;;
           yield (fst cr :: vals))%prog
        else
          (body <- lift (build_body (queries_dict queries) filters) ;;
           result <- es_call count [("index", index_joined index); ("body", body)] ;;
           n <- lift (py_getitem result "count") ;;
           yield [n])%prog
      else if existsb is_query_axis axes then
        let i := index_of "_query" (map BoundAxis.field axes) in
        let _axes := without_nth i axes in
        for_list queries (fun lq =>
          for_each (_aggregate_results depth' index _axes [(fst lq, snd lq)]
                                       filters aggregations)
                   (fun result_tuple => yield (insert_label i (fst lq) result_tuple)))
      else
        (sources <- lift (rmapM (BoundAxis.query interval_mapping) axes) ;;
         runtime_mappings <- lift (_combine_mappings
                               (map (BoundAxis.runtime_mappings interval_mapping) axes)) ;;
         for_each (_elastic_aggregate depth' index (VList sources) queries filters
                                      aggregations (VDict runtime_mappings) VNone)
                  (fun bucket => row <- lift (bucket_row axes aggregations bucket) ;;
                                 yield row))%prog
  end.

(** [axes and len([x.field == "_query" for x in axes[1:]]) > 1] *)
Definition too_many_query_axes (axes : option (list Axis.t)) : bool :=
  match axes with
  | Some (a :: rest) =>
      (1 <? List.length (map (fun x => (Axis.field x =? "_query")%string) rest))%nat
  | _ => false
  end.

(** [[BoundAxis(axis, index) for axis in axes] if axes else []] *)
Definition bind_axes {Y} (index : index_arg) (axes : option (list Axis.t))
  : prog Y (list BoundAxis.t) :=
  match axes with
  | Some (a :: rest) => mapM (fun axis => BoundAxis.init axis index) (a :: rest)
  | _ => Ret []
  end.

(** [[BoundAggregation(a, index) for a in aggregations] if aggregations else []] *)
Definition bind_aggregations {Y} (index : index_arg)
    (aggregations : option (list Aggregation.t)) : prog Y (list BoundAggregation.t) :=
  match aggregations with
  | Some (a :: rest) => mapM (fun a => BoundAggregation.init a index) (a :: rest)
  | _ => Ret []
  end.

(** [query_aggregate] after its guard. *)
Definition query_aggregate_body {Y} (depth : nat) (index : index_arg)
    (axes : option (list Axis.t)) (aggregations : option (list Aggregation.t))
    (queries : queries_arg) (filters : value) : prog Y AggregateResult.t :=
  (_axes <- bind_axes index axes ;;
   _aggregations <- bind_aggregations index aggregations ;;
   let queries := _normalize_queries queries in
   data <- collect (_aggregate_results depth index _axes queries filters _aggregations) ;;
   Ret {| AggregateResult.axes := _axes;
          AggregateResult.data := data;
          AggregateResult.aggregations := _aggregations;
          AggregateResult.count_column := "n" |})%prog.

Definition query_aggregate {Y} (depth : nat) (index : index_arg)
    (axes : option (list Axis.t)) (aggregations : option (list Aggregation.t))
    (queries : queries_arg) (filters : value) : prog Y AggregateResult.t :=
  if too_many_query_axes axes
  then Raise (ValueError "Only one aggregation axis may be by query")
  else query_aggregate_body depth index axes aggregations queries filters.

(** The fan-out over named queries as section 4.4 of the design words
    it: run the reduced pipeline once per [(label, query)] pair, in the
    order of the mapping, put [label] back at position [i] of every
    row, and concatenate. *)
Fixpoint rows_per_label (depth : nat) (index : index_arg) (i : nat)
    (reduced : list BoundAxis.t) (queries : list (string * string)) (filters : value)
    (aggregations : list BoundAggregation.t) : prog Empty_set (list (list value)) :=
  match queries with
  | [] => Ret []
  | lq :: rest =>
      (rows <- collect (_aggregate_results depth index reduced [(fst lq, snd lq)]
                                           filters aggregations) ;;
       more <- rows_per_label depth index i reduced rest filters aggregations ;;
       Ret (map (insert_label i (fst lq)) rows ++ more)%list)%prog
  end.

End Engine.

(* ================================================================== *)
(** ** Observations on programs and runs *)

(** The round trips a run added to the record. *)
Definition new_calls (w w' : world) : list event :=
  skipn (List.length (calls w)) (calls w').

(** A page request of the pagination engine: the only [search] that
    passes [runtime_mappings]. *)
Definition is_page_request (c : call) : bool :=
  match method c, dict_get "runtime_mappings" (kwargs c) with
  | search, Some _ => true
  | _, _ => false
  end.

(** The response reports partial shard failures. *)
Definition reports_failures (response : value) : bool :=
  match shard_failures response with
  | Ok failure => truthy failure
  | Err _ => false
  end.

(** The response carries a continuation cursor. *)
Definition has_after_key (response : value) : bool :=
  match page_after_key response with
  | Ok after_key => truthy after_key
  | Err _ => false
  end.

Definition buckets_of (response : value) : list value :=
  match page_buckets response with
  | Ok buckets => buckets
  | Err _ => []
  end.

Definition cursor_of (response : value) : value :=
  match page_after_key response with
  | Ok after_key => after_key
  | Err _ => VNone
  end.

(** A page the engine can read: no shard failures and an iterable
    bucket list. *)
Definition sound_page (response : value) : bool :=
  negb (reports_failures response) &&
  match shard_failures response, page_buckets response with
  | Ok _, Ok _ => true
  | _, _ => false
  end.

(** A sequence of pages as a backend produces it: every page but the
    last carries a cursor, the last carries none. *)
Fixpoint page_sequence (pages : list value) : bool :=
  match pages with
  | [] => false
  | [p] => sound_page p && negb (has_after_key p)
  | p :: rest => sound_page p && has_after_key p && page_sequence rest
  end.

(** The round trips that fetch [pages] starting from cursor [after]:
    each request carries the cursor of the page before it. *)
Fixpoint page_events (request : value -> call) (after : value) (pages : list value)
  : list event :=
  match pages with
  | [] => []
  | p :: rest => (request after, Ok p) :: page_events request (cursor_of p) rest
  end.

(** The backend answers the requests of [events] as recorded, in turn,
    after the round trips of [log]. *)
Fixpoint serves (respond : backend) (log : list event) (events : list event) : Prop :=
  match events with
  | [] => True
  | ev :: rest => respond log (fst ev) = snd ev /\ serves respond (log ++ [ev]) rest
  end.

(** The error raised for a response that reports shard failures. *)
Definition shard_failure_error (response : value) : exn :=
  Exception "Error on running aggregate search"
            match shard_failures response with
            | Ok failure => failure
            | Err _ => VNone
            end.

(** Every page request in the tree is followed by the failure check:
    a response that reports shard failures makes the program raise. *)
Fixpoint checked {Y A} (p : prog Y A) : Prop :=
  match p with
  | Ret _ => True
  | Raise _ => True
  | Yield _ k => checked k
  | EsCall c k =>
      forall v, checked (k v) /\
                (is_page_request c = true -> reports_failures v = true ->
                 k v = Raise (shard_failure_error v))
  | CacheGet _ k => forall v, checked (k v)
  | CacheSet _ _ k => checked k
  end.

(** Every value the tree can yield satisfies [P]. *)
Fixpoint yields_all {Y A} (P : Y -> Prop) (p : prog Y A) : Prop :=
  match p with
  | Ret _ => True
  | Raise _ => True
  | Yield y k => P y /\ yields_all P k
  | EsCall _ k => forall v, yields_all P (k v)
  | CacheGet _ k => forall v, yields_all P (k v)
  | CacheSet _ _ k => yields_all P k
  end.

Definition supplied {X} (l : option (list X)) : list X :=
  match l with
  | Some l => l
  | None => []
  end.

(* ================================================================== *)
(** ** Paging as section 4.3 of the design words it

    The definitions of this section do not go through the functions of
    the engine: they read a backend response with plain lookups and
    write the page request out in full, so that the engine can be
    compared with them. *)

(** The response reports no partial shard failures: it has no
    ["_shards"] entry, or one without ["failures"], or with an empty
    one. *)
Definition clean_page (response : value) : bool :=
  match response with
  | VDict entries =>
      match dict_get "_shards" entries with
      | None => true
      | Some (VDict shards) =>
          match dict_get "failures" shards with
          | None => true
          | Some failures => negb (truthy failures)
          end
      | Some _ => false
      end
  | _ => false
  end.

(** The composite result of a response, under ["aggregations"]["aggs"]. *)
Definition composite_result (response : value) : option (list (string * value)) :=
  match response with
  | VDict entries =>
      match dict_get "aggregations" entries with
      | Some (VDict aggregations) =>
          match dict_get "aggs" aggregations with
          | Some (VDict aggs) => Some aggs
          | _ => None
          end
      | _ => None
      end
  | _ => None
  end.

(** The buckets a page lists, in the order of the response. *)
Definition listed_buckets (response : value) : option (list value) :=
  match composite_result response with
  | Some aggs =>
      match dict_get "buckets" aggs with
      | Some (VList buckets) => Some buckets
      | _ => None
      end
  | None => None
  end.

(** The continuation cursor a page carries: its ["after_key"], unless
    that is absent, null or empty. *)
Definition continuation (response : value) : option value :=
  match composite_result response with
  | Some aggs =>
      match dict_get "after_key" aggs with
      | Some key => if truthy key then Some key else None
      | None => None
      end
  | None => None
  end.

Definition readable_page (response : value) : bool :=
  clean_page response &&
  match listed_buckets response with Some _ => true | None => false end.

(** The pages of one aggregation as a backend serves them: every page
    is readable, every page but the last carries a continuation
    cursor, the last carries none. *)
Fixpoint paged (pages : list value) : bool :=
  match pages with
  | [] => false
  | [p] => readable_page p && match continuation p with Some _ => false | None => true end
  | p :: rest =>
      readable_page p && match continuation p with Some _ => true | None => false end
      && paged rest
  end.

(** All buckets of all pages, in order. *)
Definition all_buckets (pages : list value) : list value :=
  flat_map (fun p => match listed_buckets p with Some buckets => buckets | None => [] end)
           pages.

(** The page request: a zero-hit search on the index (several indices
    joined by commas) whose body carries the composite bucket
    definition over [sources], with the cursor as ["after"] when there
    is one and the metrics block when there is one, the runtime
    mappings, and the query clause. *)
Definition composite_request (index : index_arg) (sources : value) (metrics : option value)
    (runtime_mappings : value) (clause : list (string * value)) (cursor : option value)
  : call :=
  {| method := search;
     kwargs :=
       [("index", VStr match index with
                       | IndexStr name => name
                       | IndexList names => join "," names
                       end);
        ("size", VInt 0);
        ("aggregations",
         VDict [("aggs",
                 VDict (("composite",
                         VDict (("sources", sources)
                                :: match cursor with
                                   | Some key => [("after", key)]
                                   | None => []
                                   end))
                        :: match metrics with
                           | Some block => [("aggregations", block)]
                           | None => []
                           end))]);
        ("runtime_mappings", runtime_mappings)] ++ clause |}.

(** The query clause of a page request: none without queries and
    filters, else the ["query"] of the body built from the query
    strings and the filters. *)
Definition query_clause (build_body : value -> value -> result value)
    (queries : list (string * string)) (filters : value) (clause : list (string * value))
  : Prop :=
  if truthy filters || nonempty queries
  then exists body q,
         build_body (VList (map (fun lq => VStr (snd lq)) queries)) filters = Ok body /\
         py_getitem body "query" = Ok q /\
         clause = [("query", q)]
  else clause = [].

(** The metrics block of a page request, if any. *)
Definition metrics_block (aggregations : list BoundAggregation.t) : option value :=
  match aggregations with
  | [] => None
  | _ => Some (aggregation_dsl aggregations)
  end.

(** The cursor a request carries for an [after_key] argument. *)
Definition as_cursor (after_key : value) : option value :=
  if truthy after_key then Some after_key else None.

(** The round trips that fetch [pages]: the first request carries
    [cursor], each later one the continuation cursor of the page
    before it. *)
Fixpoint exchange (request : option value -> call) (cursor : option value)
    (pages : list value) : list event :=
  match pages with
  | [] => []
  | p :: rest => (request cursor, Ok p) :: exchange request (continuation p) rest
  end.

(* ================================================================== *)
(** ** Fixtures: collaborators, a scripted backend, canned responses *)

(** An interval codec that knows ["dayofweek"] only. *)
Definition sample_interval_mapping (interval : option string) : option DateMapping.t :=
  match interval with
  | Some i =>
      if (i =? "dayofweek")%string then
        Some {| DateMapping.fieldname := fun f => f ++ "_dayofweek";
                DateMapping.mapping := fun f =>
                  VDict [(f ++ "_dayofweek",
                          VDict [("type", VStr "keyword"); ("script", VStr "emit(dow)")])];
                DateMapping.postprocess := fun v => Ok v |}
      else None
  | None => None
  end.

Definition sample_build_body (queries filters : value) : result value :=
  Ok (VDict [("query", VDict [("bool", VDict [("should", queries); ("filter", filters)])])]).

Definition sample_normalize_queries (queries : queries_arg) : list (string * string) :=
  match queries with
  | QueriesNone => []
  | QueriesMapping m => m
  | QueriesSequence l => map (fun q => (q, q)) l
  end.

(** A backend that plays back [script], one entry per round trip. *)
Definition scripted (script : list (result value)) : backend :=
  fun log _ => nth (List.length log) script (Err (TransportError 503 VNone)).

Definition world0 : world := {| FIELD_CACHE := []; calls := [] |}.

Definition mapping_response : value :=
  VDict [("idx", VDict [("mappings", VDict [("properties", VDict [
     ("cat", VDict [("type", VStr "keyword")]);
     ("date", VDict [("type", VStr "date")]);
     ("i", VDict [("type", VStr "long")])])])])].

Definition sample_bucket (k : string) (v : value) (n : Z) : value :=
  VDict [("key", VDict [(k, v)]); ("doc_count", VInt n)].

Definition sample_page (buckets : list value) (after : option value) : value :=
  VDict [("aggregations",
          VDict [("aggs", VDict (match after with
                                 | Some a => [("after_key", a); ("buckets", VList buckets)]
                                 | None => [("buckets", VList buckets)]
                                 end))])].

Definition failed_page : value :=
  VDict [("_shards", VDict [("failures", VList [VStr "shard 0 unavailable"])]);
         ("aggregations", VDict [("aggs", VDict [("buckets", VList [])])])].

Definition sample_query_aggregate :=
  @query_aggregate sample_interval_mapping sample_build_body sample_normalize_queries
                   Empty_set 1000%nat (IndexStr "idx").

Definition empty_result : AggregateResult.t :=
  {| AggregateResult.axes := []; AggregateResult.data := [];
     AggregateResult.aggregations := []; AggregateResult.count_column := "" |}.

Definition the_result (outcome : result AggregateResult.t * world) : AggregateResult.t :=
  match fst outcome with
  | Ok r => r
  | Err _ => empty_result
  end.

(** Two pages of a one-axis aggregation over [cat]. *)
Definition first_page : value :=
  sample_page [sample_bucket "cat" (VStr "a") 3] (Some (VDict [("cat", VStr "a")])).
Definition last_page : value :=
  sample_page [sample_bucket "cat" (VStr "b") 1] None.

(** [axes=[Axis("cat"), Axis("_query")]] with two named queries. *)
Definition by_query_axes : list Axis.t :=
  [Axis.init "cat" None None; Axis.init "_query" None None].
Definition by_query_queries : queries_arg :=
  QueriesMapping [("q1", "foo"); ("q2", "bar")].
Definition by_query_backend : backend :=
  scripted [Ok mapping_response;
            Ok (sample_page [sample_bucket "cat" (VStr "a") 2] None);
            Ok (sample_page [sample_bucket "cat" (VStr "a") 1;
                             sample_bucket "cat" (VStr "b") 1] None)].
Definition by_query_outcome : result AggregateResult.t * world :=
  run by_query_backend
      (sample_query_aggregate (Some by_query_axes) None by_query_queries VNone) world0.
Definition by_query_result : AggregateResult.t :=
  Eval vm_compute in the_result by_query_outcome.
Definition by_query_world : world := Eval vm_compute in snd by_query_outcome.

(** A second page that reports a shard failure. *)
Definition failing_backend : backend :=
  scripted [Ok mapping_response; Ok first_page; Ok failed_page].
Definition failing_outcome : result AggregateResult.t * world :=
  run failing_backend
      (sample_query_aggregate (Some [Axis.init "cat" None None]) None QueriesNone VNone)
      world0.
Definition failing_world : world := Eval vm_compute in snd failing_outcome.

(** Bound objects over a [date] field. *)
Definition date_axis (interval : string) : BoundAxis.t :=
  {| BoundAxis.axis := Axis.init "date" (Some interval) None;
     BoundAxis.index := IndexStr "idx";
     BoundAxis.ftype := VStr "date" |}.
Definition min_date : BoundAggregation.t :=
  {| BoundAggregation.aggregation := Aggregation.init "date" "min" None;
     BoundAggregation.index := IndexStr "idx";
     BoundAggregation.ftype := VStr "date" |}.

(** A process whose field cache already holds the fields of [idx]. *)
Definition warm_world : world :=
  {| FIELD_CACHE := [("idx", VDict [("i", VDict [("name", VStr "i"); ("type", VStr "long")])])];
     calls := [] |}.

(* ================================================================== *)
(** ** More of [amcat4/elastic.py] *)

(** [del d[k]] *)
Fixpoint dict_remove {V} (k : string) (d : list (string * V)) : list (string * V) :=
  match d with
  | [] => []
  | (k', v) :: d' =>
      if (k =? k')%string then dict_remove k d' else (k', v) :: dict_remove k d'
  end.

(** [invalidate_field_cache]: [if index in FIELD_CACHE: del FIELD_CACHE[index]] *)
Definition invalidate_field_cache (index : string) (w : world) : world :=
  {| FIELD_CACHE := dict_remove index (FIELD_CACHE w); calls := calls w |}.

(** [FIELD_CACHE.get(index)] *)
Definition cached_fields (index : string) (w : world) : value :=
  match dict_get index (FIELD_CACHE w) with
  | Some fields => fields
  | None => VNone
  end.

(** The request of [_get_fields]. *)
Definition get_mapping_call (index : string) : call :=
  {| method := indices_get_mapping; kwargs := [("index", VStr index)] |}.

(** What [_get_fields] makes of the response to that request. *)
Definition mapping_fields (index : string) (r : value) : result (list (string * value)) :=
  (ri <- py_getitem r index ;;
   m <- py_getitem ri "mappings" ;;
   p <- py_getitem m "properties" ;;
   items <- py_items p ;;
   rmapM _get_fields_item items)%result.

(** The descriptor [get_fields] stores for a field on whose type the
    indices disagree. *)
Definition merged_descriptor (f : string) : value :=
  VDict [("name", VStr f); ("type", VStr "keyword");
         ("meta", VDict [("merged", VBool true)])].

(** The module level table [ES_MAPPINGS]. *)
Definition ES_MAPPINGS : list (string * value) :=
  [("long", VDict [("type", VStr "long")]);
   ("date", VDict [("type", VStr "date"); ("format", VStr "strict_date_optional_time")]);
   ("double", VDict [("type", VStr "double")]);
   ("keyword", VDict [("type", VStr "keyword")]);
   ("url", VDict [("type", VStr "keyword"); ("meta", VDict [("amcat4_type", VStr "url")])]);
   ("tag", VDict [("type", VStr "keyword"); ("meta", VDict [("amcat4_type", VStr "tag")])]);
   ("id", VDict [("type", VStr "keyword"); ("meta", VDict [("amcat4_type", VStr "id")])]);
   ("text", VDict [("type", VStr "text")]);
   ("object", VDict [("type", VStr "object")]);
   ("geo_point", VDict [("type", VStr "geo_point")])].

(** [table[key]] for a key that may be any object. *)
Definition table_getitem (table : list (string * value)) (key : value) : result value :=
  match key with
  | VStr s => py_getitem (VDict table) s
  | VList _ | VDict _ => Err (TypeError "unhashable type")
  | _ => Err (KeyError "")   (* a key that is not a string is not in the table *)
  end.

(** [get_mapping(type_)].  The mapping it works on is the object stored
    in [ES_MAPPINGS], so the table is threaded through: the second
    component is the table after the call. *)
Definition get_mapping (table : list (string * value)) (type_ : value)
  : result (value * list (string * value)) :=
  match type_ with
  | VStr s => (mapping <- py_getitem (VDict table) s ;; Ok (mapping, table))%result
  | _ =>
      (t <- py_getitem type_ "type" ;;
       mapping <- table_getitem table t ;;
       meta <- py_get mapping "meta" (VDict []) ;;
       m <- py_get type_ "meta" VNone ;;
       meta <- (if truthy m then
                  match meta, m with
                  | VDict md, VDict d => Ok (VDict (dict_update md d))
                  | VDict _, _ => Err (TypeError "cannot update a dict from this object")
                  | _, _ => Err (AttributeError "object has no attribute 'update'")
                  end
                else Ok meta) ;;
       match mapping, t with
       | VDict entries, VStr s =>
           let mapping := VDict (dict_set "meta" meta entries) in
           Ok (mapping, dict_set s mapping table)
       | _, _ => Err (TypeError "object does not support item assignment")
       end)%result
  end.

(** The field type an axis gets when the fields [d] of its index are
    in the cache. *)
Definition cached_ftype (d : list (string * value)) (axis : Axis.t) : result value :=
  if (Axis.field axis =? "_query")%string then Ok (VStr "_query")
  else (f <- py_getitem (VDict d) (Axis.field axis) ;; py_getitem f "type")%result.

(** The same for an aggregation: its field is always looked up. *)
Definition cached_aggregation_ftype (d : list (string * value)) (a : Aggregation.t)
  : result value :=
  (f <- py_getitem (VDict d) (Aggregation.field a) ;; py_getitem f "type")%result.

(** Axes and aggregations bound to [index] with the given field types. *)
Definition bound_axes (index : index_arg) (axes : list Axis.t) (ftypes : list value)
  : list BoundAxis.t :=
  map (fun af => {| BoundAxis.axis := fst af; BoundAxis.index := index;
                    BoundAxis.ftype := snd af |}) (combine axes ftypes).

Definition bound_aggregations (index : index_arg) (aggregations : list Aggregation.t)
    (ftypes : list value) : list BoundAggregation.t :=
  map (fun af => {| BoundAggregation.aggregation := fst af;
                    BoundAggregation.index := index;
                    BoundAggregation.ftype := snd af |}) (combine aggregations ftypes).

(** The cursor in force after [pages] were fetched starting from [after]. *)
Definition last_cursor (after : value) (pages : list value) : value :=
  fold_left (fun _ p => cursor_of p) pages after.

(** The indices a value of [index_arg] names. *)
Definition index_names (index : index_arg) : list string :=
  match index with
  | IndexStr s => [s]
  | IndexList l => l
  end.

(** The tree writes the field cache for the indices of [keys] only. *)
Fixpoint writes_only {Y A} (keys : list string) (p : prog Y A) : Prop :=
  match p with
  | Ret _ => True
  | Raise _ => True
  | Yield _ k => writes_only keys k
  | EsCall _ k => forall v, writes_only keys (k v)
  | CacheGet _ k => forall v, writes_only keys (k v)
  | CacheSet i _ k => In i keys /\ writes_only keys k
  end.

(** The column names of [as_dicts], in order. *)
Definition column_names (self : AggregateResult.t) : list string :=
  (map BoundAxis.name (AggregateResult.axes self)
   ++ [AggregateResult.count_column self]
   ++ map BoundAggregation.name (AggregateResult.aggregations self))%list.

(* ================================================================== *)
(** ** [amcat4/query.py]: [QueryResult] *)

(** [math.ceil] of a quotient. *)
Definition ceil (q : Q) : Z := - ((- Qnum q) / Zpos (Qden q)).

Module QueryResult.
Record t : Type := {
  data : value;
  total_count : value;
  page : value;
  page_count : value;
  per_page : value;
  scroll_id : value }.

(** What [__init__] can raise. *)
Inductive raised : Type := ZeroDivisionError | OperandTypeError | OverflowError.

(** [ceil(n / per_page)].  The quotient of two [int]s is their exact
    quotient rounded to a double; otherwise the [int] operand is
    converted and the floats are divided.  A quotient too large for a
    double raises [OverflowError] (with floats: it is an infinity, on
    which [ceil] raises it). *)
Definition pages (n per_page : value) : raised + Z :=
  let rounded (q : Q) :=
    let x := to_double q in
    if is_finite x then inr (ceil x) else inl OverflowError in
  match as_int n, as_int per_page with
  | Some a, Some b =>
      if b =? 0 then inl ZeroDivisionError
      else rounded (inject_Z a / inject_Z b)%Q
  | _, _ =>
      match as_float n, as_float per_page with
      | Some (Ok x), Some (Ok y) =>
          if Qeq_bool y 0 then inl ZeroDivisionError else rounded (x / y)%Q
      | Some (Err _), Some _ | Some _, Some (Err _) => inl OverflowError
      | _, _ => inl OperandTypeError
      end
  end.

(** [QueryResult.__init__(data, n, per_page, page, page_count, scroll_id)] *)
Definition init (data n per_page page page_count scroll_id : value) : raised + t :=
  let build page_count :=
    {| data := data; total_count := n; page := page; page_count := page_count;
       per_page := per_page; scroll_id := scroll_id |} in
  if truthy n && match page_count with VNone => true | _ => false end
  then match pages n per_page with
       | inr pc => inr (build (VInt pc))
       | inl e => inl e
       end
  else inr (build page_count).

Definition as_dict (self : t) : value :=
  let meta :=
    if truthy (scroll_id self) then [("scroll_id", scroll_id self)]
    else [("total_count", total_count self); ("per_page", per_page self);
          ("page_count", page_count self); ("page", page self)] in
  VDict [("meta", VDict meta); ("results", data self)].
End QueryResult.

(* ================================================================== *)
(** ** More fixtures *)

Definition idx_fields : list (string * value) :=
  Eval vm_compute in
    match mapping_fields "idx" mapping_response with
    | Ok fields => fields
    | Err _ => []
    end.

(** The mapping of an index that has no fields yet. *)
Definition empty_mapping_response : value :=
  VDict [("idx", VDict [("mappings", VDict [("properties", VDict [])])])].

(** A process that has the fields of two indices in its cache; they
    disagree on the type of [i]. *)
Definition two_index_world : world :=
  {| FIELD_CACHE :=
       [("idx", VDict [("i", VDict [("name", VStr "i"); ("type", VStr "long")]);
                       ("cat", VDict [("name", VStr "cat"); ("type", VStr "keyword")])]);
        ("idx2", VDict [("i", VDict [("name", VStr "i"); ("type", VStr "keyword")]);
                        ("cat", VDict [("name", VStr "cat"); ("type", VStr "keyword")]);
                        ("url", VDict [("name", VStr "url"); ("type", VStr "url")])])];
     calls := [] |}.

Definition cat_axis : BoundAxis.t :=
  {| BoundAxis.axis := Axis.init "cat" None None;
     BoundAxis.index := IndexStr "idx";
     BoundAxis.ftype := VStr "keyword" |}.

Definition query_axis : BoundAxis.t :=
  {| BoundAxis.axis := Axis.init "_query" None None;
     BoundAxis.index := IndexStr "idx";
     BoundAxis.ftype := VStr "_query" |}.

Definition cat_sources : list value :=
  [VDict [("cat", VDict [("terms", VDict [("field", VStr "cat")])])]].

Definition avg_i : BoundAggregation.t :=
  {| BoundAggregation.aggregation := Aggregation.init "i" "avg" None;
     BoundAggregation.index := IndexStr "idx";
     BoundAggregation.ftype := VStr "long" |}.

(** A page with a cursor whose only bucket has no [doc_count]. *)
Definition broken_page : value :=
  sample_page [VDict [("key", VDict [("cat", VStr "b")])]]
              (Some (VDict [("cat", VStr "b")])).

(** A result in which an axis was given the name of the count column. *)
Definition shadowed_result : AggregateResult.t :=
  {| AggregateResult.axes :=
       [{| BoundAxis.axis := Axis.init "cat" None (Some "n");
           BoundAxis.index := IndexStr "idx";
           BoundAxis.ftype := VStr "keyword" |}];
     AggregateResult.data := [[VStr "a"; VInt 3]];
     AggregateResult.aggregations := [];
     AggregateResult.count_column := "n" |}.

(** Responses of the scalar path. *)
Definition metrics_response : value :=
  VDict [("aggregations", VDict [("avg_i", VDict [("value", VInt 11)])])].
Definition count_response : value := VDict [("count", VInt 4)].

(** The two round trips that fetch [first_page] and [last_page] for
    the one axis [cat]: the second request carries the cursor of the
    first page. *)
Definition cat_exchange : list event :=
  [({| method := search;
       kwargs := [("index", VStr "idx"); ("size", VInt 0);
                  ("aggregations",
                   VDict [("aggs", VDict [("composite",
                     VDict [("sources",
                             VList [VDict [("cat", VDict [("terms",
                                      VDict [("field", VStr "cat")])])]])])])]);
                  ("runtime_mappings", VDict [])] |},
    Ok first_page);
   ({| method := search;
       kwargs := [("index", VStr "idx"); ("size", VInt 0);
                  ("aggregations",
                   VDict [("aggs", VDict [("composite",
                     VDict [("sources",
                             VList [VDict [("cat", VDict [("terms",
                                      VDict [("field", VStr "cat")])])]]);
                            ("after", VDict [("cat", VStr "a")])])])]);
                  ("runtime_mappings", VDict [])] |},
    Ok last_page)].


(** [axes=[Axis("cat"), Axis("_query"), Axis("i")]]: one axis by query
    between two field axes, and a backend that answers the composite
    aggregation over [cat] and [i] of each of the two named queries
    with one page. *)
Definition around_query_axes : list Axis.t :=
  [Axis.init "cat" None None; Axis.init "_query" None None; Axis.init "i" None None].
Definition around_query_backend : backend :=
  scripted
    [Ok (sample_page [VDict [("key", VDict [("cat", VStr "a"); ("i", VInt 1)]);
                             ("doc_count", VInt 2)]] None);
     Ok (sample_page [VDict [("key", VDict [("cat", VStr "a"); ("i", VInt 1)]);
                             ("doc_count", VInt 1)];
                      VDict [("key", VDict [("cat", VStr "b"); ("i", VInt 7)]);
                             ("doc_count", VInt 1)]] None)].

(** Draining the pipeline for one axis over two pages. *)
Definition pipeline_outcome : result (list (list value)) * world :=
  run (scripted [Ok first_page; Ok last_page])
      (collect (_aggregate_results sample_interval_mapping sample_build_body 1000
                  (IndexStr "idx") [cat_axis] [] VNone [])) warm_world.

(* ================================================================== *)
(** ** Running programs *)

Section RunLemmas.
Variable respond : backend.

Lemma run_bind {A B} (p : prog Empty_set A) (f : A -> prog Empty_set B) (w : world) :
  run respond (bind p f) w =
  match run respond p w with
  | (Ok a, w1) => run respond (f a) w1
  | (Err e, w1) => (Err e, w1)
  end.
Proof.
  revert w; induction p as [a|e|y k IH|c k IH|i k IH|i v k IH]; intro w; simpl.
  - reflexivity.
  - reflexivity.
  - destruct y.
  - destruct (respond (calls w) c); [apply IH | reflexivity].
  - apply IH.
  - apply IH.
Qed.

Lemma run_lift {A} (r : result A) (w : world) :
  run respond (lift r) w = (r, w).
Proof. destruct r; reflexivity. Qed.

(** A run only ever appends to the record of round trips. *)
Lemma run_calls_extend {A} (p : prog Empty_set A) (w w' : world) (r : result A) :
  run respond p w = (r, w') -> exists evs, calls w' = (calls w ++ evs)%list.
Proof.
  revert w; induction p as [a|e|y k IH|c k IH|i k IH|i v k IH]; intro w; simpl.
  - intros [= <- <-]. exists []. now rewrite app_nil_r.
  - intros [= <- <-]. exists []. now rewrite app_nil_r.
  - destruct y.
  - destruct (respond (calls w) c) as [v|e] eqn:R.
    + intro H. apply IH in H. destruct H as [evs H]. simpl in H.
      exists ((c, Ok v) :: evs). rewrite H, <- app_assoc. reflexivity.
    + intros [= <- <-]. simpl. eauto.
  - apply IH.
  - intro H. apply IH in H. exact H.
Qed.

Lemma new_calls_app (w w' : world) (evs : list event) :
  calls w' = (calls w ++ evs)%list -> new_calls w w' = evs.
Proof.
  intro H. unfold new_calls. rewrite H, skipn_app, skipn_all, Nat.sub_diag.
  reflexivity.
Qed.
End RunLemmas.

(* ================================================================== *)
(** ** The failure check covers every page request *)

Lemma checked_bind {Y A B} (p : prog Y A) (f : A -> prog Y B) :
  checked p -> (forall a, checked (f a)) -> checked (bind p f).
Proof.
  intros Hp Hf. induction p as [a|e|y k IH|c k IH|i k IH|i v k IH]; simpl in *; auto.
  intro v. destruct (Hp v) as [Hk Hraise]. split; [auto|].
  intros Hc Hv. rewrite (Hraise Hc Hv). reflexivity.
Qed.

Lemma checked_lift {Y A} (r : result A) : checked (@lift Y A r).
Proof. destruct r; exact I. Qed.

Lemma checked_yield_from {Y} (l : list Y) : checked (yield_from l).
Proof. induction l; simpl; auto. Qed.

Lemma checked_for_list {X Y} (l : list X) (body : X -> prog Y unit) :
  (forall x, checked (body x)) -> checked (for_list l body).
Proof. intro H. induction l; simpl; [exact I | apply checked_bind; auto]. Qed.

Lemma checked_for_each {Y Z} (g : prog Y unit) (body : Y -> prog Z unit) :
  checked g -> (forall y, checked (body y)) -> checked (for_each g body).
Proof.
  intros Hg Hb. induction g as [a|e|y k IH|c k IH|i k IH|i v k IH]; simpl in *; auto.
  - apply checked_bind; auto.
  - intro v. destruct (Hg v) as [Hk Hraise]. split; [auto|].
    intros Hc Hv. rewrite (Hraise Hc Hv). reflexivity.
Qed.

Lemma checked_collect {Y Z} (g : prog Y unit) : checked g -> checked (@collect Y Z g).
Proof.
  intro Hg. induction g as [a|e|y k IH|c k IH|i k IH|i v k IH]; simpl in *; auto.
  - apply checked_bind; simpl; auto.
  - intro v. destruct (Hg v) as [Hk Hraise]. split; [auto|].
    intros Hc Hv. rewrite (Hraise Hc Hv). reflexivity.
Qed.

Lemma checked_mapM {X Y B} (f : X -> prog Y B) (l : list X) :
  (forall x, checked (f x)) -> checked (mapM f l).
Proof.
  intro H. induction l; simpl; [exact I|].
  apply checked_bind; [auto|]. intro b. apply checked_bind; simpl; auto.
Qed.

Lemma checked_es_call {Y} (m : api) (kw : list (string * value)) :
  is_page_request {| method := m; kwargs := kw |} = false -> checked (@es_call Y m kw).
Proof.
  intro H. simpl. intro v. split; [exact I|]. rewrite H. discriminate.
Qed.

Ltac checked_step :=
  match goal with
  | |- checked (bind _ _) => apply checked_bind; [|intro]
  | |- checked (lift _) => apply checked_lift
  | |- checked (es_call _ _) => apply checked_es_call; reflexivity
  | |- checked (if ?b then _ else _) => destruct b
  | |- checked (Ret _) => exact I
  | |- checked (Raise _) => exact I
  | |- checked (yield _) => exact I
  | |- checked (cache_get _) => intro; exact I
  | |- checked (cache_set _ _) => exact I
  end.

Lemma checked_get_index_fields {Y} (index : string) : checked (@get_index_fields Y index).
Proof. unfold get_index_fields, _get_fields. repeat checked_step. Qed.

Lemma checked_get_fields_merge {Y} (indices : list string) (acc : list (string * value)) :
  checked (@get_fields_merge Y indices acc).
Proof.
  revert acc. induction indices as [|ix rest IH]; intro acc; cbn [get_fields_merge];
    [exact I|].
  apply checked_bind; [apply checked_get_index_fields|]. intro fields.
  apply checked_bind; [apply checked_lift|]. intro items. apply IH.
Qed.

Lemma checked_field_type {Y} (index : index_arg) (field_name : string) :
  checked (@field_type Y index field_name).
Proof.
  unfold field_type. apply checked_bind; [|intro; apply checked_lift].
  destruct index; cbn [get_fields];
    [apply checked_get_index_fields | apply checked_get_fields_merge].
Qed.

Lemma checked_BoundAxis_init {Y} (axis : Axis.t) (index : index_arg) :
  checked (@BoundAxis.init Y axis index).
Proof.
  unfold BoundAxis.init. apply checked_bind; [|intro; exact I].
  destruct (Axis.field axis =? "_query")%string; [exact I | apply checked_field_type].
Qed.

Lemma checked_BoundAggregation_init {Y} (a : Aggregation.t) (index : index_arg) :
  checked (@BoundAggregation.init Y a index).
Proof.
  unfold BoundAggregation.init.
  apply checked_bind; [apply checked_field_type | intro; exact I].
Qed.

Section CheckedEngine.
Variable interval_mapping : option string -> option DateMapping.t.
Variable build_body : value -> value -> result value.
Variable _normalize_queries : queries_arg -> list (string * string).

Lemma checked__elastic_aggregate depth index sources queries filters aggregations
      runtime_mappings after_key :
  checked (_elastic_aggregate build_body depth index sources queries filters
                              aggregations runtime_mappings after_key).
Proof.
  revert after_key. induction depth as [|depth IH]; intro after_key;
    cbn [_elastic_aggregate]; [exact I|].
  apply checked_bind; [apply checked_lift|]. intro kargs. cbn [bind checked]. intro v.
  assert (Hk : checked
    (failure <- lift (shard_failures v);;
     (if truthy failure
      then Raise (Exception "Error on running aggregate search" failure)
      else
       buckets <- lift (page_buckets v);;
       yield_from buckets;;
       after_key0 <- lift (page_after_key v);;
       (if truthy after_key0
        then
         _elastic_aggregate build_body depth index sources queries filters
           aggregations runtime_mappings after_key0
        else Ret tt)))%prog).
  { repeat first [checked_step | apply checked_yield_from | apply IH]. }
  split; [exact Hk|].
  intros _ Hv. unfold shard_failure_error. unfold reports_failures in Hv.
  destruct (shard_failures v) as [failure|e]; [|discriminate].
  simpl. rewrite Hv. reflexivity.
Qed.

Lemma checked__bare_aggregate {Y} index queries filters aggregations :
  checked (@_bare_aggregate build_body Y index queries filters aggregations).
Proof. unfold _bare_aggregate. repeat checked_step. Qed.

Lemma checked__aggregate_results depth index axes queries filters aggregations :
  checked (_aggregate_results interval_mapping build_body depth index axes queries
                              filters aggregations).
Proof.
  revert axes queries. induction depth as [|depth IH]; intros axes queries;
    cbn [_aggregate_results]; [exact I|].
  destruct (negb (nonempty axes)).
  - destruct (nonempty aggregations).
    + apply checked_bind; [apply checked__bare_aggregate|]. intro cr.
      repeat checked_step.
    + repeat checked_step.
  - destruct (existsb is_query_axis axes).
    + apply checked_for_list. intro lq. apply checked_for_each; [apply IH|].
      intro; exact I.
    + repeat checked_step.
      apply checked_for_each; [apply checked__elastic_aggregate|].
      intro bucket. repeat checked_step.
Qed.

Lemma checked_query_aggregate {Y} depth index axes aggregations queries filters :
  checked (@query_aggregate interval_mapping build_body _normalize_queries Y depth
                            index axes aggregations queries filters).
Proof.
  unfold query_aggregate. destruct (too_many_query_axes axes); [exact I|].
  unfold query_aggregate_body.
  apply checked_bind.
  { destruct axes as [[|a rest]|]; cbn [bind_axes]; try exact I.
    apply (checked_mapM _ (a :: rest)). intro. apply checked_BoundAxis_init. }
  intro _axes. apply checked_bind.
  { destruct aggregations as [[|a rest]|]; cbn [bind_aggregations]; try exact I.
    apply (checked_mapM _ (a :: rest)). intro. apply checked_BoundAggregation_init. }
  intro _aggregations. apply checked_bind; [|intro; exact I].
  apply checked_collect, checked__aggregate_results.
Qed.
End CheckedEngine.

Lemma checked_run {A} (respond : backend) (p : prog Empty_set A) (w w' : world)
      (r : result A) :
  checked p -> run respond p w = (r, w') ->
  forall c page, In (c, Ok page) (new_calls w w') ->
                 is_page_request c = true -> reports_failures page = true ->
                 r = Err (shard_failure_error page).
Proof.
  revert w. induction p as [x|e|y k IH|c0 k IH|i k IH|i v k IH];
    intros w Hp Hrun c page Hin Hc Hf; simpl in *.
  - injection Hrun as _ <-. unfold new_calls in Hin.
    rewrite skipn_all in Hin. destruct Hin.
  - injection Hrun as _ <-. unfold new_calls in Hin.
    rewrite skipn_all in Hin. destruct Hin.
  - destruct y.
  - destruct (respond (calls w) c0) as [v|e] eqn:R.
    + destruct (Hp v) as [Hk Hraise].
      destruct (run_calls_extend _ _ _ _ _ Hrun) as [evs Hevs]. simpl in Hevs.
      rewrite <- app_assoc in Hevs. simpl in Hevs.
      rewrite (new_calls_app _ _ _ Hevs) in Hin. destruct Hin as [Hhd|Htl].
      * injection Hhd as -> ->.
        rewrite (Hraise Hc Hf) in Hrun. simpl in Hrun. now injection Hrun as <- _.
      * apply (IH v _ Hk Hrun c page); [|exact Hc|exact Hf].
        erewrite new_calls_app; [exact Htl|]. simpl. rewrite <- app_assoc. exact Hevs.
    + injection Hrun as _ <-. unfold new_calls in Hin. simpl in Hin.
      rewrite skipn_app, skipn_all, Nat.sub_diag in Hin. simpl in Hin.
      destruct Hin as [Hhd|[]]. discriminate.
  - apply (IH _ w (Hp _) Hrun c page Hin Hc Hf).
  - apply (IH _ Hp Hrun c page); [|exact Hc|exact Hf]. exact Hin.
Qed.

(* ================================================================== *)
(** ** What a generator can yield *)

Lemma yields_all_bind {Y A B} (P : Y -> Prop) (p : prog Y A) (f : A -> prog Y B) :
  yields_all P p -> (forall a, yields_all P (f a)) -> yields_all P (bind p f).
Proof.
  intros Hp Hf. induction p as [a|e|y k IH|c k IH|i k IH|i v k IH]; simpl in *; auto.
  destruct Hp. split; auto.
Qed.

Lemma yields_all_bind_lift {Y A B} (P : Y -> Prop) (r : result A) (f : A -> prog Y B) :
  (forall a, r = Ok a -> yields_all P (f a)) -> yields_all P (bind (lift r) f).
Proof. intro H. destruct r; simpl; auto. Qed.

Lemma yields_all_for_list {X Y} (P : Y -> Prop) (l : list X) (body : X -> prog Y unit) :
  (forall x, yields_all P (body x)) -> yields_all P (for_list l body).
Proof. intro H. induction l; simpl; [exact I | apply yields_all_bind; auto]. Qed.

Lemma yields_all_for_each {Y Z} (Q : Y -> Prop) (P : Z -> Prop) (g : prog Y unit)
      (body : Y -> prog Z unit) :
  yields_all Q g -> (forall y, Q y -> yields_all P (body y)) ->
  yields_all P (for_each g body).
Proof.
  intros Hg Hb. induction g as [a|e|y k IH|c k IH|i k IH|i v k IH]; simpl in *; auto.
  destruct Hg. apply yields_all_bind; auto.
Qed.

Lemma yields_all_mapM {X Y B} (P : Y -> Prop) (f : X -> prog Y B) (l : list X) :
  (forall x, yields_all P (f x)) -> yields_all P (mapM f l).
Proof.
  intro H. induction l; simpl; [exact I|].
  apply yields_all_bind; [auto|]. intro b. apply yields_all_bind; simpl; auto.
Qed.

Lemma collect_yields {Y} (respond : backend) (P : Y -> Prop) (g : prog Y unit)
      (w w' : world) (l : list Y) :
  yields_all P g -> run respond (collect g) w = (Ok l, w') -> Forall P l.
Proof.
  revert w l. induction g as [a|e|y k IH|c k IH|i k IH|i v k IH]; intros w l Hg Hrun;
    simpl in *.
  - injection Hrun as <- _. constructor.
  - discriminate.
  - rewrite run_bind in Hrun.
    destruct (run respond (collect k) w) as [[l1|e] w1] eqn:R; [|discriminate].
    simpl in Hrun. injection Hrun as <- <-. destruct Hg. constructor; eauto.
  - destruct (respond (calls w) c); [eauto | discriminate].
  - eauto.
  - eauto.
Qed.

Lemma rmapM_length {A B} (f : A -> result B) (l : list A) (bs : list B) :
  rmapM f l = Ok bs -> List.length bs = List.length l.
Proof.
  revert bs. induction l as [|a l IH]; intros bs; simpl.
  - intros [= <-]. reflexivity.
  - destruct (f a); [|discriminate]. simpl.
    destruct (rmapM f l); [|discriminate]. simpl.
    intros [= <-]. simpl. f_equal. apply IH. reflexivity.
Qed.

Lemma run_mapM_length {X B} (respond : backend) (f : X -> prog Empty_set B) (l : list X)
      (w w' : world) (bs : list B) :
  run respond (mapM f l) w = (Ok bs, w') -> List.length bs = List.length l.
Proof.
  revert w w' bs. induction l as [|x l IH]; intros w w' bs; simpl.
  - intros [= <- _]. reflexivity.
  - rewrite run_bind. destruct (run respond (f x) w) as [[b|e] w1]; [|discriminate].
    rewrite run_bind. destruct (run respond (mapM f l) w1) as [[bs1|e] w2] eqn:R;
      [|discriminate].
    simpl. intros [= <- _]. simpl. f_equal. eapply IH. exact R.
Qed.

Lemma insert_label_length (i : nat) (label : string) (row : list value) :
  List.length (insert_label i label row) = S (List.length row).
Proof.
  unfold insert_label. rewrite length_app. simpl.
  rewrite <- (firstn_skipn i row) at 3. rewrite length_app. lia.
Qed.

Lemma index_of_lt (x : string) (l : list string) :
  existsb (String.eqb x) l = true -> (index_of x l < List.length l)%nat.
Proof.
  induction l as [|y l IH]; simpl; [discriminate|].
  rewrite (String.eqb_sym y x). destruct (x =? y)%string; simpl; [lia|].
  intro H. apply IH in H. lia.
Qed.

Lemma existsb_is_query_axis (axes : list BoundAxis.t) :
  existsb is_query_axis axes = existsb (String.eqb "_query") (map BoundAxis.field axes).
Proof.
  induction axes as [|a l IH]; simpl; [reflexivity|].
  rewrite IH. unfold is_query_axis. now rewrite (String.eqb_sym (BoundAxis.field a)).
Qed.

Lemma without_nth_length {X} (i : nat) (l : list X) :
  (i < List.length l)%nat -> S (List.length (without_nth i l)) = List.length l.
Proof.
  intro H. unfold without_nth. rewrite length_app, length_firstn, length_skipn. lia.
Qed.

Section RowWidth.
Variable interval_mapping : option string -> option DateMapping.t.
Variable build_body : value -> value -> result value.
Variable _normalize_queries : queries_arg -> list (string * string).

Lemma bucket_row_length axes aggregations bucket row :
  bucket_row interval_mapping axes aggregations bucket = Ok row ->
  List.length row = (List.length axes + 1 + List.length aggregations)%nat.
Proof.
  unfold bucket_row.
  destruct (rmapM _ axes) as [cells|e] eqn:Hcells; [|discriminate]. simpl.
  apply rmapM_length in Hcells.
  destruct (py_getitem bucket "doc_count") as [n|e]; [|discriminate]. simpl.
  destruct aggregations as [|a rest]; simpl nonempty; cbv iota.
  - intros [= <-]. rewrite length_app. simpl. lia.
  - destruct (rmapM _ (a :: rest)) as [vals|e] eqn:Hvals; [|discriminate]. simpl.
    apply rmapM_length in Hvals. intros [= <-].
    rewrite !length_app, Hvals. simpl. lia.
Qed.

Lemma no_yield__bare_aggregate {Y} (P : Y -> Prop) index queries filters aggregations :
  yields_all P (@_bare_aggregate build_body Y index queries filters aggregations).
Proof.
  unfold _bare_aggregate.
  apply yields_all_bind_lift; intros query _.
  apply yields_all_bind_lift; intros q _. simpl. intro aresult. intro cresult.
  apply yields_all_bind_lift; intros n _.
  apply yields_all_bind_lift; intros a _. exact I.
Qed.

(** Every row the pipeline can yield has one cell per axis, the
    count, and one cell per aggregation. *)
Lemma _aggregate_results_width depth index axes queries filters aggregations :
  yields_all (fun row => List.length row =
                         (List.length axes + 1 + List.length aggregations)%nat)
             (_aggregate_results interval_mapping build_body depth index axes queries
                                 filters aggregations).
Proof.
  revert axes queries. induction depth as [|depth IH]; intros axes queries;
    cbn [_aggregate_results]; [exact I|].
  destruct axes as [|ax axes']; cbn [nonempty negb].
  - destruct aggregations as [|a rest]; cbn [nonempty].
    + apply yields_all_bind_lift; intros body _. simpl. intro result.
      apply yields_all_bind_lift; intros n _. simpl. auto.
    + apply yields_all_bind; [apply no_yield__bare_aggregate|]. intro cr.
      apply yields_all_bind_lift; intros vals Hvals. apply rmapM_length in Hvals.
      simpl. rewrite Hvals. auto.
  - destruct (existsb is_query_axis (ax :: axes')) eqn:Hq.
    + apply yields_all_for_list. intro lq.
      eapply yields_all_for_each; [apply IH|].
      intros row Hrow. simpl. split; [|exact I].
      rewrite insert_label_length, Hrow.
      rewrite existsb_is_query_axis in Hq. apply index_of_lt in Hq.
      rewrite length_map in Hq. apply without_nth_length in Hq.
      simpl in *. lia.
    + apply yields_all_bind_lift; intros sources _.
      apply yields_all_bind_lift; intros runtime_mappings _.
      eapply yields_all_for_each with (Q := fun _ => True).
      * generalize (@VNone) as after_key. generalize depth as d.
        induction d as [|d IHd]; intro after_key; cbn [_elastic_aggregate]; [exact I|].
        apply yields_all_bind_lift; intros kargs _. simpl. intro v.
        apply yields_all_bind_lift; intros failure _.
        destruct (truthy failure); [exact I|].
        apply yields_all_bind_lift; intros buckets _.
        apply yields_all_bind.
        { clear. induction buckets; simpl; auto. }
        intros _. apply yields_all_bind_lift; intros after_key' _.
        destruct (truthy after_key'); [apply IHd | exact I].
      * intros bucket _. apply yields_all_bind_lift; intros row Hrow.
        apply bucket_row_length in Hrow. simpl. auto.
Qed.
End RowWidth.

(* ================================================================== *)
(** ** Draining composed generators *)

Section Collect.
Variable respond : backend.

(** [list] of one generator followed by another. *)
Lemma collect_bind {Y} (g : prog Y unit) (f : unit -> prog Y unit) (w : world) :
  run respond (collect (bind g f)) w =
  match run respond (collect g) w with
  | (Ok l1, w1) =>
      match run respond (collect (f tt)) w1 with
      | (Ok l2, w2) => (Ok (l1 ++ l2)%list, w2)
      | (Err e, w2) => (Err e, w2)
      end
  | (Err e, w1) => (Err e, w1)
  end.
Proof.
  revert w. induction g as [a|e|y k IH|c k IH|i k IH|i v k IH]; intro w; simpl.
  - destruct a. destruct (run respond (collect (f tt)) w) as [[l2|e] w2]; reflexivity.
  - reflexivity.
  - rewrite !run_bind, IH.
    destruct (run respond (collect k) w) as [[l1|e] w1]; [|reflexivity]. simpl.
    destruct (run respond (collect (f tt)) w1) as [[l2|e] w2]; reflexivity.
  - destruct (respond (calls w) c); [apply IH | reflexivity].
  - apply IH.
  - apply IH.
Qed.

(** [list] of a loop that yields [h y] for every [y] of [g]. *)
Lemma collect_for_each_yield {Y Z} (g : prog Y unit) (h : Y -> Z) (w : world) :
  run respond (collect (for_each g (fun y => yield (h y)))) w =
  match run respond (collect g) w with
  | (Ok l, w1) => (Ok (map h l), w1)
  | (Err e, w1) => (Err e, w1)
  end.
Proof.
  revert w. induction g as [a|e|y k IH|c k IH|i k IH|i v k IH]; intro w; simpl.
  - reflexivity.
  - reflexivity.
  - rewrite !run_bind, IH.
    destruct (run respond (collect k) w) as [[l1|e] w1]; reflexivity.
  - destruct (respond (calls w) c); [apply IH | reflexivity].
  - apply IH.
  - apply IH.
Qed.
End Collect.

Lemma index_of_unique (x : string) (l : list string) (i : nat) :
  nth_error l i = Some x -> count_occ string_dec l x = 1%nat -> index_of x l = i.
Proof.
  revert i. induction l as [|y l IH]; intros i Hnth Hcount.
  - destruct i; discriminate.
  - simpl in *. destruct (String.eqb_spec y x) as [->|Hne].
    + destruct (string_dec x x) as [_|Hxx]; [|contradiction].
      destruct i as [|j]; [reflexivity|]. simpl in Hnth.
      apply nth_error_In in Hnth. apply (count_occ_In string_dec) in Hnth. lia.
    + destruct (string_dec y x) as [Hyx|_]; [contradiction|].
      destruct i as [|j]; simpl in Hnth; [congruence|]. f_equal. auto.
Qed.

Lemma nth_error_existsb (x : string) (l : list string) (i : nat) :
  nth_error l i = Some x -> existsb (String.eqb x) l = true.
Proof.
  intro H. apply nth_error_In in H. apply existsb_exists. exists x.
  split; [exact H | apply String.eqb_refl].
Qed.

Lemma run_BoundAxis_init (respond : backend) (axis : Axis.t) (index : index_arg)
      (w w' : world) (b : BoundAxis.t) :
  run respond (BoundAxis.init axis index) w = (Ok b, w') -> BoundAxis.axis b = axis.
Proof.
  unfold BoundAxis.init. rewrite run_bind.
  destruct (run respond _ w) as [[ftype|e] w1]; [|discriminate].
  simpl. intros [= <- _]. reflexivity.
Qed.

Lemma run_bind_axes_fields (respond : backend) (index : index_arg) (l : list Axis.t)
      (w w' : world) (baxes : list BoundAxis.t) :
  run respond (bind_axes index (Some l)) w = (Ok baxes, w') ->
  map BoundAxis.field baxes = map Axis.field l.
Proof.
  assert (H : forall l w w' baxes,
             run respond (mapM (fun axis => BoundAxis.init axis index) l) w = (Ok baxes, w') ->
             map BoundAxis.field baxes = map Axis.field l).
  { clear. induction l as [|a l IH]; intros w w' baxes; cbn [mapM].
    - intros [= <- _]. reflexivity.
    - rewrite run_bind.
      destruct (run respond (BoundAxis.init a index) w) as [[b|e] w1] eqn:Hb;
        [|discriminate].
      apply run_BoundAxis_init in Hb. rewrite run_bind.
      destruct (run respond (mapM _ l) w1) as [[bs|e] w2] eqn:R; [|discriminate].
      simpl. intros [= <- _]. simpl. unfold BoundAxis.field at 1. rewrite Hb.
      f_equal. eapply IH. exact R. }
  destruct l as [|a l]; cbn [bind_axes].
  - intros [= <- _]. reflexivity.
  - apply H.
Qed.

Section FanOut.
Variable respond : backend.
Variable interval_mapping : option string -> option DateMapping.t.
Variable build_body : value -> value -> result value.

(** The [_query] branch of [_aggregate_results] is the fan-out over
    the named queries. *)
Lemma _aggregate_results_by_query depth index axes queries filters aggregations w :
  existsb is_query_axis axes = true ->
  run respond (collect (_aggregate_results interval_mapping build_body (S depth) index
                                           axes queries filters aggregations)) w =
  run respond (rows_per_label interval_mapping build_body depth index
                 (index_of "_query" (map BoundAxis.field axes))
                 (without_nth (index_of "_query" (map BoundAxis.field axes)) axes)
                 queries filters aggregations) w.
Proof.
  intro Hq. cbn [_aggregate_results].
  destruct axes as [|ax axes']; [discriminate|]. cbn [nonempty negb]. rewrite Hq.
  set (i := index_of "_query" (map BoundAxis.field (ax :: axes'))).
  set (reduced := without_nth i (ax :: axes')).
  clearbody i reduced. clear Hq.
  revert w. induction queries as [|lq rest IH]; intro w; [reflexivity|].
  cbn [for_list rows_per_label].
  rewrite collect_bind, collect_for_each_yield, !run_bind.
  destruct (run respond (collect _) w) as [[rows|e] w1]; [|reflexivity].
  rewrite IH, run_bind.
  destruct (run respond (rows_per_label _ _ _ _ _ _ rest _ _) w1) as [[more|e] w2];
    reflexivity.
Qed.
End FanOut.

(* ================================================================== *)
(** ** Pagination *)

Lemma collect_yield_from {Y} (respond : backend) (l : list Y) (w : world) :
  run respond (collect (yield_from l)) w = (Ok l, w).
Proof.
  induction l as [|y l IH]; simpl; [reflexivity|]. now rewrite run_bind, IH.
Qed.

Lemma page_buckets_after_key (response : value) (buckets : list value) :
  page_buckets response = Ok buckets -> exists k, page_after_key response = Ok k.
Proof.
  unfold page_buckets, page_after_key.
  destruct (py_getitem response "aggregations") as [a|e]; [|discriminate]. simpl.
  destruct (py_getitem a "aggs") as [aggs|e]; [|discriminate]. simpl.
  destruct aggs; try discriminate. intros _. simpl.
  destruct (dict_get "after_key" entries); eauto.
Qed.

Lemma sound_page_inv (response : value) :
  sound_page response = true ->
  exists failure k,
    shard_failures response = Ok failure /\ truthy failure = false /\
    page_buckets response = Ok (buckets_of response) /\
    page_after_key response = Ok k /\ cursor_of response = k /\
    has_after_key response = truthy k.
Proof.
  unfold sound_page, reports_failures, buckets_of, cursor_of, has_after_key.
  destruct (shard_failures response) as [failure|e]; [|rewrite andb_false_r; discriminate].
  destruct (page_buckets response) as [buckets|e] eqn:Hb;
    [|rewrite andb_false_r; discriminate].
  destruct (page_buckets_after_key _ _ Hb) as [k Hk]. rewrite Hk.
  rewrite andb_true_r. intro Hf. apply negb_true_iff in Hf.
  exists failure, k. repeat split; auto.
Qed.

(** The requests of the pagination engine are page requests; the
    [search] of [_bare_aggregate] is not. *)
Lemma page_request_is_page_request index sources aggregations runtime_mappings kargs
      after_key :
  is_page_request (page_request index sources aggregations runtime_mappings kargs
                                after_key) = true.
Proof. reflexivity. Qed.

Section Pagination.
Variable respond : backend.
Variable build_body : value -> value -> result value.

Lemma _elastic_aggregate_pages index sources queries filters aggregations
      runtime_mappings kargs pages :
  query_kargs build_body queries filters = Ok kargs ->
  forall depth after_key w,
    page_sequence pages = true ->
    serves respond (calls w)
           (page_events (page_request index sources aggregations runtime_mappings kargs)
                        after_key pages) ->
    (List.length pages <= depth)%nat ->
    run respond (collect (_elastic_aggregate build_body depth index sources queries
                            filters aggregations runtime_mappings after_key)) w =
    (Ok (flat_map buckets_of pages),
     {| FIELD_CACHE := FIELD_CACHE w;
        calls := calls w ++
                 page_events (page_request index sources aggregations runtime_mappings
                                           kargs) after_key pages |}).
Proof.
  intro Hkargs. induction pages as [|p rest IH]; intros depth after_key w Hseq Hserves Hlen.
  - discriminate.
  - destruct depth as [|depth]; [simpl in Hlen; lia|].
    cbn [_elastic_aggregate]. rewrite Hkargs. cbn [lift bind collect run].
    cbn [page_events serves fst snd] in Hserves. destruct Hserves as [Hp Hserves].
    rewrite Hp.
    assert (Hsound : sound_page p = true).
    { destruct rest; cbn [page_sequence] in Hseq;
        destruct (sound_page p); [reflexivity | discriminate | reflexivity | discriminate]. }
    destruct (sound_page_inv _ Hsound) as (failure & k & Hfail & Hfalsy & Hb & Hk & Hcur & Hhas).
    rewrite Hfail. cbn [lift bind]. rewrite Hfalsy, Hb. cbn [lift bind].
    rewrite collect_bind, collect_yield_from. cbn [calls FIELD_CACHE].
    rewrite Hk. cbn [lift bind]. rewrite Hcur in *.
    destruct rest as [|p2 rest'].
    + cbn [page_sequence] in Hseq. apply andb_true_iff in Hseq. destruct Hseq as [_ Hlast].
      rewrite Hhas in Hlast. apply negb_true_iff in Hlast. rewrite Hlast.
      cbn. rewrite !app_nil_r. reflexivity.
    + assert (Hmore : truthy k = true /\ page_sequence (p2 :: rest') = true).
      { cbn [page_sequence] in Hseq. rewrite Hhas in Hseq.
        apply andb_true_iff in Hseq. destruct Hseq as [Hseq ?].
        apply andb_true_iff in Hseq. destruct Hseq as [_ ?]. split; assumption. }
      destruct Hmore as [Htruthy Hseq']. rewrite Htruthy.
      rewrite (IH depth k {| FIELD_CACHE := FIELD_CACHE w;
                             calls := calls w ++ [(page_request index sources aggregations
                                                     runtime_mappings kargs after_key,
                                                   Ok p)] |} Hseq' Hserves);
        [|simpl in *; lia].
      cbn [calls FIELD_CACHE flat_map page_events]. rewrite ?Hcur, <- app_assoc.
      reflexivity.
Qed.
End Pagination.

(** *** The engine against the wording of section 4.3 *)

Lemma page_request_composite index sources aggregations runtime_mappings clause after_key :
  page_request index sources aggregations runtime_mappings clause after_key =
  composite_request index sources (metrics_block aggregations) runtime_mappings clause
                    (as_cursor after_key).
Proof.
  unfold page_request, composite_request, composite_body, as_cursor, metrics_block.
  destruct index, (truthy after_key), aggregations; reflexivity.
Qed.

Lemma query_clause_kargs build_body queries filters clause :
  query_clause build_body queries filters clause ->
  query_kargs build_body queries filters = Ok clause.
Proof.
  unfold query_clause, query_kargs, queries_values.
  destruct (truthy filters || nonempty queries).
  - intros (body & q & -> & Hq & ->). cbn [rbind]. rewrite Hq. reflexivity.
  - intros ->. reflexivity.
Qed.

Lemma readable_page_sound (p : value) :
  readable_page p = true ->
  sound_page p = true /\
  listed_buckets p = Some (buckets_of p) /\
  as_cursor (cursor_of p) = continuation p /\
  has_after_key p = match continuation p with Some _ => true | None => false end.
Proof.
  unfold readable_page, clean_page, listed_buckets, continuation, composite_result,
    sound_page, reports_failures, shard_failures, buckets_of, cursor_of, has_after_key,
    page_buckets, page_after_key, as_cursor.
  destruct p as [| | | | | |entries| |]; try discriminate.
  cbn [py_get py_getitem rbind].
  destruct (dict_get "aggregations" entries) as [[| | | | | |aggregations| |]|];
    try (rewrite andb_false_r; discriminate).
  cbn [py_get py_getitem rbind].
  destruct (dict_get "aggs" aggregations) as [[| | | | | |aggs| |]|];
    try (rewrite andb_false_r; discriminate).
  cbn [py_get py_getitem rbind].
  destruct (dict_get "buckets" aggs) as [[| | | | |buckets| | |]|];
    try (rewrite andb_false_r; discriminate).
  cbn [py_iter]. rewrite andb_true_r.
  assert (Hkey : forall A (f : value -> A),
             match match dict_get "after_key" aggs with
                   | Some x => Ok x
                   | None => Ok VNone
                   end with
             | Ok k => f k
             | Err _ => f VNone
             end = f match dict_get "after_key" aggs with Some x => x | None => VNone end).
  { intros A f. destruct (dict_get "after_key" aggs); reflexivity. }
  intro Hclean.
  assert (Hsound : negb match match dict_get "_shards" entries with
                              | Some x => @Ok value x
                              | None => Ok (VDict [])
                              end with
                        | Ok shards =>
                            match py_get shards "failures" VNone with
                            | Ok failure => truthy failure
                            | Err _ => false
                            end
                        | Err _ => false
                        end = true /\
                   exists failure,
                     match dict_get "_shards" entries with
                     | Some x => py_get x "failures" VNone
                     | None => py_get (VDict []) "failures" VNone
                     end = Ok failure).
  { destruct (dict_get "_shards" entries) as [[| | | | | |shards| |]|]; try discriminate.
    - cbn [py_get]. destruct (dict_get "failures" shards) as [failures|].
      + split; [exact Hclean | eauto].
      + split; [reflexivity | eauto].
    - split; [reflexivity | cbn; eauto]. }
  destruct Hsound as [Hneg [failure Hfail]].
  repeat split.
  - destruct (dict_get "_shards" entries) as [shards|]; cbn [rbind] in *.
    + destruct (py_get shards "failures" VNone) as [f|e]; [|discriminate].
      rewrite Hneg. reflexivity.
    + reflexivity.
  - destruct (dict_get "after_key" aggs) as [k|]; reflexivity.
  - destruct (dict_get "after_key" aggs) as [k|]; [|reflexivity].
    destruct (truthy k); reflexivity.
Qed.

Lemma paged_page_sequence (pages : list value) :
  paged pages = true ->
  page_sequence pages = true /\ flat_map buckets_of pages = all_buckets pages.
Proof.
  unfold all_buckets. induction pages as [|p rest IH]; [discriminate|].
  intro Hp.
  assert (Hr : readable_page p = true).
  { destruct rest; cbn [paged] in Hp; destruct (readable_page p);
      [reflexivity | discriminate | reflexivity | discriminate]. }
  destruct (readable_page_sound p Hr) as (Hsound & Hb & _ & Hhas).
  cbn [flat_map]. rewrite Hb.
  destruct rest as [|p2 rest'].
  - cbn [paged page_sequence] in *. rewrite Hr, Hsound, Hhas in *. cbn [andb] in *.
    split; [|reflexivity]. destruct (continuation p); [discriminate | reflexivity].
  - cbn [paged] in Hp. rewrite Hr in Hp. cbn [andb] in Hp.
    destruct (continuation p) eqn:Hc; [|discriminate]. cbn [andb] in Hp.
    destruct (IH Hp) as [Hseq Hflat].
    split.
    + change (page_sequence (p :: p2 :: rest'))
        with (sound_page p && has_after_key p && page_sequence (p2 :: rest')).
      rewrite Hsound, Hhas, Hseq. reflexivity.
    + rewrite Hflat. reflexivity.
Qed.

Lemma paged_exchange index sources aggregations runtime_mappings clause
      (pages : list value) (after_key : value) :
  forallb readable_page pages = true ->
  page_events (page_request index sources aggregations runtime_mappings clause)
              after_key pages =
  exchange (composite_request index sources (metrics_block aggregations) runtime_mappings
                              clause)
           (as_cursor after_key) pages.
Proof.
  revert after_key. induction pages as [|p rest IH]; intros after_key Hr; [reflexivity|].
  cbn [forallb] in Hr. apply andb_true_iff in Hr. destruct Hr as [Hp Hrest].
  destruct (readable_page_sound p Hp) as (_ & _ & Hc & _).
  cbn [page_events exchange]. rewrite page_request_composite, (IH _ Hrest), Hc.
  reflexivity.
Qed.

Lemma paged_readable (pages : list value) :
  paged pages = true -> forallb readable_page pages = true.
Proof.
  induction pages as [|p rest IH]; [reflexivity|]. intro Hp.
  destruct rest as [|p2 rest'].
  - cbn [paged forallb] in *. destruct (readable_page p); [reflexivity | discriminate].
  - cbn [paged] in Hp. cbn [forallb]. destruct (readable_page p); [|discriminate].
    destruct (continuation p); [|discriminate]. cbn [andb] in *. apply IH, Hp.
Qed.

Section Exhaustion.
Variable respond : backend.
Variable build_body : value -> value -> result value.

End Exhaustion.

(* ================================================================== *)
(** ** Decoding dates *)

Lemma py_eqb_str (v : value) (s : string) : py_eqb v (VStr s) = true <-> v = VStr s.
Proof.
  destruct v; simpl; try (split; [discriminate | intros [=]]).
  split; [intro H; apply String.eqb_eq in H; now subst | intros [= ->]; apply String.eqb_refl].
Qed.

(** *** Rounding to the nearest double *)

Lemma round_half_even_near (q : Q) :
  (inject_Z (round_half_even q) - (1 # 2) <= q <= inject_Z (round_half_even q) + (1 # 2))%Q.
Proof.
  destruct q as [n d]. unfold round_half_even. cbn [Qnum Qden].
  pose proof (Z.div_mod n (Zpos d) ltac:(lia)) as Hdm.
  pose proof (Z.mod_pos_bound n (Zpos d) ltac:(lia)) as Hb.
  set (fl := n / Zpos d) in *. set (r := n mod Zpos d) in *.
  unfold Qle, Qminus, Qplus, Qopp, inject_Z. cbn [Qnum Qden].
  destruct (Z.ltb_spec (2 * r) (Zpos d)); [|destruct (Z.ltb_spec (Zpos d) (2 * r));
    [|destruct (Z.even fl)]]; rewrite ?Pos2Z.inj_mul; nia.
Qed.

Lemma round_half_even_unique (q : Q) (z : Z) :
  (inject_Z z - (1 # 2) < q < inject_Z z + (1 # 2))%Q -> round_half_even q = z.
Proof.
  intros [Hlo Hhi]. pose proof (round_half_even_near q) as [Hl Hh].
  set (m := round_half_even q) in *.
  assert (H1 : (inject_Z m < inject_Z z + 1)%Q) by lra.
  assert (H2 : (inject_Z z < inject_Z m + 1)%Q) by lra.
  change 1%Q with (inject_Z 1) in H1, H2. rewrite <- inject_Z_plus in H1, H2.
  rewrite <- Zlt_Qlt in H1, H2. lia.
Qed.

Lemma round_half_even_Z (q : Q) (z : Z) : q == inject_Z z -> round_half_even q = z.
Proof. intro H. apply round_half_even_unique. lra. Qed.

Lemma pow2_pos (e : Z) : (0 < 2 ^ e)%Q.
Proof. apply Qpower_0_lt. reflexivity. Qed.

Lemma pow2_Z (e : Z) : 0 <= e -> (2 ^ e == inject_Z (2 ^ e))%Q.
Proof. intro H. now rewrite Zpower_Qpower. Qed.

Lemma pow2_le (a b : Z) : a <= b -> (2 ^ a <= 2 ^ b)%Q.
Proof. intro H. apply Qpower_le_compat_l; [exact H | discriminate]. Qed.

Lemma pow2_lt_inv (a b : Z) : (2 ^ a < 2 ^ b)%Q -> a < b.
Proof. intro H. eapply Qpower_lt_compat_l_inv; [exact H | reflexivity]. Qed.

Lemma pow2_le_inv (a b : Z) : (2 ^ a <= 2 ^ b)%Q -> a <= b.
Proof. intro H. eapply Qpower_le_compat_l_inv; [exact H | reflexivity]. Qed.

Lemma pow2_succ (e : Z) : (2 ^ (e + 1) == 2 * 2 ^ e)%Q.
Proof. rewrite Qpower_plus by discriminate. change (2 ^ 1)%Q with 2%Q. ring. Qed.

(** [binade q] is at most the binary logarithm of [|q|]. *)
Lemma binade_le (q : Q) : ~ q == 0 -> (2 ^ binade q <= Qabs q)%Q.
Proof.
  intro Hnz. unfold binade.
  set (c := Z.log2 (Z.abs (Qnum q)) - Z.log2 (Zpos (Qden q))).
  destruct (Qle_bool (2 ^ c) (Qabs q)) eqn:Ht; [now apply Qle_bool_iff|].
  destruct q as [n d]. cbn [Qnum Qden Qabs] in *.
  assert (Hn : 0 < Z.abs n).
  { destruct n; try (simpl; lia). exfalso. apply Hnz. reflexivity. }
  pose proof (Z.log2_spec (Z.abs n) Hn) as [Ha _].
  pose proof (Z.log2_spec (Zpos d) ltac:(lia)) as [_ Hd].
  pose proof (Z.log2_nonneg (Z.abs n)) as Hna.
  pose proof (Z.log2_nonneg (Zpos d)) as Hnd.
  set (a := Z.log2 (Z.abs n)) in *. set (b := Z.log2 (Zpos d)) in *.
  replace (c - 1) with (a - Z.succ b) by (unfold c; lia).
  rewrite Qpower_minus by discriminate.
  rewrite !pow2_Z by lia.
  apply Qle_shift_div_r.
  - rewrite <- (pow2_Z (Z.succ b)) by lia. apply pow2_pos.
  - rewrite (Qmake_Qdiv (Z.abs n) d).
    unfold Qdiv. rewrite <- Qmult_assoc, (Qmult_comm (/ _)), Qmult_assoc.
    apply Qle_shift_div_l; [reflexivity|].
    rewrite <- !inject_Z_mult, <- Zle_Qle. nia.
Qed.

Lemma to_double_zero (q : Q) : q == 0 -> to_double q = 0%Q.
Proof. intro H. unfold to_double. now rewrite (proj2 (Qeq_bool_iff q 0) H). Qed.

Lemma to_double_nonzero (q : Q) :
  ~ q == 0 ->
  to_double q = (inject_Z (round_half_even (q / 2 ^ quantum q)) * 2 ^ quantum q)%Q.
Proof.
  intro H. unfold to_double. destruct (Qeq_bool q 0) eqn:E; [|reflexivity].
  apply Qeq_bool_iff in E. contradiction.
Qed.

(** The rounding error is at most half a quantum. *)
Lemma to_double_near (q : Q) :
  ~ q == 0 ->
  (q - 2 ^ quantum q * (1 # 2) <= to_double q <= q + 2 ^ quantum q * (1 # 2))%Q.
Proof.
  intro Hnz. rewrite (to_double_nonzero q Hnz).
  pose proof (pow2_pos (quantum q)) as HP. set (P := (2 ^ quantum q)%Q) in *.
  pose proof (round_half_even_near (q / P)) as [Hlo Hhi].
  set (m := inject_Z (round_half_even (q / P))) in *.
  assert (Hq : q == q / P * P) by (field; lra).
  split.
  - assert (H : ((q / P - (1 # 2)) * P <= m * P)%Q) by (apply Qmult_le_compat_r; lra).
    lra.
  - assert (H : (m * P <= (q / P + (1 # 2)) * P)%Q) by (apply Qmult_le_compat_r; lra).
    lra.
Qed.

(** Below [2^k] the rounding error is at most [2^(k-54)]. *)
Lemma to_double_error (q : Q) (k : Z) :
  -1021 <= k -> (- 2 ^ k < q < 2 ^ k)%Q ->
  (q - 2 ^ (k - 54) <= to_double q <= q + 2 ^ (k - 54))%Q.
Proof.
  intros Hk Hq. pose proof (pow2_pos (k - 54)) as Hpos.
  destruct (Qeq_dec q 0) as [Hz|Hnz].
  - rewrite (to_double_zero q Hz). lra.
  - pose proof (to_double_near q Hnz) as Hnear.
    pose proof (binade_le q Hnz) as Hb.
    assert (Hlt : (2 ^ binade q < 2 ^ k)%Q).
    { eapply Qle_lt_trans; [exact Hb|]. apply Qabs_Qlt_condition. exact Hq. }
    apply pow2_lt_inv in Hlt.
    assert (He : quantum q <= k - 54 + 1) by (unfold quantum; lia).
    apply pow2_le in He. rewrite pow2_succ in He. lra.
Qed.

(** Integers up to [2^53] in magnitude are doubles. *)
Lemma to_double_exact (q : Q) (z : Z) :
  q == inject_Z z -> Z.abs z <= 2 ^ 53 -> to_double q == inject_Z z.
Proof.
  intros Hq Hz. destruct (Z.eq_dec z 0) as [->|Hnz].
  - now rewrite (to_double_zero q Hq).
  - assert (Hq0 : ~ q == 0).
    { rewrite Hq. intro H. apply (inject_Z_injective z 0) in H. contradiction. }
    rewrite (to_double_nonzero q Hq0).
    pose proof (binade_le q Hq0) as Hb.
    assert (Habs : Qabs q == inject_Z (Z.abs z)) by (now rewrite Hq).
    rewrite Habs in Hb.
    assert (Hle : (2 ^ binade q <= 2 ^ 53)%Q).
    { eapply Qle_trans; [exact Hb|]. rewrite (pow2_Z 53) by lia.
      rewrite <- Zle_Qle. exact Hz. }
    apply pow2_le_inv in Hle.
    assert (He : quantum q <= 1) by (unfold quantum; lia).
    destruct (Z_le_gt_dec (quantum q) 0) as [He0|He1].
    + set (e := quantum q) in *.
      assert (HP : (2 ^ e == / inject_Z (2 ^ (- e)))%Q).
      { rewrite <- (pow2_Z (- e)) by lia. rewrite Qpower_opp, Qinv_involutive. reflexivity. }
      assert (HE : 0 < 2 ^ (- e)) by (apply Z.pow_pos_nonneg; lia).
      assert (HEq : (0 < inject_Z (2 ^ (- e)))%Q).
      { change 0%Q with (inject_Z 0). now rewrite <- Zlt_Qlt. }
      assert (Hx : q / 2 ^ e == inject_Z (z * 2 ^ (- e))).
      { rewrite HP, Hq, inject_Z_mult. field. lra. }
      rewrite (round_half_even_Z _ _ Hx), HP, inject_Z_mult. field. lra.
    + assert (He1' : quantum q = 1) by lia.
      assert (Hb53 : binade q = 53) by (unfold quantum in He1'; lia).
      rewrite Hb53, (pow2_Z 53) in Hb by lia. rewrite <- Zle_Qle in Hb.
      rewrite He1'. change (2 ^ 1)%Q with 2%Q.
      assert (Hhalf : z = 2 * (z / 2)).
      { assert (H53 : 2 ^ 53 = 9007199254740992) by reflexivity.
        destruct (Z.abs_eq_or_opp z) as [A|A]; rewrite A in *.
        - replace z with 9007199254740992 by lia. reflexivity.
        - replace z with (-9007199254740992) by lia. reflexivity. }
      assert (Hx : q / 2 == inject_Z (z / 2)).
      { rewrite Hq. rewrite Hhalf at 1. rewrite inject_Z_mult.
        change (inject_Z 2) with 2%Q. field. }
      rewrite (round_half_even_Z _ _ Hx). rewrite Hhalf at 2. rewrite inject_Z_mult.
      change (inject_Z 2) with 2%Q. ring.
Qed.

Lemma trunc_Z (t : Q) (s : Z) : t == inject_Z s -> trunc t = s.
Proof.
  intro H. unfold trunc. destruct (Qle_bool 0 t).
  - rewrite H. apply Qfloor_Z.
  - rewrite H. apply Qceiling_Z.
Qed.

Lemma Qfloor_between (t : Q) (s : Z) :
  (inject_Z s <= t < inject_Z s + 1)%Q -> Qfloor t = s.
Proof.
  intros [Hlo Hhi]. pose proof (Qfloor_le t) as H1. pose proof (Qlt_floor t) as H2.
  rewrite inject_Z_plus in H2. change (inject_Z 1) with 1%Q in H2.
  assert (A : (inject_Z (Qfloor t) < inject_Z s + 1)%Q) by lra.
  assert (B : (inject_Z s < inject_Z (Qfloor t) + 1)%Q) by lra.
  change 1%Q with (inject_Z 1) in A, B. rewrite <- inject_Z_plus in A, B.
  rewrite <- Zlt_Qlt in A, B. lia.
Qed.

Lemma Qceiling_between (t : Q) (s : Z) :
  (inject_Z s - 1 < t <= inject_Z s)%Q -> Qceiling t = s.
Proof.
  intros [Hlo Hhi]. pose proof (Qle_ceiling t) as H1. pose proof (Qceiling_lt t) as H2.
  unfold Z.sub in H2. rewrite inject_Z_plus, inject_Z_opp in H2.
  change (inject_Z 1) with 1%Q in H2.
  assert (A : (inject_Z (Qceiling t) < inject_Z s + 1)%Q) by lra.
  assert (B : (inject_Z s < inject_Z (Qceiling t) + 1)%Q) by lra.
  change 1%Q with (inject_Z 1) in A, B. rewrite <- inject_Z_plus in A, B.
  rewrite <- Zlt_Qlt in A, B. lia.
Qed.

(** An instant on a whole second converts exactly. *)
Lemma timestamp_micros_whole (t : Q) (s : Z) :
  t == inject_Z s -> timestamp_micros t = 1000000 * s.
Proof.
  intro H. unfold timestamp_micros. rewrite (trunc_Z t s H).
  rewrite to_double_zero; [change (round_half_even 0) with 0; lia|]. rewrite H. ring.
Qed.

(** A double within [delta] of an instant that is not on a whole second. *)
Lemma timestamp_micros_fraction (t delta : Q) (ms : Z) :
  Z.rem ms 1000 <> 0 ->
  (0 <= delta <= 1 # 65536)%Q ->
  (inject_Z ms - 1000 * delta <= 1000 * t <= inject_Z ms + 1000 * delta)%Q ->
  exists fp : Q,
    timestamp_micros t = 1000000 * Z.quot ms 1000 + round_half_even fp /\
    (inject_Z (1000 * Z.rem ms 1000) - (1000000 * delta + (1 # 1024)) <= fp
     <= inject_Z (1000 * Z.rem ms 1000) + (1000000 * delta + (1 # 1024)))%Q.
Proof.
  intros Hr Hd Ht.
  pose proof (Z.quot_rem' ms 1000) as Hqr.
  pose proof (Z.rem_bound_abs ms 1000 ltac:(lia)) as Habs.
  pose proof (Z.rem_nonneg ms 1000 ltac:(lia)) as Hpos.
  pose proof (Z.rem_nonpos ms 1000 ltac:(lia)) as Hneg.
  set (s := Z.quot ms 1000) in *. set (r := Z.rem ms 1000) in *.
  assert (Hms : inject_Z ms == 1000 * inject_Z s + inject_Z r).
  { rewrite Hqr, inject_Z_plus, inject_Z_mult. reflexivity. }
  assert (Htr : trunc t = s).
  { unfold trunc. destruct (Z_lt_le_dec ms 0) as [Hm|Hm].
    - assert (Hr' : -1000 < r < 0) by (specialize (Hneg ltac:(lia)); lia).
      assert (Hs : s <= 0) by lia.
      assert (Hrq : (-999 <= inject_Z r <= -1)%Q).
      { split; [change (-999)%Q with (inject_Z (-999)) | change (-1)%Q with (inject_Z (-1))];
          rewrite <- Zle_Qle; lia. }
      assert (Hsq : (inject_Z s <= 0)%Q).
      { change 0%Q with (inject_Z 0). rewrite <- Zle_Qle. lia. }
      destruct (Qle_bool 0 t) eqn:E; [apply Qle_bool_iff in E; lra|].
      apply Qceiling_between. lra.
    - assert (Hr' : 0 < r < 1000) by (specialize (Hpos ltac:(lia)); lia).
      assert (Hs : 0 <= s) by lia.
      assert (Hrq : (1 <= inject_Z r <= 999)%Q).
      { split; [change 1%Q with (inject_Z 1) | change 999%Q with (inject_Z 999)];
          rewrite <- Zle_Qle; lia. }
      assert (Hsq : (0 <= inject_Z s)%Q).
      { change 0%Q with (inject_Z 0). rewrite <- Zle_Qle. lia. }
      destruct (Qle_bool 0 t) eqn:E.
      + apply Qfloor_between. lra.
      + exfalso. assert (0 <= t)%Q by lra. apply Qle_bool_iff in H. congruence. }
  unfold timestamp_micros. rewrite Htr.
  set (y := ((t - inject_Z s) * inject_Z 1000000)%Q).
  exists (to_double y). split; [lia|].
  assert (Hrq : (-999 <= inject_Z r <= 999)%Q).
  { split; [change (-999)%Q with (inject_Z (-999)) | change 999%Q with (inject_Z 999)];
      rewrite <- Zle_Qle; lia. }
  assert (Hy : (inject_Z (1000 * r) - 1000000 * delta <= y
                <= inject_Z (1000 * r) + 1000000 * delta)%Q).
  { unfold y. rewrite inject_Z_mult. change (inject_Z 1000000) with 1000000%Q.
    change (inject_Z 1000) with 1000%Q. lra. }
  rewrite inject_Z_mult in Hy. change (inject_Z 1000) with 1000%Q in Hy.
  pose proof (to_double_error y 20 ltac:(lia)) as He.
  change (2 ^ 20)%Q with 1048576%Q in He. change (2 ^ (20 - 54))%Q with (1 # 17179869184)%Q in He.
  rewrite inject_Z_mult. change (inject_Z 1000) with 1000%Q.
  specialize (He ltac:(lra)). lra.
Qed.

(** *** Epoch milliseconds *)

(** An [int] below [2^53] in magnitude converts to itself. *)
Lemma float_of_int_exact (n : Z) :
  Z.abs n < 2 ^ 53 -> exists x, float_of_int n = Ok x /\ x == inject_Z n.
Proof.
  intro Hn. unfold float_of_int.
  pose proof (to_double_exact (inject_Z n) n (Qeq_refl _) ltac:(lia)) as Hx.
  set (x := to_double (inject_Z n)) in *.
  assert (Hfin : is_finite x = true).
  { unfold is_finite. destruct (Qle_bool (2 ^ 1024) (Qabs x)) eqn:E; [|reflexivity].
    apply Qle_bool_iff in E. rewrite Hx in E.
    change (Qabs (inject_Z n)) with (inject_Z (Z.abs n)) in E.
    rewrite (pow2_Z 1024) in E by lia. rewrite <- Zle_Qle in E.
    assert (2 ^ 53 < 2 ^ 1024) by (apply Z.pow_lt_mono_r; lia). lia. }
  rewrite Hfin. exists x. split; [reflexivity | exact Hx].
Qed.

(** A number of epoch milliseconds within [datetime]'s range, divided
    by [1000.] and converted: the instant is met to 15 microseconds,
    exactly up to [2^33] seconds, and the calendar day is always that
    of the instant. *)
Lemma utcfromtimestamp_millis (v : value) (x : Q) (ms : Z) :
  as_float v = Some (Ok x) ->
  x == inject_Z ms ->
  MIN_MICROS <= 1000 * ms <= MAX_MICROS ->
  exists micros,
    (seconds <- div_1000 v ;; utcfromtimestamp seconds)%result = Ok micros /\
    Z.abs (micros - 1000 * ms) <= 15 /\
    (Z.abs ms <= 8589934592000 -> micros = 1000 * ms) /\
    date_of micros = ms / 86400000.
Proof.
  intros Hv Hx Hrange. unfold MIN_MICROS, MAX_MICROS in Hrange.
  unfold div_1000. rewrite Hv. cbn [rbind].
  set (t := to_double (x / inject_Z 1000)).
  pose proof (Z.quot_rem' ms 1000) as Hqr.
  assert (Hmicros : Z.abs (timestamp_micros t - 1000 * ms) <= 15 /\
                    (Z.rem ms 1000 = 0 -> timestamp_micros t = 1000 * ms) /\
                    (Z.abs ms <= 8589934592000 -> timestamp_micros t = 1000 * ms)).
  { destruct (Z.eq_dec (Z.rem ms 1000) 0) as [Hr|Hr].
    - assert (Hwhole : timestamp_micros t = 1000000 * Z.quot ms 1000).
      { apply timestamp_micros_whole. unfold t. apply to_double_exact.
        - assert (Hms : inject_Z ms == 1000 * inject_Z (Z.quot ms 1000)).
          { change 1000%Q with (inject_Z 1000). rewrite <- inject_Z_mult.
            apply inject_Z_injective. lia. }
          rewrite Hx, Hms. change (inject_Z 1000) with 1000%Q. field.
        - assert (2 ^ 53 = 9007199254740992) by reflexivity. lia. }
      rewrite Hwhole. repeat split; intros; lia.
    - assert (Hmsq : (-253402300800000 < inject_Z ms < 253402300800000)%Q).
      { split; [change (-253402300800000)%Q with (inject_Z (-253402300800000))
               | change 253402300800000%Q with (inject_Z 253402300800000)];
          rewrite <- Zlt_Qlt; lia. }
      assert (Hnear : forall k delta,
                 -1021 <= k -> (2 ^ (k - 54) == delta)%Q -> (0 <= delta <= 1 # 65536)%Q ->
                 (- (1000 * 2 ^ k) < inject_Z ms < 1000 * 2 ^ k)%Q ->
                 exists fp : Q,
                   timestamp_micros t = 1000000 * Z.quot ms 1000 + round_half_even fp /\
                   (inject_Z (1000 * Z.rem ms 1000) - (1000000 * delta + (1 # 1024)) <= fp
                    <= inject_Z (1000 * Z.rem ms 1000)
                       + (1000000 * delta + (1 # 1024)))%Q).
      { intros k delta Hk Hdelta Hd Hms. apply timestamp_micros_fraction; [exact Hr|exact Hd|].
        pose proof (to_double_error (x / inject_Z 1000) k Hk) as He. fold t in He.
        rewrite Hdelta in He. rewrite Hx in He. change (inject_Z 1000) with 1000%Q in He.
        assert (Hq : (- 2 ^ k < inject_Z ms / 1000 < 2 ^ k)%Q).
        { split.
          - apply Qlt_shift_div_l; [reflexivity|]. lra.
          - apply Qlt_shift_div_r; [reflexivity|]. lra. }
        specialize (He Hq).
        assert (Hdiv : (inject_Z ms / 1000 * 1000 == inject_Z ms)%Q) by (field; discriminate).
        lra. }
      destruct (Hnear 38 (1 # 65536)%Q ltac:(lia) ltac:(reflexivity) ltac:(lra))
        as (fp & Hfp & Hlo & Hhi).
      { change (2 ^ 38)%Q with 274877906944%Q. lra. }
      pose proof (round_half_even_near fp) as [Hn1 Hn2].
      assert (Hu : Z.abs (round_half_even fp - 1000 * Z.rem ms 1000) <= 15).
      { assert (A : (inject_Z (round_half_even fp) < inject_Z (1000 * Z.rem ms 1000 + 16))%Q).
        { rewrite inject_Z_plus. change (inject_Z 16) with 16%Q. lra. }
        assert (B : (inject_Z (1000 * Z.rem ms 1000) < inject_Z (round_half_even fp + 16))%Q).
        { rewrite inject_Z_plus. change (inject_Z 16) with 16%Q. lra. }
        rewrite <- Zlt_Qlt in A, B. lia. }
      split; [rewrite Hfp; lia|]. split; [contradiction|].
      intro Hsmall.
      assert (Hstrict : Z.abs ms < 8589934592000).
      { destruct (Z.eq_dec (Z.abs ms) 8589934592000) as [E|E]; [|lia].
        exfalso. apply Hr. destruct (Z.abs_eq_or_opp ms) as [A|A]; rewrite A in E.
        - rewrite E. reflexivity.
        - replace ms with (-8589934592000) by lia. reflexivity. }
      destruct (Hnear 33 (1 # 2097152)%Q ltac:(lia) ltac:(reflexivity) ltac:(lra))
        as (fp' & Hfp' & Hlo' & Hhi').
      { change (2 ^ 33)%Q with 8589934592%Q.
        split; [change (- (1000 * 8589934592))%Q with (inject_Z (-8589934592000))
               | change (1000 * 8589934592)%Q with (inject_Z 8589934592000)];
          rewrite <- Zlt_Qlt; lia. }
      rewrite Hfp'. rewrite (round_half_even_unique fp' (1000 * Z.rem ms 1000)); [lia|].
      lra. }
  destruct Hmicros as (Hclose & Hwhole & Hexact).
  assert (Hin : MIN_MICROS <= timestamp_micros t <= MAX_MICROS).
  { unfold MIN_MICROS, MAX_MICROS.
    destruct (Z.eq_dec (Z.rem ms 1000) 0) as [Hr|Hr]; [rewrite (Hwhole Hr); lia|].
    pose proof (Z.rem_bound_abs ms 1000 ltac:(lia)). lia. }
  exists (timestamp_micros t). split; [|split; [exact Hclose|split; [exact Hexact|]]].
  - unfold utcfromtimestamp. fold t. unfold MIN_MICROS, MAX_MICROS in *.
    set (m := timestamp_micros t) in *.
    assert (Ht : -62135596800 <= m / 1000000 <= 253402300799).
    { pose proof (Z.div_mod m 1000000 ltac:(lia)).
      pose proof (Z.mod_pos_bound m 1000000 ltac:(lia)). lia. }
    unfold TIME_T_MIN, TIME_T_MAX, GMTIME_MIN, GMTIME_MAX.
    assert (H63 : 2 ^ 63 = 9223372036854775808) by reflexivity. rewrite H63.
    repeat match goal with
           | |- context [?a <? ?b] => destruct (Z.ltb_spec a b); [lia|]
           end.
    reflexivity.
  - unfold date_of, MIN_MICROS, MAX_MICROS in *.
    set (m := timestamp_micros t) in *.
    destruct (Z.eq_dec (Z.rem ms 1000) 0) as [Hr|Hr].
    + rewrite (Hwhole Hr). change 86400000000 with (1000 * 86400000).
      apply Z.div_mul_cancel_l; lia.
    + pose proof (Z.rem_bound_abs ms 1000 ltac:(lia)) as Hb.
      pose proof (Z.div_mod ms 86400000 ltac:(lia)) as Hdm.
      pose proof (Z.mod_pos_bound ms 86400000 ltac:(lia)) as Hmb.
      symmetry. apply Z.div_unique with (r := m - 86400000000 * (ms / 86400000)); lia.
Qed.

(* ================================================================== *)
(** ** Properties of the aggregation engine *)

(** C10: [query_aggregate] raises [ValueError] without touching the
    backend or the cache exactly when three or more axes are supplied,
    whatever their fields; with at most two axes (even two [_query]
    axes) the guard lets the call through to the rest of the function. *)
Theorem guard_rejects_three_or_more_axes :
  forall (respond : backend) interval_mapping build_body _normalize_queries
         depth index (axes : option (list Axis.t)) aggregations queries filters
         (w : world),
    run respond (query_aggregate interval_mapping build_body _normalize_queries depth
                                 index axes aggregations queries filters) w =
    if (3 <=? List.length (supplied axes))%nat
    then (Err (ValueError "Only one aggregation axis may be by query"), w)
    else run respond (query_aggregate_body interval_mapping build_body _normalize_queries
                        depth index axes aggregations queries filters) w.
Proof.
  intros. unfold query_aggregate.
  destruct axes as [[|a [|b [|c rest]]]|]; reflexivity.
Qed.

(** C1, at the input where the code departs from it: two axes, both by
    [_query].  The call is not rejected: it returns rows that carry the
    label twice, after a [count] round trip. *)
Theorem two_query_axes_are_not_rejected :
  run (scripted [Ok (VDict [("count", VInt 4)])])
      (sample_query_aggregate
         (Some [Axis.init "_query" None None; Axis.init "_query" None None]) None
         (QueriesMapping [("q1", "foo")]) VNone) world0
  = (Ok {| AggregateResult.axes :=
             [{| BoundAxis.axis := Axis.init "_query" None None;
                 BoundAxis.index := IndexStr "idx"; BoundAxis.ftype := VStr "_query" |};
              {| BoundAxis.axis := Axis.init "_query" None None;
                 BoundAxis.index := IndexStr "idx"; BoundAxis.ftype := VStr "_query" |}];
           AggregateResult.data := [[VStr "q1"; VStr "q1"; VInt 4]];
           AggregateResult.aggregations := [];
           AggregateResult.count_column := "n" |},
     {| FIELD_CACHE := [];
        calls := [({| method := count;
                      kwargs := [("index", VStr "idx");
                                 ("body", VDict [("query", VDict [("bool",
                                    VDict [("should", VDict [("q1", VStr "foo")]);
                                           ("filter", VNone)])])])] |},
                   Ok (VDict [("count", VInt 4)]))] |}).
Proof. vm_compute. reflexivity. Qed.

(** C6: on a [date] axis whose interval the codec does not know, an
    integral raw key within [datetime]'s range is read as epoch
    milliseconds.  For the intervals year, month, week and day the
    value is the calendar date of that instant.  For any other interval
    it is a timestamp: the instant of the key itself up to [2^33]
    seconds either side of the epoch (a key of magnitude at most
    8589934592000), and within 15 microseconds of it beyond, since
    [key / 1000.] is a double. *)
Theorem date_axis_decodes_epoch_millis :
  forall interval_mapping (self : BoundAxis.t) (values : value) (ms : Z),
    BoundAxis.ftype self = VStr "date" ->
    interval_mapping (BoundAxis.interval self) = None ->
    py_getitem values (BoundAxis.name self) = Ok (VInt ms) ->
    MIN_MICROS <= 1000 * ms <= MAX_MICROS ->
    (In (BoundAxis.interval self) [Some "year"; Some "month"; Some "week"; Some "day"] ->
     BoundAxis.get_value interval_mapping self values = Ok (VDate (ms / 86400000))) /\
    (~ In (BoundAxis.interval self) [Some "year"; Some "month"; Some "week"; Some "day"] ->
     exists micros,
       BoundAxis.get_value interval_mapping self values = Ok (VDateTime micros) /\
       Z.abs (micros - 1000 * ms) <= 15 /\
       (Z.abs ms <= 8589934592000 -> micros = 1000 * ms)).
Proof.
  intros im self values ms Hty Hcodec Hkey Hrange.
  assert (H53 : Z.abs ms < 2 ^ 53).
  { unfold MIN_MICROS, MAX_MICROS in Hrange.
    assert (2 ^ 53 = 9007199254740992) by reflexivity. lia. }
  destruct (float_of_int_exact ms H53) as (x & Hfloat & Hx).
  destruct (utcfromtimestamp_millis (VInt ms) x ms (f_equal Some Hfloat) Hx Hrange)
    as (micros & Hutc & Hclose & Hexact & Hday).
  assert (Hget : BoundAxis.get_value im self values =
                 Ok (if BoundAxis.calendar_unit (BoundAxis.interval self)
                     then VDate (ms / 86400000) else VDateTime micros)).
  { unfold BoundAxis.get_value. rewrite Hkey. cbn [rbind]. rewrite Hcodec, Hty.
    cbn [py_eqb]. rewrite String.eqb_refl.
    destruct (div_1000 (VInt ms)) as [seconds|e]; [|discriminate].
    cbn [rbind] in *. rewrite Hutc. cbn [rbind]. rewrite Hday.
    destruct (BoundAxis.calendar_unit _); reflexivity. }
  rewrite Hget. split; intro Hin.
  - simpl in Hin. destruct Hin as [<-|[<-|[<-|[<-|[]]]]]; reflexivity.
  - exists micros.
    replace (BoundAxis.calendar_unit (BoundAxis.interval self)) with false; [auto|].
    destruct (BoundAxis.interval self) as [i|]; [|reflexivity].
    symmetry. unfold BoundAxis.calendar_unit. cbn [existsb].
    repeat match goal with
           | |- context [(i =? ?s)%string] =>
               destruct (String.eqb_spec i s) as [->|_];
               [exfalso; apply Hin; simpl; tauto|]
           end.
    reflexivity.
Qed.

Lemma date_axis_decodes_epoch_millis_witness :
  BoundAxis.get_value sample_interval_mapping (date_axis "day")
                      (VDict [("date_day", VInt 1514800800000)]) = Ok (VDate 17532) /\
  exists micros,
    BoundAxis.get_value sample_interval_mapping (date_axis "hour")
                        (VDict [("date_hour", VInt 1514800800000)])
    = Ok (VDateTime micros) /\
    Z.abs (micros - 1000 * 1514800800000) <= 15 /\
    (Z.abs 1514800800000 <= 8589934592000 -> micros = 1000 * 1514800800000).
Proof.
  split.
  - apply (date_axis_decodes_epoch_millis sample_interval_mapping (date_axis "day")
             (VDict [("date_day", VInt 1514800800000)]) 1514800800000);
      [reflexivity | reflexivity | reflexivity | vm_compute; split; discriminate
      | simpl; tauto].
  - apply (date_axis_decodes_epoch_millis sample_interval_mapping (date_axis "hour")
             (VDict [("date_hour", VInt 1514800800000)]) 1514800800000);
      [reflexivity | reflexivity | reflexivity | vm_compute; split; discriminate|].
    simpl. intros [H|[H|[H|[H|[]]]]]; discriminate.
Defined.

(** C6, at a key past the range of exact conversion: one millisecond
    past [2^33] seconds (2242-03-16T12:56:32.001).  The quotient
    [8589934592001 / 1000.] is the double 8589934592.00099945..., and
    the timestamp that comes back is one microsecond short of the
    instant of the key. *)
Lemma date_axis_key_past_2242_is_off_by_a_microsecond :
  BoundAxis.get_value sample_interval_mapping (date_axis "hour")
                      (VDict [("date_hour", VInt 8589934592001)])
  = Ok (VDateTime 8589934592000999) /\
  8589934592000999 <> 1000 * 8589934592001.
Proof. split; [vm_compute; reflexivity | discriminate]. Qed.



(** C9, at the input where the code departs from it: a [date] metric
    whose value is the epoch itself.  The number 0.0 is not null, yet
    [get_value] hands it back as a number, whereas the same raw value
    is converted when it is the key of a [date] axis. *)
Theorem date_metric_at_epoch_is_not_converted :
  BoundAggregation.get_value min_date (VDict [("min_date", VDict [("value", VFloat 0)])])
  = Ok (VFloat 0) /\
  BoundAxis.get_value sample_interval_mapping (date_axis "hour")
                      (VDict [("date_hour", VFloat 0)])
  = Ok (VDateTime 0).
Proof. split; vm_compute; reflexivity. Qed.

(** X25: the metric decoder on the values it converts exactly: a
    non-zero whole number of epoch milliseconds, [int] or [float], up
    to [2^33] seconds either side of the epoch, comes back as the
    timestamp of that instant. *)
Lemma date_metric_decodes_epoch_millis (self : BoundAggregation.t) (bucket v : value)
      (ms : Z) :
  BoundAggregation.ftype self = VStr "date" ->
  (sub <- py_getitem bucket (BoundAggregation.name self) ;; py_getitem sub "value")%result
  = Ok v ->
  v = VInt ms \/ v = VFloat (inject_Z ms) ->
  ms <> 0 ->
  Z.abs ms <= 8589934592000 ->
  BoundAggregation.get_value self bucket = Ok (VDateTime (1000 * ms)).
Proof.
  intros Hty Hval Hv Hnz Hrange. unfold BoundAggregation.get_value.
  destruct (py_getitem bucket (BoundAggregation.name self)) as [sub|e]; [|discriminate].
  cbn [rbind] in *. rewrite Hval. cbn [rbind].
  assert (Htruthy : truthy v = true).
  { destruct Hv as [->| ->]; cbn [truthy inject_Z Qnum];
      destruct (Z.eqb_spec ms 0); [contradiction|reflexivity|contradiction|reflexivity]. }
  rewrite Htruthy, Hty. cbn [py_eqb]. rewrite String.eqb_refl. cbn [andb].
  assert (Hfloat : exists x, as_float v = Some (Ok x) /\ x == inject_Z ms).
  { destruct Hv as [->| ->].
    - destruct (float_of_int_exact ms) as (x & Hfloat & Hx).
      { assert (2 ^ 53 = 9007199254740992) by reflexivity. lia. }
      exists x. split; [exact (f_equal Some Hfloat) | exact Hx].
    - exists (inject_Z ms). split; reflexivity. }
  destruct Hfloat as (x & Hfloat & Hx).
  destruct (utcfromtimestamp_millis v x ms Hfloat Hx) as (micros & Hutc & _ & Hexact & _).
  { unfold MIN_MICROS, MAX_MICROS. lia. }
  destruct (div_1000 v) as [seconds|e]; [|discriminate].
  cbn [rbind] in *. rewrite Hutc, (Hexact Hrange). reflexivity.
Qed.

(** A null metric value or a metric over a field that is not a date
    comes back as it is. *)
Lemma metric_passes_through (self : BoundAggregation.t) (bucket v : value) :
  (sub <- py_getitem bucket (BoundAggregation.name self) ;; py_getitem sub "value")%result
  = Ok v ->
  v = VNone \/ BoundAggregation.ftype self <> VStr "date" ->
  BoundAggregation.get_value self bucket = Ok v.
Proof.
  intros Hval Hcase. unfold BoundAggregation.get_value.
  destruct (py_getitem bucket (BoundAggregation.name self)) as [sub|e]; [|discriminate].
  cbn [rbind] in *. rewrite Hval. cbn [rbind].
  destruct Hcase as [->|Hne]; [reflexivity|].
  destruct (py_eqb (BoundAggregation.ftype self) (VStr "date")) eqn:Hd.
  - apply py_eqb_str in Hd. contradiction.
  - rewrite andb_false_r. reflexivity.
Qed.

(** C8, at the input where the code departs from it: no axes, one
    aggregation, no queries and no filters.  [_bare_aggregate] builds
    [{"match_all": {}}] and then reads its ["query"] key: the call
    raises [KeyError] and neither [search] nor [count] is issued. *)
Theorem scalar_metric_without_query_raises :
  run (scripted [Ok (VDict [("aggregations", VDict [("avg_i", VDict [("value", VInt 11)])])]);
                 Ok (VDict [("count", VInt 4)])])
      (sample_query_aggregate None (Some [Aggregation.init "i" "avg" None])
                              QueriesNone VNone) warm_world
  = (Err (KeyError "query"), warm_world).
Proof. vm_compute. reflexivity. Qed.

(** With no axes and no aggregations the engine issues one [count]
    request and yields the row [(count,)]. *)
Lemma scalar_count_only (respond : backend) interval_mapping build_body depth index
      queries filters body response n (w : world) :
  build_body (queries_dict queries) filters = Ok body ->
  respond (calls w) {| method := count;
                       kwargs := [("index", index_joined index); ("body", body)] |}
  = Ok response ->
  py_getitem response "count" = Ok n ->
  run respond (collect (_aggregate_results interval_mapping build_body (S depth) index []
                                           queries filters [])) w
  = (Ok [[n]],
     {| FIELD_CACHE := FIELD_CACHE w;
        calls := calls w ++
                 [({| method := count;
                      kwargs := [("index", index_joined index); ("body", body)] |},
                   Ok response)] |}).
Proof.
  intros Hbody Hresp Hcount. cbn [_aggregate_results nonempty negb].
  rewrite Hbody. cbn [lift bind es_call collect run]. rewrite Hresp, Hcount.
  reflexivity.
Qed.

(** With no axes, some aggregations and a query or filter whose body
    has a ["query"] key, the engine issues one [search] and one [count]
    and yields the row [(count, metric_1, ..., metric_k)]. *)
Lemma scalar_metrics_with_query (respond : backend) interval_mapping build_body depth
      index queries filters a rest query q aresult cresult n metrics vals (w : world) :
  truthy filters || nonempty queries = true ->
  build_body (queries_dict queries) filters = Ok query ->
  py_getitem query "query" = Ok q ->
  let aggregations := a :: rest in
  let search_call := {| method := search;
                        kwargs := [("query", q); ("index", index_value index);
                                   ("size", VInt 0);
                                   ("aggregations", aggregation_dsl aggregations)] |} in
  let count_call := {| method := count;
                       kwargs := [("body", query); ("index", index_value index)] |} in
  respond (calls w) search_call = Ok aresult ->
  respond (calls w ++ [(search_call, Ok aresult)])%list count_call = Ok cresult ->
  py_getitem cresult "count" = Ok n ->
  py_getitem aresult "aggregations" = Ok metrics ->
  rmapM (fun a => BoundAggregation.get_value a metrics) aggregations = Ok vals ->
  run respond (collect (_aggregate_results interval_mapping build_body (S depth) index []
                                           queries filters aggregations)) w
  = (Ok [n :: vals],
     {| FIELD_CACHE := FIELD_CACHE w;
        calls := calls w ++ [(search_call, Ok aresult); (count_call, Ok cresult)] |}).
Proof.
  intros Hq Hbody Hquery aggregations search_call count_call Hs Hc Hn Hm Hvals.
  cbn [_aggregate_results nonempty negb]. subst aggregations. cbn [nonempty].
  unfold _bare_aggregate. rewrite Hq, Hbody. cbn [lift bind]. rewrite Hquery.
  cbn [lift bind es_call collect run]. fold search_call. rewrite Hs.
  cbn [calls FIELD_CACHE]. fold count_call. rewrite Hc, Hn.
  cbn [lift bind collect run]. rewrite Hm. cbn [lift bind collect run snd fst].
  rewrite Hvals. cbn. rewrite <- app_assoc. reflexivity.
Qed.




(** C4: if any page response recorded during a call of
    [query_aggregate] reports shard failures, the call raises the
    aggregate search error: the caller gets no result, whatever pages
    were fetched before. *)
Theorem shard_failure_aborts_aggregation :
  forall (respond : backend) interval_mapping build_body _normalize_queries depth index
         axes aggregations queries filters (w w' : world)
         (r : result AggregateResult.t) (c : call) (page : value),
    run respond (query_aggregate interval_mapping build_body _normalize_queries depth
                                 index axes aggregations queries filters) w = (r, w') ->
    In (c, Ok page) (new_calls w w') ->
    is_page_request c = true ->
    reports_failures page = true ->
    r = Err (shard_failure_error page).
Proof.
  intros respond im bb nq depth index axes aggregations queries filters w w' r c page
         Hrun Hin Hc Hf.
  eapply checked_run; eauto. apply checked_query_aggregate.
Qed.

Lemma shard_failure_aborts_aggregation_witness :
  fst failing_outcome =
  Err (Exception "Error on running aggregate search" (VList [VStr "shard 0 unavailable"])).
Proof.
  apply (shard_failure_aborts_aggregation failing_backend sample_interval_mapping
           sample_build_body sample_normalize_queries 1000 (IndexStr "idx")
           (Some [Axis.init "cat" None None]) None QueriesNone VNone
           world0 failing_world (fst failing_outcome)
           {| method := search;
              kwargs := [("index", VStr "idx"); ("size", VInt 0);
                         ("aggregations",
                          VDict [("aggs", VDict [("composite",
                            VDict [("sources",
                                    VList [VDict [("cat", VDict [("terms",
                                             VDict [("field", VStr "cat")])])]]);
                                   ("after", VDict [("cat", VStr "a")])])])]);
                         ("runtime_mappings", VDict [])] |}
           failed_page).
  - vm_compute. reflexivity.
  - vm_compute. right. right. left. reflexivity.
  - reflexivity.
  - reflexivity.
Defined.

(** C5: every row of a result of [query_aggregate] has one cell per
    supplied axis (a [_query] axis included), one for the count and one
    per supplied aggregation. *)
Theorem row_width_invariant :
  forall (respond : backend) interval_mapping build_body _normalize_queries depth index
         axes aggregations queries filters (w w' : world) (res : AggregateResult.t),
    run respond (query_aggregate interval_mapping build_body _normalize_queries depth
                                 index axes aggregations queries filters) w = (Ok res, w') ->
    Forall (fun row => List.length row =
                       (List.length (supplied axes) + 1
                        + List.length (supplied aggregations))%nat)
           (AggregateResult.data res).
Proof.
  intros respond im bb nq depth index axes aggregations queries filters w w' res.
  unfold query_aggregate. destruct (too_many_query_axes axes); [discriminate|].
  unfold query_aggregate_body. rewrite run_bind.
  destruct (run respond (bind_axes index axes) w) as [[baxes|e] w1] eqn:Hax; [|discriminate].
  rewrite run_bind.
  destruct (run respond (bind_aggregations index aggregations) w1) as [[baggs|e] w2] eqn:Hag;
    [|discriminate].
  rewrite run_bind.
  destruct (run respond (collect _) w2) as [[data|e] w3] eqn:Hdata; [|discriminate].
  simpl. intros [= <- _]. simpl.
  assert (Hlen1 : List.length baxes = List.length (supplied axes)).
  { destruct axes as [[|a l]|]; cbn [bind_axes supplied] in *;
      try (injection Hax as <- _; reflexivity).
    eapply run_mapM_length; eauto. }
  assert (Hlen2 : List.length baggs = List.length (supplied aggregations)).
  { destruct aggregations as [[|a l]|]; cbn [bind_aggregations supplied] in *;
      try (injection Hag as <- _; reflexivity).
    eapply run_mapM_length; eauto. }
  rewrite <- Hlen1, <- Hlen2.
  eapply collect_yields; [|exact Hdata]. apply _aggregate_results_width.
Qed.

Lemma row_width_invariant_witness :
  Forall (fun row => List.length row = 3%nat)
         [[VStr "a"; VStr "q1"; VInt 2]; [VStr "a"; VStr "q2"; VInt 1];
          [VStr "b"; VStr "q2"; VInt 1]].
Proof.
  apply (row_width_invariant by_query_backend sample_interval_mapping sample_build_body
           sample_normalize_queries 1000 (IndexStr "idx") (Some by_query_axes) None
           by_query_queries VNone world0 by_query_world by_query_result).
  vm_compute. reflexivity.
Defined.

(** C2, at the input where the code departs from it: three axes of
    which exactly one, the second, is by [_query].  The guard counts
    the axes after the first instead of the [_query] axes among them,
    so the call is rejected with the error meant for two [_query] axes,
    before any round trip.  The rest of the function, run on the same
    input, returns the rows with the label at index 1 and the values of
    the reduced pipeline at indices 0 and 2. *)
Theorem one_query_axis_among_three_is_rejected :
  run around_query_backend
      (sample_query_aggregate (Some around_query_axes) None by_query_queries VNone)
      two_index_world
  = (Err (ValueError "Only one aggregation axis may be by query"), two_index_world) /\
  match fst (run around_query_backend
                 (query_aggregate_body sample_interval_mapping sample_build_body
                    sample_normalize_queries 1000 (IndexStr "idx")
                    (Some around_query_axes) None by_query_queries VNone)
                 two_index_world) with
  | Ok res =>
      AggregateResult.data res =
      [[VStr "a"; VStr "q1"; VInt 1; VInt 2];
       [VStr "a"; VStr "q2"; VInt 1; VInt 1];
       [VStr "b"; VStr "q2"; VInt 7; VInt 1]]
  | Err _ => False
  end.
Proof. split; vm_compute; reflexivity. Qed.

(** Where the guard lets a call through (at most two axes) and exactly
    one axis is by [_query], at position [i], the rows that
    [query_aggregate] returns are those of the reduced pipeline (the
    bound axes without the one at [i]) run once per named query in the
    order of the mapping, each row with the label put back at position
    [i], concatenated in that order. *)
Lemma query_axis_rows_carry_label_in_place :
  forall (respond : backend) interval_mapping build_body _normalize_queries depth index
         (axes : list Axis.t) aggregations queries filters (i : nat) (w w' : world)
         (res : AggregateResult.t),
    nth_error (map Axis.field axes) i = Some "_query" ->
    count_occ string_dec (map Axis.field axes) "_query" = 1%nat ->
    run respond (query_aggregate interval_mapping build_body _normalize_queries depth
                                 index (Some axes) aggregations queries filters) w
    = (Ok res, w') ->
    exists w1 w2,
      run respond (bind_axes index (Some axes)) w = (Ok (AggregateResult.axes res), w1) /\
      run respond (bind_aggregations index aggregations) w1
      = (Ok (AggregateResult.aggregations res), w2) /\
      run respond (rows_per_label interval_mapping build_body (Nat.pred depth) index i
                     (without_nth i (AggregateResult.axes res))
                     (_normalize_queries queries) filters
                     (AggregateResult.aggregations res)) w2
      = (Ok (AggregateResult.data res), w').
Proof.
  intros respond im bb nq depth index axes aggregations queries filters i w w' res
         Hnth Hone.
  unfold query_aggregate. destruct (too_many_query_axes (Some axes)); [discriminate|].
  unfold query_aggregate_body. rewrite run_bind.
  destruct (run respond (bind_axes index (Some axes)) w) as [[baxes|e] w1] eqn:Hax;
    [|discriminate].
  rewrite run_bind.
  destruct (run respond (bind_aggregations index aggregations) w1) as [[baggs|e] w2] eqn:Hag;
    [|discriminate].
  rewrite run_bind.
  destruct (run respond (collect _) w2) as [[data|e] w3] eqn:Hdata; [|discriminate].
  simpl. intros [= <- <-]. simpl. exists w1, w2. repeat split; [exact Hag|].
  apply run_bind_axes_fields in Hax.
  destruct depth as [|depth]; [discriminate|].
  rewrite _aggregate_results_by_query in Hdata.
  - rewrite Hax, (index_of_unique _ _ _ Hnth Hone) in Hdata. exact Hdata.
  - rewrite existsb_is_query_axis, Hax. eapply nth_error_existsb; eauto.
Qed.

Lemma query_axis_rows_carry_label_in_place_witness :
  exists w1 w2,
    run by_query_backend (bind_axes (IndexStr "idx") (Some by_query_axes)) world0
    = (Ok (AggregateResult.axes by_query_result), w1) /\
    run by_query_backend (bind_aggregations (IndexStr "idx") None) w1
    = (Ok (AggregateResult.aggregations by_query_result), w2) /\
    run by_query_backend
        (rows_per_label sample_interval_mapping sample_build_body (Nat.pred 1000)
           (IndexStr "idx") 1 (without_nth 1 (AggregateResult.axes by_query_result))
           (sample_normalize_queries by_query_queries) VNone
           (AggregateResult.aggregations by_query_result)) w2
    = (Ok [[VStr "a"; VStr "q1"; VInt 2]; [VStr "a"; VStr "q2"; VInt 1];
           [VStr "b"; VStr "q2"; VInt 1]], by_query_world).
Proof.
  apply (query_axis_rows_carry_label_in_place by_query_backend sample_interval_mapping
           sample_build_body sample_normalize_queries 1000 (IndexStr "idx") by_query_axes
           None by_query_queries VNone 1 world0 by_query_world by_query_result).
  - reflexivity.
  - reflexivity.
  - vm_compute. reflexivity.
Defined.

(* ================================================================== *)
(** ** Dictionaries built by update *)

Lemma dict_get_set_same {V} (k : string) (v : V) (d : list (string * V)) :
  dict_get k (dict_set k v d) = Some v.
Proof.
  induction d as [|[k' v'] d IH]; simpl.
  - now rewrite String.eqb_refl.
  - destruct (String.eqb_spec k k') as [->|Hne]; simpl.
    + now rewrite String.eqb_refl.
    + destruct (String.eqb_spec k k'); [contradiction | exact IH].
Qed.

Lemma dict_get_set_other {V} (k k' : string) (v : V) (d : list (string * V)) :
  k <> k' -> dict_get k (dict_set k' v d) = dict_get k d.
Proof.
  intro Hne. induction d as [|[k0 v0] d IH]; simpl.
  - destruct (String.eqb_spec k k'); [contradiction | reflexivity].
  - destruct (String.eqb_spec k' k0) as [->|Hne0]; simpl.
    + destruct (String.eqb_spec k k0); [contradiction | reflexivity].
    + destruct (String.eqb_spec k k0); [reflexivity | exact IH].
Qed.

Lemma dict_get_app {V} (k : string) (d e : list (string * V)) :
  dict_get k (d ++ e) = match dict_get k d with
                        | Some v => Some v
                        | None => dict_get k e
                        end.
Proof.
  induction d as [|[k' v'] d IH]; simpl; [reflexivity|].
  destruct (k =? k')%string; [reflexivity | exact IH].
Qed.

Lemma dict_get_notin {V} (k : string) (d : list (string * V)) :
  ~ In k (map fst d) -> dict_get k d = None.
Proof.
  induction d as [|[k' v'] d IH]; simpl; [reflexivity|]. intro H.
  destruct (String.eqb_spec k k') as [->|_]; [exfalso; auto | auto].
Qed.

Lemma dict_get_in {V} (k : string) (v : V) (d : list (string * V)) :
  NoDup (map fst d) -> In (k, v) d -> dict_get k d = Some v.
Proof.
  induction d as [|[k' v'] d IH]; simpl; [intros _ []|].
  intros Hnd [Heq|Hin]; inversion Hnd as [|? ? Hnotin Hnd']; subst.
  - injection Heq as -> ->. now rewrite String.eqb_refl.
  - destruct (String.eqb_spec k k') as [->|_]; [|auto].
    exfalso. apply Hnotin. apply (in_map fst) in Hin. exact Hin.
Qed.

(** After [d.update(pairs)] a key holds the value of its last pair, or
    what it held before. *)
Lemma dict_get_update {V} (k : string) (d pairs : list (string * V)) :
  dict_get k (dict_update d pairs) = match dict_get k (rev pairs) with
                                     | Some v => Some v
                                     | None => dict_get k d
                                     end.
Proof.
  unfold dict_update. revert d. induction pairs as [|[k' v'] pairs IH]; intro d; simpl.
  - reflexivity.
  - rewrite IH, dict_get_app. destruct (dict_get k (rev pairs)); [reflexivity|]. simpl.
    destruct (String.eqb_spec k k') as [->|Hne].
    + apply dict_get_set_same.
    + now apply dict_get_set_other.
Qed.

Lemma dict_get_update_in {V} (k : string) (v : V) (d pairs : list (string * V)) :
  NoDup (map fst pairs) -> In (k, v) pairs -> dict_get k (dict_update d pairs) = Some v.
Proof.
  intros Hnd Hin. rewrite dict_get_update.
  rewrite (dict_get_in k v (rev pairs)); [reflexivity | | now apply in_rev in Hin].
  rewrite map_rev. now apply NoDup_rev.
Qed.

Lemma dict_get_update_notin {V} (k : string) (d pairs : list (string * V)) :
  ~ In k (map fst pairs) -> dict_get k (dict_update d pairs) = dict_get k d.
Proof.
  intro H. rewrite dict_get_update, dict_get_notin; [reflexivity|].
  rewrite map_rev. intro Hin. apply H. now apply in_rev.
Qed.

Lemma dict_set_nonempty {V} (k : string) (v : V) (d : list (string * V)) :
  nonempty (dict_set k v d) = true.
Proof. destruct d as [|[k' v'] d]; simpl; [|destruct (k =? k')%string]; reflexivity. Qed.

Lemma dict_update_nonempty {V} (d pairs : list (string * V)) :
  nonempty d = true -> nonempty (dict_update d pairs) = true.
Proof.
  unfold dict_update. revert d. induction pairs as [|p pairs IH]; intros d H; simpl.
  - exact H.
  - apply IH, dict_set_nonempty.
Qed.

Lemma dict_of_nonempty {V} (p : string * V) (pairs : list (string * V)) :
  nonempty (dict_of (p :: pairs)) = true.
Proof. unfold dict_of. simpl. apply (dict_update_nonempty [(fst p, snd p)]). reflexivity. Qed.

(* ================================================================== *)
(** ** Combining runtime mappings, the metrics block, rendering rows *)

Lemma _combine_mappings_from_app (acc : list (string * value)) (ms ms' : list value) :
  _combine_mappings_from acc (ms ++ ms') =
  (r <- _combine_mappings_from acc ms ;; _combine_mappings_from r ms')%result.
Proof.
  revert acc. induction ms as [|m ms IH]; intro acc; simpl; [reflexivity|].
  destruct (truthy m); [|apply IH]. destruct m; try reflexivity. apply IH.
Qed.

(** X1: [_combine_mappings] lets a later mapping override the keys it
    shares with earlier ones and leaves every other key as combined so
    far. *)
Theorem combine_mappings_last_wins :
  forall (mappings : list value) (combined d : list (string * value)),
    _combine_mappings mappings = Ok combined ->
    NoDup (map fst d) ->
    exists all,
      _combine_mappings (mappings ++ [VDict d]) = Ok all /\
      (forall k v, In (k, v) d -> dict_get k all = Some v) /\
      (forall k, ~ In k (map fst d) -> dict_get k all = dict_get k combined).
Proof.
  intros mappings combined d Hc Hnd. unfold _combine_mappings in *.
  rewrite _combine_mappings_from_app, Hc. simpl.
  destruct d as [|p d'].
  - exists combined. simpl. split; [reflexivity|]. split; [intros k v []|reflexivity].
  - exists (dict_update combined (p :: d')). split; [reflexivity|]. split.
    + intros k v Hin. now apply dict_get_update_in.
    + intros k Hk. now apply dict_get_update_notin.
Qed.

Lemma combine_mappings_last_wins_witness :
  exists all,
    _combine_mappings ([VNone; VDict [("date_dayofweek", VStr "old"); ("x", VInt 1)]]
                       ++ [VDict [("date_dayofweek", VStr "new")]]) = Ok all /\
    (forall k v, In (k, v) [("date_dayofweek", VStr "new")] -> dict_get k all = Some v) /\
    (forall k, ~ In k (map fst [("date_dayofweek", VStr "new")]) ->
               dict_get k all = dict_get k [("date_dayofweek", VStr "old"); ("x", VInt 1)]).
Proof.
  apply (combine_mappings_last_wins
           [VNone; VDict [("date_dayofweek", VStr "old"); ("x", VInt 1)]]
           [("date_dayofweek", VStr "old"); ("x", VInt 1)]
           [("date_dayofweek", VStr "new")]).
  - reflexivity.
  - simpl. repeat constructor. simpl. tauto.
Defined.

(** X2: when the aggregations have distinct names, the metrics block
    [aggregation_dsl] sends holds, under the name of each aggregation,
    its function applied to its field. *)
Theorem aggregation_dsl_holds_every_metric :
  forall (aggregations : list BoundAggregation.t) (a : BoundAggregation.t),
    NoDup (map BoundAggregation.name aggregations) ->
    In a aggregations ->
    py_getitem (aggregation_dsl aggregations) (BoundAggregation.name a) =
    Ok (VDict [(BoundAggregation.function a,
                VDict [("field", VStr (BoundAggregation.field a))])]).
Proof.
  intros aggregations a Hnd Hin. unfold aggregation_dsl, py_getitem, dict_of.
  rewrite (dict_get_update_in (BoundAggregation.name a)
             (VDict [(BoundAggregation.function a,
                      VDict [("field", VStr (BoundAggregation.field a))])])).
  - reflexivity.
  - rewrite map_map. exact Hnd.
  - apply (in_map BoundAggregation.dsl_item) in Hin. exact Hin.
Qed.

Lemma as_dicts_columns (self : AggregateResult.t) :
  AggregateResult.as_dicts self =
  map (fun row => VDict (dict_of (combine (column_names self) row)))
      (AggregateResult.data self).
Proof.
  unfold AggregateResult.as_dicts, column_names.
  destruct (AggregateResult.aggregations self) as [|a l].
  - reflexivity.
  - now rewrite <- app_assoc.
Qed.

Lemma nth_error_combine {A B} (l : list A) (m : list B) (j : nat) (a : A) (b : B) :
  nth_error l j = Some a -> nth_error m j = Some b ->
  nth_error (combine l m) j = Some (a, b).
Proof.
  revert m j. induction l as [|x l IH]; intros [|y m] [|j]; simpl; try discriminate.
  - intros [= ->] [= ->]. reflexivity.
  - apply IH.
Qed.

Lemma NoDup_combine_keys {B} (keys : list string) (row : list B) :
  NoDup keys -> NoDup (map fst (combine keys row)).
Proof.
  revert row. induction keys as [|k keys IH]; intros [|v row] Hnd; simpl;
    try constructor.
  - inversion Hnd as [|? ? Hnotin _]; subst. intro Hin. apply Hnotin.
    apply in_map_iff in Hin. destruct Hin as [[k' v'] [Hk Hin]]. simpl in Hk. subst.
    eapply in_combine_l; eauto.
  - inversion Hnd; subst. auto.
Qed.

Lemma combine_app_same {A B} (l1 l2 : list A) (m1 m2 : list B) :
  List.length l1 = List.length m1 ->
  combine (l1 ++ l2) (m1 ++ m2) = (combine l1 m1 ++ combine l2 m2)%list.
Proof.
  revert m1. induction l1 as [|x l1 IH]; intros [|y m1]; simpl; try discriminate.
  - reflexivity.
  - intros [= H]. now rewrite IH.
Qed.

(** X3: in a row mapping of [as_dicts], when the column names are
    pairwise distinct, the name of column [j] holds cell [j] of the
    row. *)
Theorem as_dicts_maps_column_to_cell :
  forall (self : AggregateResult.t) (r j : nat) (row : list value) (k : string) (v : value),
    NoDup (column_names self) ->
    nth_error (AggregateResult.data self) r = Some row ->
    nth_error (column_names self) j = Some k ->
    nth_error row j = Some v ->
    exists d, nth_error (AggregateResult.as_dicts self) r = Some d /\
              py_getitem d k = Ok v.
Proof.
  intros self r j row k v Hnd Hrow Hk Hv.
  exists (VDict (dict_of (combine (column_names self) row))). split.
  - rewrite as_dicts_columns, nth_error_map, Hrow. reflexivity.
  - unfold py_getitem, dict_of.
    rewrite (dict_get_update_in k v); [reflexivity | now apply NoDup_combine_keys |].
    eapply nth_error_In, nth_error_combine; eauto.
Qed.

(** X4: the count column of a row mapping of [as_dicts] holds the count
    whenever no aggregation carries its name, also when an axis does:
    the value of such an axis is then missing from the mapping. *)
Theorem as_dicts_count_column_holds_count :
  forall (self : AggregateResult.t) (r : nat) (row : list value),
    nth_error (AggregateResult.data self) r = Some row ->
    List.length row = List.length (column_names self) ->
    ~ In (AggregateResult.count_column self)
         (map BoundAggregation.name (AggregateResult.aggregations self)) ->
    exists d n,
      nth_error (AggregateResult.as_dicts self) r = Some d /\
      nth_error row (List.length (AggregateResult.axes self)) = Some n /\
      py_getitem d (AggregateResult.count_column self) = Ok n.
Proof.
  intros self r row Hrow Hlen Hfree.
  set (cc := AggregateResult.count_column self) in *.
  set (A := map BoundAxis.name (AggregateResult.axes self)).
  set (G := map BoundAggregation.name (AggregateResult.aggregations self)) in *.
  assert (Hcols : column_names self = (A ++ cc :: G)%list) by reflexivity.
  rewrite Hcols in Hlen. rewrite length_app in Hlen. simpl in Hlen.
  assert (HA : List.length (AggregateResult.axes self) = List.length A)
    by (unfold A; now rewrite length_map).
  destruct (skipn (List.length A) row) as [|n rg] eqn:Hskip.
  { apply (f_equal (@List.length value)) in Hskip. rewrite length_skipn in Hskip.
    simpl in Hskip. lia. }
  assert (Hsplit : row = (firstn (List.length A) row ++ n :: rg)%list).
  { rewrite <- Hskip. symmetry. apply firstn_skipn. }
  exists (VDict (dict_of (combine (column_names self) row))), n. split; [|split].
  - rewrite as_dicts_columns, nth_error_map, Hrow. reflexivity.
  - rewrite HA, Hsplit, nth_error_app2; rewrite length_firstn; [|lia].
    replace (List.length A - Nat.min (List.length A) (List.length row))%nat with 0%nat by lia.
    reflexivity.
  - unfold py_getitem, dict_of. rewrite dict_get_update, Hcols. rewrite Hsplit at 1.
    rewrite combine_app_same by (rewrite length_firstn; lia).
    simpl combine. rewrite rev_app_distr. simpl rev. rewrite <- app_assoc.
    rewrite dict_get_app, dict_get_notin.
    + simpl. now rewrite String.eqb_refl.
    + rewrite map_rev. intro Hin. apply in_rev in Hin. apply Hfree.
      apply in_map_iff in Hin. destruct Hin as [[k' v'] [Hk Hin]]. simpl in Hk. subst k'.
      eapply in_combine_l; eauto.
Qed.

(* ================================================================== *)
(** ** The field cache *)

Lemma dict_set_twice {V} (k : string) (v : V) (d : list (string * V)) :
  dict_set k v (dict_set k v d) = dict_set k v d.
Proof.
  induction d as [|[k' v'] d IH]; simpl.
  - now rewrite String.eqb_refl.
  - destruct (String.eqb_spec k k') as [->|Hne]; simpl.
    + now rewrite String.eqb_refl.
    + destruct (String.eqb_spec k k'); [contradiction | now rewrite IH].
Qed.

Lemma dict_get_remove_same {V} (k : string) (d : list (string * V)) :
  dict_get k (dict_remove k d) = None.
Proof.
  induction d as [|[k' v'] d IH]; simpl; [reflexivity|].
  destruct (String.eqb_spec k k') as [->|Hne]; [exact IH|]. simpl.
  destruct (String.eqb_spec k k'); [contradiction | exact IH].
Qed.

Lemma dict_get_remove_other {V} (k j : string) (d : list (string * V)) :
  j <> k -> dict_get j (dict_remove k d) = dict_get j d.
Proof.
  intro Hne. induction d as [|[k' v'] d IH]; simpl; [reflexivity|].
  destruct (String.eqb_spec k k') as [<-|Hk]; simpl.
  - destruct (String.eqb_spec j k); [contradiction | exact IH].
  - destruct (j =? k')%string; [reflexivity | exact IH].
Qed.

Section FieldCache.
Variable respond : backend.

(** A truthy cache entry is returned as it is. *)
Lemma run_get_index_fields_hit (index : string) (w : world) :
  truthy (cached_fields index w) = true ->
  run respond (get_index_fields index) w = (Ok (cached_fields index w), w).
Proof.
  intro H. unfold get_index_fields, cache_get. cbn [bind run].
  fold (cached_fields index w). rewrite H. reflexivity.
Qed.

(** Without one, the mapping is requested and what it holds is stored. *)
Lemma run_get_index_fields_miss (index : string) (w : world) :
  truthy (cached_fields index w) = false ->
  run respond (get_index_fields index) w =
  match respond (calls w) (get_mapping_call index) with
  | Ok r =>
      let w1 := {| FIELD_CACHE := FIELD_CACHE w;
                   calls := calls w ++ [(get_mapping_call index, Ok r)] |} in
      match mapping_fields index r with
      | Ok fields =>
          (Ok (VDict (dict_of fields)),
           {| FIELD_CACHE := dict_set index (VDict (dict_of fields)) (FIELD_CACHE w);
              calls := calls w1 |})
      | Err e => (Err e, w1)
      end
  | Err e => (Err e, {| FIELD_CACHE := FIELD_CACHE w;
                        calls := calls w ++ [(get_mapping_call index, Err e)] |})
  end.
Proof.
  intro H. unfold get_index_fields, cache_get, _get_fields, es_call. cbn [bind run].
  fold (cached_fields index w). rewrite H. cbn [bind run].
  fold (get_mapping_call index).
  destruct (respond (calls w) (get_mapping_call index)) as [r|e]; [|reflexivity].
  fold (mapping_fields index r).
  destruct (mapping_fields index r) as [fields|e]; reflexivity.
Qed.

End FieldCache.

(** X5: the first lookup of an index with at least one field asks the
    backend once and fills the cache; a second lookup returns the same
    fields without a round trip. *)
Theorem field_cache_serves_second_lookup :
  forall (respond : backend) (index : string) (w : world) (r : value)
         (fields : list (string * value)),
    truthy (cached_fields index w) = false ->
    respond (calls w) (get_mapping_call index) = Ok r ->
    mapping_fields index r = Ok fields ->
    nonempty fields = true ->
    run respond (a <- get_index_fields index ;;
                 b <- get_index_fields index ;;
                 Ret (a, b))%prog w =
    (Ok (VDict (dict_of fields), VDict (dict_of fields)),
     {| FIELD_CACHE := dict_set index (VDict (dict_of fields)) (FIELD_CACHE w);
        calls := calls w ++ [(get_mapping_call index, Ok r)] |}).
Proof.
  intros respond index w r fields Hmiss Hr Hfields Hne.
  rewrite run_bind, run_get_index_fields_miss, Hr by exact Hmiss.
  cbn zeta. rewrite Hfields. rewrite run_bind, run_get_index_fields_hit.
  - unfold cached_fields. cbn [FIELD_CACHE]. rewrite dict_get_set_same. reflexivity.
  - unfold cached_fields. cbn [FIELD_CACHE]. rewrite dict_get_set_same.
    destruct fields as [|p fields]; [discriminate|].
    exact (dict_of_nonempty p fields).
Qed.

(** X6: an index without fields is never served from the cache: its
    entry is the empty dict, which the lookup takes for a miss, so
    every lookup asks the backend again. *)
Theorem field_cache_misses_empty_index :
  forall (respond : backend) (index : string) (w : world) (r1 r2 : value),
    truthy (cached_fields index w) = false ->
    respond (calls w) (get_mapping_call index) = Ok r1 ->
    mapping_fields index r1 = Ok [] ->
    respond (calls w ++ [(get_mapping_call index, Ok r1)])%list (get_mapping_call index)
    = Ok r2 ->
    mapping_fields index r2 = Ok [] ->
    run respond (a <- get_index_fields index ;;
                 b <- get_index_fields index ;;
                 Ret (a, b))%prog w =
    (Ok (VDict [], VDict []),
     {| FIELD_CACHE := dict_set index (VDict []) (FIELD_CACHE w);
        calls := calls w ++ [(get_mapping_call index, Ok r1);
                             (get_mapping_call index, Ok r2)] |}).
Proof.
  intros respond index w r1 r2 Hmiss Hr1 Hf1 Hr2 Hf2.
  rewrite run_bind, run_get_index_fields_miss, Hr1 by exact Hmiss.
  cbn zeta. rewrite Hf1. rewrite run_bind, run_get_index_fields_miss.
  - cbn [calls FIELD_CACHE]. rewrite Hr2. cbn zeta. rewrite Hf2.
    cbn [calls FIELD_CACHE run]. rewrite dict_set_twice, <- app_assoc. reflexivity.
  - unfold cached_fields. cbn [FIELD_CACHE]. rewrite dict_get_set_same. reflexivity.
Qed.

(** X7: after [invalidate_field_cache(index)] the cache has no entry for
    [index] and the entries of all other indices are as before; the
    next lookup of [index] therefore asks the backend, whatever was
    cached. *)
Theorem invalidate_forces_fresh_lookup :
  forall (respond : backend) (index : string) (w : world),
    cached_fields index (invalidate_field_cache index w) = VNone /\
    (forall other, other <> index ->
       cached_fields other (invalidate_field_cache index w) = cached_fields other w) /\
    calls (snd (run respond (get_index_fields index) (invalidate_field_cache index w)))
    = (calls w ++ [(get_mapping_call index, respond (calls w) (get_mapping_call index))])%list.
Proof.
  intros respond index w.
  assert (Hnone : cached_fields index (invalidate_field_cache index w) = VNone).
  { unfold cached_fields, invalidate_field_cache. cbn [FIELD_CACHE].
    now rewrite dict_get_remove_same. }
  split; [exact Hnone|]. split.
  - intros other Hne. unfold cached_fields, invalidate_field_cache. cbn [FIELD_CACHE].
    now rewrite dict_get_remove_other.
  - rewrite run_get_index_fields_miss by now rewrite Hnone.
    cbn [invalidate_field_cache calls].
    destruct (respond (calls w) (get_mapping_call index)) as [r|e]; [|reflexivity].
    cbn zeta. destruct (mapping_fields index r); reflexivity.
Qed.

(* ================================================================== *)
(** ** Binding against a cached index *)

Section WarmBinding.
Variable respond : backend.

Lemma run_BoundAxis_init_warm (index : string) (d : list (string * value)) (axis : Axis.t)
      (w : world) :
  cached_fields index w = VDict d -> nonempty d = true ->
  run respond (BoundAxis.init axis (IndexStr index)) w =
  (match cached_ftype d axis with
   | Ok ftype => Ok {| BoundAxis.axis := axis; BoundAxis.index := IndexStr index;
                       BoundAxis.ftype := ftype |}
   | Err e => Err e
   end, w).
Proof.
  intros Hc Hne. unfold BoundAxis.init, cached_ftype. rewrite run_bind.
  destruct (Axis.field axis =? "_query")%string; [reflexivity|].
  unfold field_type. rewrite run_bind. cbn [get_fields].
  rewrite run_get_index_fields_hit, Hc; [|rewrite Hc; exact Hne].
  rewrite run_lift.
  destruct (f <- py_getitem (VDict d) (Axis.field axis);; py_getitem f "type")%result;
    reflexivity.
Qed.

Lemma run_bind_axes_warm (index : string) (d : list (string * value)) (axes : list Axis.t)
      (w : world) :
  cached_fields index w = VDict d -> nonempty d = true ->
  run respond (bind_axes (IndexStr index) (Some axes)) w =
  (match rmapM (cached_ftype d) axes with
   | Ok ftypes => Ok (bound_axes (IndexStr index) axes ftypes)
   | Err e => Err e
   end, w).
Proof.
  intros Hc Hne.
  assert (H : forall l,
             run respond (mapM (fun axis => BoundAxis.init axis (IndexStr index)) l) w =
             (match rmapM (cached_ftype d) l with
              | Ok ftypes => Ok (bound_axes (IndexStr index) l ftypes)
              | Err e => Err e
              end, w)).
  { induction l as [|a l IH]; cbn [mapM rmapM]; [reflexivity|].
    rewrite run_bind, (run_BoundAxis_init_warm index d a w Hc Hne).
    destruct (cached_ftype d a) as [ftype|e]; [|reflexivity]. cbn [rbind].
    rewrite run_bind, IH.
    destruct (rmapM (cached_ftype d) l) as [ftypes|e]; reflexivity. }
  destruct axes as [|a l]; [reflexivity | apply H].
Qed.

End WarmBinding.

Lemma rmapM_app_err {A B} (f : A -> result B) (l1 l2 : list A) (bs : list B) (a : A)
      (e : exn) :
  rmapM f l1 = Ok bs -> f a = Err e -> rmapM f (l1 ++ a :: l2) = Err e.
Proof.
  revert bs. induction l1 as [|x l1 IH]; intros bs; simpl.
  - intros _ ->. reflexivity.
  - destruct (f x); [|discriminate]. simpl.
    destruct (rmapM f l1) as [bs1|]; [|discriminate]. intros _ Ha.
    now rewrite (IH bs1 eq_refl Ha).
Qed.

(** X8: when the fields of the index are in the cache, binding the axes
    makes no round trip and changes nothing: it returns one bound axis
    per axis, in order, with the cached type of its field, and the type
    ["_query"] for a [_query] axis, whose field is never looked up. *)
Theorem binding_on_cached_index_is_local :
  forall (respond : backend) (index : string) (d : list (string * value))
         (axes : list Axis.t) (ftypes : list value) (w : world),
    cached_fields index w = VDict d ->
    nonempty d = true ->
    rmapM (cached_ftype d) axes = Ok ftypes ->
    run respond (bind_axes (IndexStr index) (Some axes)) w =
    (Ok (bound_axes (IndexStr index) axes ftypes), w).
Proof.
  intros respond index d axes ftypes w Hc Hne Hft.
  rewrite (run_bind_axes_warm respond index d axes w Hc Hne), Hft. reflexivity.
Qed.

Lemma binding_on_cached_index_is_local_witness :
  run (scripted []) (bind_axes (IndexStr "idx")
                       (Some [Axis.init "i" None None; Axis.init "_query" None None]))
      warm_world =
  (Ok (bound_axes (IndexStr "idx")
                  [Axis.init "i" None None; Axis.init "_query" None None]
                  [VStr "long"; VStr "_query"]), warm_world).
Proof.
  apply (binding_on_cached_index_is_local (scripted []) "idx"
           [("i", VDict [("name", VStr "i"); ("type", VStr "long")])]
           [Axis.init "i" None None; Axis.init "_query" None None]
           [VStr "long"; VStr "_query"] warm_world); reflexivity.
Defined.

(** X9: an axis over a field the index does not have makes
    [query_aggregate] raise [KeyError] with the name of the field while
    binding: no aggregation is bound and no search or count is
    requested. *)
Theorem unknown_axis_field_raises_KeyError :
  forall (respond : backend) interval_mapping build_body _normalize_queries depth
         (index : string) (d : list (string * value)) (known rest : list Axis.t)
         (axis : Axis.t) (ftypes : list value) aggregations queries filters (w : world),
    cached_fields index w = VDict d ->
    nonempty d = true ->
    rmapM (cached_ftype d) known = Ok ftypes ->
    Axis.field axis <> "_query" ->
    dict_get (Axis.field axis) d = None ->
    (List.length (known ++ axis :: rest)%list <= 2)%nat ->
    run respond (query_aggregate interval_mapping build_body _normalize_queries depth
                   (IndexStr index) (Some (known ++ axis :: rest)%list) aggregations queries
                   filters) w =
    (Err (KeyError (Axis.field axis)), w).
Proof.
  intros respond im bb nq depth index d known rest axis ftypes aggregations queries filters
         w Hc Hne Hknown Hq Hmissing Hlen.
  unfold query_aggregate.
  assert (Hguard : too_many_query_axes (Some (known ++ axis :: rest)%list) = false).
  { destruct (known ++ axis :: rest)%list as [|a [|b [|c l]]]; try reflexivity.
    simpl in Hlen. lia. }
  rewrite Hguard. unfold query_aggregate_body.
  rewrite run_bind, (run_bind_axes_warm respond index d _ w Hc Hne).
  rewrite (rmapM_app_err _ known rest ftypes axis (KeyError (Axis.field axis)) Hknown);
    [reflexivity|].
  unfold cached_ftype. destruct (String.eqb_spec (Axis.field axis) "_query");
    [contradiction|].
  unfold py_getitem. now rewrite Hmissing.
Qed.

Lemma unknown_axis_field_raises_KeyError_witness :
  run (scripted [])
      (sample_query_aggregate
         (Some ([Axis.init "i" None None] ++ Axis.init "author" None None :: [])%list)
         None QueriesNone VNone) warm_world
  = (Err (KeyError "author"), warm_world).
Proof.
  apply (unknown_axis_field_raises_KeyError (scripted []) sample_interval_mapping
           sample_build_body sample_normalize_queries 1000 "idx"
           [("i", VDict [("name", VStr "i"); ("type", VStr "long")])]
           [Axis.init "i" None None] [] (Axis.init "author" None None) [VStr "long"]
           None QueriesNone VNone warm_world);
    first [reflexivity | discriminate | simpl; lia].
Defined.

(* ================================================================== *)
(** ** Column types and their mappings *)

(** X10: for every column type of [ES_MAPPINGS], the type that
    [_get_type_from_property] reads back from the mapping
    [get_mapping] returns for it is the column type itself, and the
    table is left as it was. *)
Theorem column_type_read_back_from_mapping :
  forall (t : string),
    In t (map fst ES_MAPPINGS) ->
    exists mapping,
      get_mapping ES_MAPPINGS (VStr t) = Ok (mapping, ES_MAPPINGS) /\
      _get_type_from_property mapping = Ok (VStr t).
Proof.
  intros t Hin. simpl in Hin.
  repeat (destruct Hin as [<-|Hin]; [eexists; split; reflexivity|]).
  destruct Hin.
Qed.

Lemma column_type_read_back_from_mapping_witness :
  exists mapping,
    get_mapping ES_MAPPINGS (VStr "tag") = Ok (mapping, ES_MAPPINGS) /\
    _get_type_from_property mapping = Ok (VStr "tag").
Proof.
  apply (column_type_read_back_from_mapping "tag"). simpl. tauto.
Defined.

(** X11: [get_mapping] with a dict changes the table entry of the type
    it names: the entry gets the [meta] of the request merged into its
    own, and a later [get_mapping] of the plain type name returns that
    changed mapping. *)
Theorem get_mapping_with_meta_changes_table :
  forall (table : list (string * value)) (t : string)
         (request entries meta0 md : list (string * value)),
    dict_get "type" request = Some (VStr t) ->
    dict_get "meta" request = Some (VDict md) ->
    nonempty md = true ->
    dict_get t table = Some (VDict entries) ->
    py_get (VDict entries) "meta" (VDict []) = Ok (VDict meta0) ->
    let changed := VDict (dict_set "meta" (VDict (dict_update meta0 md)) entries) in
    get_mapping table (VDict request) = Ok (changed, dict_set t changed table) /\
    get_mapping (dict_set t changed table) (VStr t) = Ok (changed, dict_set t changed table).
Proof.
  intros table t request entries meta0 md Hty Hmeta Hne Hentry Hm0 changed.
  split.
  - unfold get_mapping. unfold py_getitem at 1. rewrite Hty. cbn [rbind table_getitem].
    unfold py_getitem at 1. rewrite Hentry. cbn [rbind]. rewrite Hm0. cbn [rbind].
    unfold py_get at 1. rewrite Hmeta. cbn [rbind truthy].
    destruct md as [|p md]; [discriminate|]. reflexivity.
  - unfold get_mapping, py_getitem. now rewrite dict_get_set_same.
Qed.

Lemma get_mapping_with_meta_changes_table_witness :
  let changed := VDict [("type", VStr "keyword");
                        ("meta", VDict [("amcat4_type", VStr "tag")])] in
  get_mapping ES_MAPPINGS (VDict [("type", VStr "keyword");
                                  ("meta", VDict [("amcat4_type", VStr "tag")])])
  = Ok (changed, dict_set "keyword" changed ES_MAPPINGS) /\
  get_mapping (dict_set "keyword" changed ES_MAPPINGS) (VStr "keyword")
  = Ok (changed, dict_set "keyword" changed ES_MAPPINGS).
Proof.
  apply (get_mapping_with_meta_changes_table ES_MAPPINGS "keyword"
           [("type", VStr "keyword"); ("meta", VDict [("amcat4_type", VStr "tag")])]
           [("type", VStr "keyword")] [] [("amcat4_type", VStr "tag")]);
    reflexivity.
Defined.

(* ================================================================== *)
(** ** Fields of several indices *)

Lemma merge_field_other (f g : string) (y : value) (acc : list (string * value)) :
  f <> g -> dict_get f (merge_field acc (g, y)) = dict_get f acc.
Proof.
  intro Hne. unfold merge_field.
  destruct (dict_get g acc) as [known|].
  - destruct (negb (py_eqb known y)); [now apply dict_get_set_other | reflexivity].
  - now apply dict_get_set_other.
Qed.

Lemma merge_field_same (f : string) (y : value) (acc : list (string * value)) :
  dict_get f (merge_field acc (f, y)) =
  Some match dict_get f acc with
       | Some x => if py_eqb x y then x else merged_descriptor f
       | None => y
       end.
Proof.
  unfold merge_field. destruct (dict_get f acc) as [x|] eqn:Hx.
  - destruct (py_eqb x y); simpl; [exact Hx | apply dict_get_set_same].
  - apply dict_get_set_same.
Qed.

(** What the merge loop leaves under the name of a field. *)
Lemma fold_merge_field (f : string) (items acc : list (string * value)) :
  NoDup (map fst items) ->
  dict_get f (fold_left merge_field items acc) =
  match dict_get f items with
  | Some y => Some match dict_get f acc with
                   | Some x => if py_eqb x y then x else merged_descriptor f
                   | None => y
                   end
  | None => dict_get f acc
  end.
Proof.
  revert acc. induction items as [|[g y] items IH]; intros acc Hnd;
    cbn [fold_left dict_get]; [reflexivity|].
  cbn [map fst] in Hnd. inversion Hnd as [|? ? Hnotin Hnd']; subst. rewrite (IH _ Hnd').
  destruct (String.eqb_spec f g) as [->|Hne].
  - rewrite (dict_get_notin g items Hnotin). apply merge_field_same.
  - rewrite (merge_field_other f g y acc Hne). reflexivity.
Qed.

(** X12: [get_fields] over two cached indices keeps a field that only
    one of them has, keeps a field on whose descriptor they agree, and
    replaces a field on which they disagree by a [keyword] descriptor
    marked as merged; it makes no round trip. *)
Theorem get_fields_merges_two_indices :
  forall (respond : backend) (a b : string) (da db : list (string * value)) (w : world),
    cached_fields a w = VDict da -> nonempty da = true ->
    cached_fields b w = VDict db -> nonempty db = true ->
    NoDup (map fst da) -> NoDup (map fst db) ->
    exists merged,
      run respond (get_fields (IndexList [a; b])) w = (Ok (VDict merged), w) /\
      forall f,
        dict_get f merged =
        match dict_get f da, dict_get f db with
        | Some x, Some y => Some (if py_eqb x y then x else merged_descriptor f)
        | Some x, None => Some x
        | None, other => other
        end.
Proof.
  intros respond a b da db w Ha Hna Hb Hnb Hda Hdb.
  exists (fold_left merge_field db (fold_left merge_field da [])). split.
  - cbn [get_fields get_fields_merge].
    rewrite run_bind, run_get_index_fields_hit, Ha by (rewrite Ha; exact Hna).
    cbn [py_items lift bind].
    rewrite run_bind, run_get_index_fields_hit, Hb by (rewrite Hb; exact Hnb).
    reflexivity.
  - intro f. rewrite (fold_merge_field f db _ Hdb), (fold_merge_field f da [] Hda).
    simpl. destruct (dict_get f da), (dict_get f db); reflexivity.
Qed.

(* ================================================================== *)
(** ** Which cache entries a program writes *)

Lemma writes_only_bind {Y A B} keys (p : prog Y A) (f : A -> prog Y B) :
  writes_only keys p -> (forall a, writes_only keys (f a)) -> writes_only keys (bind p f).
Proof.
  intros Hp Hf. induction p as [a|e|y k IH|c k IH|i k IH|i v k IH]; simpl in *; auto.
  destruct Hp. split; auto.
Qed.

Lemma writes_only_lift {Y A} keys (r : result A) : writes_only keys (@lift Y A r).
Proof. destruct r; exact I. Qed.

Lemma writes_only_yield_from {Y} keys (l : list Y) : writes_only keys (yield_from l).
Proof. induction l; simpl; auto. Qed.

Lemma writes_only_for_list {X Y} keys (l : list X) (body : X -> prog Y unit) :
  (forall x, writes_only keys (body x)) -> writes_only keys (for_list l body).
Proof. intro H. induction l; simpl; [exact I | apply writes_only_bind; auto]. Qed.

Lemma writes_only_for_each {Y Z} keys (g : prog Y unit) (body : Y -> prog Z unit) :
  writes_only keys g -> (forall y, writes_only keys (body y)) ->
  writes_only keys (for_each g body).
Proof.
  intros Hg Hb. induction g as [a|e|y k IH|c k IH|i k IH|i v k IH]; simpl in *; auto.
  - apply writes_only_bind; auto.
  - destruct Hg. split; auto.
Qed.

Lemma writes_only_collect {Y Z} keys (g : prog Y unit) :
  writes_only keys g -> writes_only keys (@collect Y Z g).
Proof.
  intro Hg. induction g as [a|e|y k IH|c k IH|i k IH|i v k IH]; simpl in *; auto.
  - apply writes_only_bind; simpl; auto.
  - destruct Hg. split; auto.
Qed.

Lemma writes_only_mapM {X Y B} keys (f : X -> prog Y B) (l : list X) :
  (forall x, writes_only keys (f x)) -> writes_only keys (mapM f l).
Proof.
  intro H. induction l; simpl; [exact I|].
  apply writes_only_bind; [auto|]. intro b. apply writes_only_bind; simpl; auto.
Qed.

Ltac writes_step :=
  match goal with
  | |- writes_only _ (bind _ _) => apply writes_only_bind; [|intro]
  | |- writes_only _ (lift _) => apply writes_only_lift
  | |- writes_only _ (es_call _ _) => intro; exact I
  | |- writes_only _ (EsCall _ _) => intro
  | |- writes_only _ (yield_from _) => apply writes_only_yield_from
  | |- writes_only _ (if ?b then _ else _) => destruct b
  | |- writes_only _ (Ret _) => exact I
  | |- writes_only _ (Raise _) => exact I
  | |- writes_only _ (yield _) => exact I
  | |- writes_only _ (cache_get _) => intro; exact I
  end.

Lemma writes_only_get_index_fields {Y} keys (index : string) :
  In index keys -> writes_only keys (@get_index_fields Y index).
Proof.
  intro Hin. unfold get_index_fields, _get_fields. repeat writes_step.
  simpl. auto.
Qed.

Lemma writes_only_field_type {Y} (index : index_arg) (field_name : string) :
  writes_only (index_names index) (@field_type Y index field_name).
Proof.
  unfold field_type. apply writes_only_bind; [|intro; apply writes_only_lift].
  destruct index as [s|l]; cbn [get_fields index_names].
  - apply writes_only_get_index_fields. simpl. auto.
  - generalize (@nil (string * value)) as acc.
    assert (H : forall rest, incl rest l -> forall acc,
                  writes_only l (@get_fields_merge Y rest acc)).
    { induction rest as [|ix rest IH]; intros Hincl acc; cbn [get_fields_merge];
        [exact I|].
      apply writes_only_bind.
      - apply writes_only_get_index_fields. apply Hincl. simpl. auto.
      - intro fields. apply writes_only_bind; [apply writes_only_lift|]. intro items.
        apply IH. intros x Hx. apply Hincl. simpl. auto. }
    apply H. apply incl_refl.
Qed.

Section Frame.
Variable interval_mapping : option string -> option DateMapping.t.
Variable build_body : value -> value -> result value.
Variable _normalize_queries : queries_arg -> list (string * string).

Lemma writes_only__elastic_aggregate keys depth index sources queries filters aggregations
      runtime_mappings after_key :
  writes_only keys (_elastic_aggregate build_body depth index sources queries filters
                                       aggregations runtime_mappings after_key).
Proof.
  revert after_key. induction depth as [|depth IH]; intro after_key;
    cbn [_elastic_aggregate]; [exact I|].
  repeat first [writes_step | apply IH].
Qed.

Lemma writes_only__aggregate_results keys depth index axes queries filters aggregations :
  writes_only keys (_aggregate_results interval_mapping build_body depth index axes
                                       queries filters aggregations).
Proof.
  revert axes queries. induction depth as [|depth IH]; intros axes queries;
    cbn [_aggregate_results]; [exact I|].
  destruct (negb (nonempty axes)).
  - destruct (nonempty aggregations).
    + unfold _bare_aggregate. repeat writes_step.
    + repeat writes_step.
  - destruct (existsb is_query_axis axes).
    + apply writes_only_for_list. intro lq. apply writes_only_for_each; [apply IH|].
      intro; exact I.
    + repeat writes_step.
      apply writes_only_for_each; [apply writes_only__elastic_aggregate|].
      intro bucket. repeat writes_step.
Qed.

Lemma writes_only_query_aggregate {Y} depth index axes aggregations queries filters :
  writes_only (index_names index)
              (@query_aggregate interval_mapping build_body _normalize_queries Y depth
                                index axes aggregations queries filters).
Proof.
  unfold query_aggregate. destruct (too_many_query_axes axes); [exact I|].
  unfold query_aggregate_body. apply writes_only_bind.
  { destruct axes as [[|a rest]|]; cbn [bind_axes]; try exact I.
    apply (writes_only_mapM _ _ (a :: rest)). intro axis. unfold BoundAxis.init.
    apply writes_only_bind; [|intro; exact I].
    destruct (Axis.field axis =? "_query")%string;
      [exact I | apply writes_only_field_type]. }
  intro _axes. apply writes_only_bind.
  { destruct aggregations as [[|a rest]|]; cbn [bind_aggregations]; try exact I.
    apply (writes_only_mapM _ _ (a :: rest)). intro a0. unfold BoundAggregation.init.
    apply writes_only_bind; [apply writes_only_field_type | intro; exact I]. }
  intro _aggregations. apply writes_only_bind; [|intro; exact I].
  apply writes_only_collect, writes_only__aggregate_results.
Qed.
End Frame.

Lemma writes_only_run {A} (respond : backend) keys (p : prog Empty_set A) (w w' : world)
      (r : result A) :
  writes_only keys p -> run respond p w = (r, w') ->
  forall other, ~ In other keys -> cached_fields other w' = cached_fields other w.
Proof.
  revert w. induction p as [x|e|y k IH|c k IH|i k IH|i v k IH]; intros w Hp Hrun other Hother;
    simpl in *.
  - now injection Hrun as _ <-.
  - now injection Hrun as _ <-.
  - destruct y.
  - destruct (respond (calls w) c) as [v|e].
    + rewrite (IH v _ (Hp v) Hrun other Hother). reflexivity.
    + now injection Hrun as _ <-.
  - apply (IH _ w (Hp _) Hrun other Hother).
  - destruct Hp as [Hin Hk]. rewrite (IH _ Hk Hrun other Hother).
    unfold cached_fields. cbn [FIELD_CACHE]. rewrite dict_get_set_other; [reflexivity|].
    intros ->. contradiction.
Qed.

Lemma writes_nothing_run {A} (respond : backend) (p : prog Empty_set A) (w w' : world)
      (r : result A) :
  writes_only [] p -> run respond p w = (r, w') -> FIELD_CACHE w' = FIELD_CACHE w.
Proof.
  revert w. induction p as [x|e|y k IH|c k IH|i k IH|i v k IH]; intros w Hp Hrun;
    simpl in *.
  - now injection Hrun as _ <-.
  - now injection Hrun as _ <-.
  - destruct y.
  - destruct (respond (calls w) c) as [v|e].
    + rewrite (IH v _ (Hp v) Hrun). reflexivity.
    + now injection Hrun as _ <-.
  - apply (IH _ w (Hp _) Hrun).
  - destruct Hp as [[] _].
Qed.

(** X13: a call of [query_aggregate] leaves the cached fields of every
    index it was not asked about as they were, whether it returns or
    raises. *)
Theorem query_aggregate_keeps_other_cache_entries :
  forall (respond : backend) interval_mapping build_body _normalize_queries depth index
         axes aggregations queries filters (w w' : world) (r : result AggregateResult.t)
         (other : string),
    run respond (query_aggregate interval_mapping build_body _normalize_queries depth
                                 index axes aggregations queries filters) w = (r, w') ->
    ~ In other (index_names index) ->
    cached_fields other w' = cached_fields other w.
Proof.
  intros respond im bb nq depth index axes aggregations queries filters w w' r other
         Hrun Hother.
  eapply writes_only_run; eauto. apply writes_only_query_aggregate.
Qed.

(** X14: once axes and aggregations are bound, the pipeline never writes
    the field cache: draining [_aggregate_results] leaves it exactly as
    it was, on every path and whatever the backend answers. *)
Theorem pipeline_never_writes_field_cache :
  forall (respond : backend) interval_mapping build_body depth index axes queries filters
         aggregations (w w' : world) (r : result (list (list value))),
    run respond (collect (_aggregate_results interval_mapping build_body depth index axes
                                             queries filters aggregations)) w = (r, w') ->
    FIELD_CACHE w' = FIELD_CACHE w.
Proof.
  intros respond im bb depth index axes queries filters aggregations w w' r Hrun.
  eapply writes_nothing_run; eauto.
  apply writes_only_collect, writes_only__aggregate_results.
Qed.

(* ================================================================== *)
(** ** Rows of the composite path *)

Section DecodeLoop.
Variable respond : backend.

(** A loop that decodes what a generator yields, drained, when every
    value decodes. *)
Lemma collect_for_each_decode {Y Z} (g : prog Y unit) (f : Y -> result Z) (w w' : world)
      (ys : list Y) (zs : list Z) :
  run respond (collect g) w = (Ok ys, w') ->
  rmapM f ys = Ok zs ->
  run respond (collect (for_each g (fun y => z <- lift (f y) ;; yield z)%prog)) w
  = (Ok zs, w').
Proof.
  revert w ys zs. induction g as [a|e|y k IH|c k IH|i k IH|i v k IH];
    intros w ys zs Hrun Hdec; simpl in *.
  - injection Hrun as <- <-. simpl in Hdec. injection Hdec as <-. reflexivity.
  - discriminate.
  - rewrite run_bind in Hrun.
    destruct (run respond (collect k) w) as [[ys1|e] w1] eqn:R; [|discriminate].
    simpl in Hrun. injection Hrun as <- <-. simpl in Hdec.
    destruct (f y) as [z|e]; [|discriminate]. simpl in Hdec.
    destruct (rmapM f ys1) as [zs1|e] eqn:Hzs1; [|discriminate].
    injection Hdec as <-. simpl. rewrite run_bind, (IH w ys1 zs1 R Hzs1).
    reflexivity.
  - destruct (respond (calls w) c); [eauto | discriminate].
  - eauto.
  - eauto.
Qed.

(** The same loop over the buckets of a page followed by the rest of
    the pagination: the rows of the page, then the rest. *)
Lemma collect_for_each_page {Y Z} (buckets : list Y) (rest : prog Y unit)
      (f : Y -> result Z) (w : world) :
  run respond (collect (for_each (yield_from buckets ;; rest)%prog
                                 (fun y => z <- lift (f y) ;; yield z)%prog)) w =
  match rmapM f buckets with
  | Ok zs =>
      match run respond (collect (for_each rest
                                    (fun y => z <- lift (f y) ;; yield z)%prog)) w with
      | (Ok more, w') => (Ok (zs ++ more)%list, w')
      | (Err e, w') => (Err e, w')
      end
  | Err e => (Err e, w)
  end.
Proof.
  remember (run respond (collect (for_each rest
                                    (fun y => z <- lift (f y) ;; yield z)%prog)) w) as R
    eqn:HR.
  induction buckets as [|b buckets IH]; simpl.
  - rewrite <- HR. destruct R as [[more|e] w']; reflexivity.
  - destruct (f b) as [z|e]; simpl; [|reflexivity].
    rewrite run_bind, IH.
    destruct (rmapM f buckets) as [zs|e]; simpl; [|reflexivity].
    destruct R as [[more|e] w']; reflexivity.
Qed.

End DecodeLoop.

(** The composite branch of [_aggregate_results] on served pages. *)
Lemma _aggregate_results_composite :
  forall (respond : backend) interval_mapping build_body depth index
         (axes : list BoundAxis.t) queries filters aggregations
         (sources : list value) (mappings kargs : list (string * value))
         (pages : list value) (rows : list (list value)) (w : world),
    nonempty axes = true ->
    existsb is_query_axis axes = false ->
    rmapM (BoundAxis.query interval_mapping) axes = Ok sources ->
    _combine_mappings (map (BoundAxis.runtime_mappings interval_mapping) axes)
    = Ok mappings ->
    query_kargs build_body queries filters = Ok kargs ->
    page_sequence pages = true ->
    serves respond (calls w)
           (page_events (page_request index (VList sources) aggregations (VDict mappings)
                                      kargs) VNone pages) ->
    (List.length pages <= depth)%nat ->
    rmapM (bucket_row interval_mapping axes aggregations) (flat_map buckets_of pages)
    = Ok rows ->
    run respond (collect (_aggregate_results interval_mapping build_body (S depth) index
                                             axes queries filters aggregations)) w =
    (Ok rows,
     {| FIELD_CACHE := FIELD_CACHE w;
        calls := calls w ++
                 page_events (page_request index (VList sources) aggregations
                                           (VDict mappings) kargs) VNone pages |}).
Proof.
  intros respond im bb depth index axes queries filters aggregations sources mappings
         kargs pages rows w Hne Hnq Hsrc Hmap Hkargs Hseq Hserves Hlen Hrows.
  cbn [_aggregate_results]. rewrite Hne, Hnq, Hsrc, Hmap. cbn [negb lift bind].
  eapply collect_for_each_decode; [|exact Hrows].
  now apply _elastic_aggregate_pages with (kargs := kargs).
Qed.

(** The composite branch against the wording of section 4.3. *)
Lemma _aggregate_results_paged :
  forall (respond : backend) interval_mapping build_body depth index
         (axes : list BoundAxis.t) queries filters aggregations
         (sources : list value) (mappings clause : list (string * value))
         (pages : list value) (rows : list (list value)) (w : world),
    nonempty axes = true ->
    existsb is_query_axis axes = false ->
    rmapM (BoundAxis.query interval_mapping) axes = Ok sources ->
    _combine_mappings (map (BoundAxis.runtime_mappings interval_mapping) axes)
    = Ok mappings ->
    query_clause build_body queries filters clause ->
    paged pages = true ->
    let request := composite_request index (VList sources) (metrics_block aggregations)
                                     (VDict mappings) clause in
    serves respond (calls w) (exchange request None pages) ->
    (List.length pages <= depth)%nat ->
    rmapM (bucket_row interval_mapping axes aggregations) (all_buckets pages) = Ok rows ->
    run respond (collect (_aggregate_results interval_mapping build_body (S depth) index
                                             axes queries filters aggregations)) w =
    (Ok rows,
     {| FIELD_CACHE := FIELD_CACHE w;
        calls := calls w ++ exchange request None pages |}).
Proof.
  intros respond im bb depth index axes queries filters aggregations sources mappings
         clause pages rows w Hne Hnq Hsrc Hmap Hclause Hpaged request Hserves Hlen Hrows.
  apply query_clause_kargs in Hclause.
  destruct (paged_page_sequence pages Hpaged) as [Hseq Hflat].
  pose proof (paged_exchange index (VList sources) aggregations (VDict mappings) clause
                pages VNone (paged_readable pages Hpaged)) as Hex.
  change (as_cursor VNone) with (@None value) in Hex. fold request in Hex.
  rewrite <- Hex in *. rewrite <- Hflat in Hrows.
  eapply _aggregate_results_composite; eassumption.
Qed.

(** X15: with at least one axis and none by [_query], the rows are the
    decoded buckets of all pages in page order, provided the pages
    number no more than the frames of recursion left: when the backend
    serves [pages] to composite requests that carry the bucket sources
    and runtime mappings of the axes, each but the first with the
    cursor of the page before, and every bucket decodes, the result is
    the list of their rows and the round trips are one request per
    page. *)
Theorem composite_rows_are_decoded_buckets :
  forall (respond : backend) interval_mapping build_body depth index
         (axes : list BoundAxis.t) queries filters aggregations
         (sources : list value) (mappings clause : list (string * value))
         (pages : list value) (rows : list (list value)) (w : world),
    nonempty axes = true ->
    existsb is_query_axis axes = false ->
    rmapM (BoundAxis.query interval_mapping) axes = Ok sources ->
    _combine_mappings (map (BoundAxis.runtime_mappings interval_mapping) axes)
    = Ok mappings ->
    query_clause build_body queries filters clause ->
    paged pages = true ->
    let request := composite_request index (VList sources) (metrics_block aggregations)
                                     (VDict mappings) clause in
    serves respond (calls w) (exchange request None pages) ->
    (List.length pages <= depth)%nat ->
    rmapM (bucket_row interval_mapping axes aggregations) (all_buckets pages) = Ok rows ->
    run respond (collect (_aggregate_results interval_mapping build_body (S depth) index
                                             axes queries filters aggregations)) w =
    (Ok rows,
     {| FIELD_CACHE := FIELD_CACHE w;
        calls := calls w ++ exchange request None pages |}).
Proof.
  intros. eapply _aggregate_results_paged; eassumption.
Qed.

(** X16: the pipeline decodes while it pages.  If a bucket of some page
    cannot be decoded, the call raises the decoding error right there:
    the pages before were requested, no later page is, even though the
    failing page carries a cursor. *)
Theorem undecodable_bucket_stops_pagination :
  forall (respond : backend) interval_mapping build_body depth index
         (axes : list BoundAxis.t) queries filters aggregations
         (sources : list value) (mappings kargs : list (string * value))
         (before : list value) (page : value) (rows : list (list value)) (e : exn)
         (w : world),
    nonempty axes = true ->
    existsb is_query_axis axes = false ->
    rmapM (BoundAxis.query interval_mapping) axes = Ok sources ->
    _combine_mappings (map (BoundAxis.runtime_mappings interval_mapping) axes)
    = Ok mappings ->
    query_kargs build_body queries filters = Ok kargs ->
    forallb (fun p => sound_page p && has_after_key p) before = true ->
    sound_page page = true ->
    serves respond (calls w)
           (page_events (page_request index (VList sources) aggregations (VDict mappings)
                                      kargs) VNone (before ++ [page])) ->
    (List.length (before ++ [page]) <= depth)%nat ->
    rmapM (bucket_row interval_mapping axes aggregations) (flat_map buckets_of before)
    = Ok rows ->
    rmapM (bucket_row interval_mapping axes aggregations) (buckets_of page) = Err e ->
    run respond (collect (_aggregate_results interval_mapping build_body (S depth) index
                                             axes queries filters aggregations)) w =
    (Err e,
     {| FIELD_CACHE := FIELD_CACHE w;
        calls := calls w ++
                 page_events (page_request index (VList sources) aggregations
                                           (VDict mappings) kargs) VNone
                             (before ++ [page]) |}).
Proof.
  intros respond im bb depth index axes queries filters aggregations sources mappings
         kargs before page rows e w Hne Hnq Hsrc Hmap Hkargs Hbefore Hpage Hserves Hlen
         Hrows Hbad.
  cbn [_aggregate_results]. rewrite Hne, Hnq, Hsrc, Hmap. cbn [negb lift bind].
  generalize (@VNone) as after_key, Hserves, Hlen, Hrows. clear Hserves Hlen Hrows.
  revert depth w rows.
  induction before as [|p before IH]; intros depth w rows after_key Hserves Hlen Hrows.
  - destruct depth as [|depth]; [simpl in Hlen; lia|].
    cbn [app page_events serves fst snd] in Hserves. destruct Hserves as [Hp _].
    cbn [_elastic_aggregate]. rewrite Hkargs. cbn [lift bind for_each collect run].
    rewrite Hp.
    destruct (sound_page_inv _ Hpage) as (failure & k & Hfail & Hfalsy & Hb & _).
    rewrite Hfail. cbn [lift bind]. rewrite Hfalsy, Hb. cbn [lift bind].
    rewrite collect_for_each_page, Hbad. cbn [app page_events]. reflexivity.
  - destruct depth as [|depth]; [simpl in Hlen; lia|].
    cbn [app page_events serves fst snd] in Hserves. destruct Hserves as [Hp Hserves].
    cbn [forallb] in Hbefore. apply andb_true_iff in Hbefore.
    destruct Hbefore as [Hp_ok Hbefore]. apply andb_true_iff in Hp_ok.
    destruct Hp_ok as [Hsound Hcursor].
    destruct (sound_page_inv _ Hsound) as (failure & k & Hfail & Hfalsy & Hb & Hk & Hcur & Hhas).
    cbn [flat_map] in Hrows.
    assert (Hsplit : exists r1 r2,
               rmapM (bucket_row im axes aggregations) (buckets_of p) = Ok r1 /\
               rmapM (bucket_row im axes aggregations) (flat_map buckets_of before) = Ok r2).
    { clear - Hrows. revert rows Hrows.
      induction (buckets_of p) as [|b bs IHb]; intros rows Hrows; simpl in *; [eauto|].
      destruct (bucket_row im axes aggregations b); [|discriminate]. simpl in *.
      destruct (rmapM _ (bs ++ _)) as [rs|] eqn:Hrs; [|discriminate].
      destruct (IHb rs eq_refl) as (r1 & r2 & -> & ->). simpl. eauto. }
    destruct Hsplit as (r1 & r2 & Hr1 & Hr2).
    cbn [_elastic_aggregate]. rewrite Hkargs. cbn [lift bind for_each collect run].
    rewrite Hp, Hfail. cbn [lift bind]. rewrite Hfalsy, Hb. cbn [lift bind].
    rewrite collect_for_each_page, Hr1, Hk. cbn [lift bind].
    rewrite <- Hhas, Hcursor. rewrite Hcur in Hserves.
    rewrite (IH Hbefore depth
               {| FIELD_CACHE := FIELD_CACHE w;
                  calls := calls w ++ [(page_request index (VList sources) aggregations
                                          (VDict mappings) kargs after_key, Ok p)] |}
               r2 k Hserves); [|simpl in *; lia|exact Hr2].
    cbn [calls FIELD_CACHE app page_events]. rewrite Hcur, <- app_assoc. reflexivity.
Qed.

(** X17: grouping by [_query] without any named query yields no rows and
    asks the backend nothing, whatever the other axes and aggregations
    are. *)
Theorem query_axis_without_queries_yields_nothing :
  forall (respond : backend) interval_mapping build_body depth index
         (axes : list BoundAxis.t) filters aggregations (w : world),
    existsb is_query_axis axes = true ->
    run respond (collect (_aggregate_results interval_mapping build_body (S depth) index
                                             axes [] filters aggregations)) w
    = (Ok [], w).
Proof.
  intros respond im bb depth index axes filters aggregations w Hq.
  cbn [_aggregate_results]. destruct axes as [|a l]; [discriminate|].
  cbn [nonempty negb]. rewrite Hq. reflexivity.
Qed.

(** X18: if the backend raises on a page request, the call raises that
    error: the rows of the pages fetched before are dropped and no
    further request is made. *)
Theorem backend_error_aborts_pagination :
  forall (respond : backend) interval_mapping build_body depth index
         (axes : list BoundAxis.t) queries filters aggregations
         (sources : list value) (mappings kargs : list (string * value))
         (before : list value) (rows : list (list value)) (e : exn) (w : world),
    nonempty axes = true ->
    existsb is_query_axis axes = false ->
    rmapM (BoundAxis.query interval_mapping) axes = Ok sources ->
    _combine_mappings (map (BoundAxis.runtime_mappings interval_mapping) axes)
    = Ok mappings ->
    query_kargs build_body queries filters = Ok kargs ->
    forallb (fun p => sound_page p && has_after_key p) before = true ->
    let request := page_request index (VList sources) aggregations (VDict mappings) kargs in
    let events := (page_events request VNone before
                   ++ [(request (last_cursor VNone before), Err e)])%list in
    serves respond (calls w) events ->
    (List.length before < depth)%nat ->
    rmapM (bucket_row interval_mapping axes aggregations) (flat_map buckets_of before)
    = Ok rows ->
    run respond (collect (_aggregate_results interval_mapping build_body (S depth) index
                                             axes queries filters aggregations)) w =
    (Err e, {| FIELD_CACHE := FIELD_CACHE w; calls := calls w ++ events |}).
Proof.
  intros respond im bb depth index axes queries filters aggregations sources mappings
         kargs before rows e w Hne Hnq Hsrc Hmap Hkargs Hbefore request events Hserves Hlen
         Hrows.
  cbn [_aggregate_results]. rewrite Hne, Hnq, Hsrc, Hmap. cbn [negb lift bind].
  subst events. fold request.
  generalize (@VNone) as after_key, Hserves, Hlen, Hrows. clear Hserves Hlen Hrows.
  revert depth w rows.
  induction before as [|p before IH]; intros depth w rows after_key Hserves Hlen Hrows.
  - destruct depth as [|depth]; [lia|].
    cbn [app page_events serves fst snd last_cursor fold_left] in Hserves.
    destruct Hserves as [Hp _].
    cbn [_elastic_aggregate]. rewrite Hkargs. cbn [lift bind for_each collect run].
    fold request. rewrite Hp. reflexivity.
  - destruct depth as [|depth]; [simpl in Hlen; lia|].
    cbn [app page_events serves fst snd last_cursor fold_left] in Hserves.
    destruct Hserves as [Hp Hserves].
    cbn [forallb] in Hbefore. apply andb_true_iff in Hbefore.
    destruct Hbefore as [Hp_ok Hbefore]. apply andb_true_iff in Hp_ok.
    destruct Hp_ok as [Hsound Hcursor].
    destruct (sound_page_inv _ Hsound) as (failure & k & Hfail & Hfalsy & Hb & Hk & Hcur & Hhas).
    cbn [flat_map] in Hrows.
    assert (Hsplit : exists r1 r2,
               rmapM (bucket_row im axes aggregations) (buckets_of p) = Ok r1 /\
               rmapM (bucket_row im axes aggregations) (flat_map buckets_of before) = Ok r2).
    { clear - Hrows. revert rows Hrows.
      induction (buckets_of p) as [|b bs IHb]; intros rows Hrows; simpl in *; [eauto|].
      destruct (bucket_row im axes aggregations b); [|discriminate]. simpl in *.
      destruct (rmapM _ (bs ++ _)) as [rs|] eqn:Hrs; [|discriminate].
      destruct (IHb rs eq_refl) as (r1 & r2 & -> & ->). simpl. eauto. }
    destruct Hsplit as (r1 & r2 & Hr1 & Hr2).
    cbn [_elastic_aggregate]. rewrite Hkargs. cbn [lift bind for_each collect run].
    fold request. rewrite Hp, Hfail. cbn [lift bind]. rewrite Hfalsy, Hb. cbn [lift bind].
    rewrite collect_for_each_page, Hr1, Hk. cbn [lift bind].
    rewrite <- Hhas, Hcursor. rewrite Hcur in Hserves.
    fold (last_cursor k before) in Hserves.
    rewrite (IH Hbefore depth
               {| FIELD_CACHE := FIELD_CACHE w;
                  calls := calls w ++ [(request after_key, Ok p)] |}
               r2 k Hserves); [|simpl in *; lia|exact Hr2].
    cbn [calls FIELD_CACHE app page_events last_cursor fold_left].
    rewrite Hcur, <- app_assoc. reflexivity.
Qed.

Lemma backend_error_aborts_pagination_witness :
  run (scripted [Ok first_page; Err (TransportError 502 VNone)])
      (collect (_aggregate_results sample_interval_mapping sample_build_body 1000
                  (IndexStr "idx") [cat_axis] [] VNone [])) world0 =
  (Err (TransportError 502 VNone),
   {| FIELD_CACHE := FIELD_CACHE world0;
      calls := calls world0 ++
               (page_events (page_request (IndexStr "idx") (VList cat_sources) []
                                          (VDict []) []) VNone [first_page]
                ++ [(page_request (IndexStr "idx") (VList cat_sources) [] (VDict []) []
                                  (last_cursor VNone [first_page]),
                     Err (TransportError 502 VNone))]) |}).
Proof.
  apply (backend_error_aborts_pagination
           (scripted [Ok first_page; Err (TransportError 502 VNone)])
           sample_interval_mapping sample_build_body 999 (IndexStr "idx") [cat_axis] []
           VNone [] cat_sources [] [] [first_page] [[VStr "a"; VInt 3]]
           (TransportError 502 VNone) world0);
    try reflexivity.
  - simpl. repeat split; reflexivity.
  - simpl. lia.
Defined.



(* ================================================================== *)
(** ** [QueryResult] *)

Lemma ceil_Qceiling (q : Q) : ceil q = Qceiling q.
Proof. destruct q as [n d]. reflexivity. Qed.

Lemma round_half_even_le (x : Q) (b : Z) : (x <= inject_Z b)%Q -> round_half_even x <= b.
Proof.
  intro H. pose proof (round_half_even_near x) as [Hlo _].
  assert (A : (inject_Z (round_half_even x) < inject_Z (b + 1))%Q).
  { rewrite inject_Z_plus. change (inject_Z 1) with 1%Q. lra. }
  rewrite <- Zlt_Qlt in A. lia.
Qed.

Lemma round_half_even_gt (x : Q) (a : Z) :
  (inject_Z a + (1 # 2) < x)%Q -> a + 1 <= round_half_even x.
Proof.
  intro H. pose proof (round_half_even_near x) as [_ Hhi].
  assert (A : (inject_Z a < inject_Z (round_half_even x))%Q) by lra.
  rewrite <- Zlt_Qlt in A. lia.
Qed.

(** The double nearest to the quotient of two positive integers up to
    [2^53] has the ceiling of the quotient itself. *)
Lemma to_double_quotient_ceil (n d : Z) :
  0 < n <= 2 ^ 53 -> 0 < d <= 2 ^ 53 ->
  let x := to_double (inject_Z n / inject_Z d) in
  is_finite x = true /\ Qceiling x = - ((- n) / d).
Proof.
  intros Hn Hd.
  assert (H53 : 2 ^ 53 = 9007199254740992) by reflexivity.
  pose proof (Z.div_mod n d ltac:(lia)) as Hdm.
  pose proof (Z.mod_pos_bound n d ltac:(lia)) as Hmb.
  assert (Hk : 0 <= n / d) by (apply Z.div_pos; lia).
  assert (Hkn : n / d <= n) by (apply Z.div_le_upper_bound; nia).
  assert (Hdq : (0 < inject_Z d)%Q).
  { change 0%Q with (inject_Z 0). rewrite <- Zlt_Qlt. lia. }
  assert (Hnq : (0 < inject_Z n)%Q).
  { change 0%Q with (inject_Z 0). rewrite <- Zlt_Qlt. lia. }
  set (q := (inject_Z n / inject_Z d)%Q).
  assert (Hqd : q * inject_Z d == inject_Z n) by (unfold q; field; lra).
  assert (Hfinite : forall x : Q, (0 <= x <= inject_Z (n / d + 1))%Q -> is_finite x = true).
  { intros x [Hx0 Hx1]. unfold is_finite.
    destruct (Qle_bool (2 ^ 1024) (Qabs x)) eqn:E; [|reflexivity].
    apply Qle_bool_iff in E. rewrite (Qabs_pos x Hx0) in E.
    rewrite (pow2_Z 1024) in E by lia.
    assert (A : (inject_Z (2 ^ 1024) <= inject_Z (n / d + 1))%Q) by lra.
    rewrite <- Zle_Qle in A.
    assert (2 ^ 54 <= 2 ^ 1024) by (apply Z.pow_le_mono_r; lia).
    assert (2 ^ 54 = 18014398509481984) by reflexivity. lia. }
  intro x. destruct (Z.eq_dec (n mod d) 0) as [Hr|Hr].
  - assert (Hq : q == inject_Z (n / d)).
    { apply (Qmult_inj_r _ _ (inject_Z d)); [lra|].
      rewrite Hqd, <- inject_Z_mult. apply inject_Z_injective. lia. }
    assert (Hx : x == inject_Z (n / d)) by (apply to_double_exact; [exact Hq | lia]).
    split.
    + apply Hfinite. rewrite Hx, <- !Zle_Qle. change 0%Q with (inject_Z 0).
      rewrite <- Zle_Qle. lia.
    + rewrite Hx, Qceiling_Z. symmetry.
      replace (- n) with (d * - (n / d)) by lia.
      rewrite Z.mul_comm, Z.div_mul by lia. lia.
  - assert (Hq0 : ~ q == 0).
    { intro H. rewrite H in Hqd. lra. }
    assert (Hqpos : (0 < q)%Q).
    { unfold q. apply Qlt_shift_div_l; lra. }
    assert (Hlo : (inject_Z (n / d) * inject_Z d + 1 <= q * inject_Z d)%Q).
    { rewrite Hqd, <- inject_Z_mult. change 1%Q with (inject_Z 1).
      rewrite <- inject_Z_plus, <- Zle_Qle. lia. }
    assert (Hhi : (q * inject_Z d <= inject_Z (n / d + 1) * inject_Z d)%Q).
    { rewrite Hqd, <- inject_Z_mult, <- Zle_Qle. nia. }
    pose proof (binade_le q Hq0) as Hb. rewrite (Qabs_pos q) in Hb by lra.
    assert (Hbd : (2 ^ binade q * inject_Z d < 2 ^ 53)%Q).
    { assert (A : (2 ^ binade q * inject_Z d <= inject_Z n)%Q).
      { rewrite <- Hqd. apply Qmult_le_compat_r; lra. }
      assert (B : (inject_Z n <= 2 ^ 53)%Q).
      { rewrite (pow2_Z 53) by lia. rewrite <- Zle_Qle. lia. }
      destruct (Z_lt_le_dec (binade q) 0) as [Hneg|Hpos].
      - assert (C : (2 ^ binade q <= 1 # 2)%Q).
        { change (1 # 2)%Q with (2 ^ (-1))%Q. apply pow2_le. lia. }
        assert (D : (inject_Z d <= 2 ^ 53)%Q).
        { rewrite (pow2_Z 53) by lia. rewrite <- Zle_Qle. lia. }
        pose proof (pow2_pos (binade q)) as Hp. pose proof (pow2_pos 53) as Hp53.
        assert (E : (2 ^ binade q * inject_Z d <= (1 # 2) * 2 ^ 53)%Q).
        { apply Qmult_le_compat_nonneg; split; lra. }
        lra.
      - rewrite (pow2_Z (binade q)) in A |- * by lia.
        rewrite <- inject_Z_mult in A |- *. rewrite <- Zle_Qle in A.
        rewrite (pow2_Z 53) by lia. rewrite <- Zlt_Qlt.
        destruct (Z.eq_dec (2 ^ binade q * d) n) as [E|E]; [|lia].
        exfalso. apply Hr. rewrite <- E. apply Z.mod_mul. lia. }
    unfold x. rewrite (to_double_nonzero q Hq0).
    assert (He : quantum q <= 0).
    { assert (A : (2 ^ binade q < 2 ^ 53)%Q).
      { pose proof (pow2_pos (binade q)) as Hp.
        assert (D : (1 <= inject_Z d)%Q).
        { change 1%Q with (inject_Z 1). rewrite <- Zle_Qle. lia. }
        assert (E : (2 ^ binade q * 1 <= 2 ^ binade q * inject_Z d)%Q).
        { apply Qmult_le_l; lra. }
        lra. }
      apply pow2_lt_inv in A. unfold quantum. lia. }
    assert (Hwide : (inject_Z d < 2 * / 2 ^ quantum q)%Q).
    { pose proof (pow2_pos (quantum q)) as Hp.
      rewrite Qmult_comm in Hbd. apply Qlt_shift_div_l in Hbd; [|apply pow2_pos].
      assert (A : (/ 2 ^ quantum q == 2 ^ (- quantum q))%Q) by (now rewrite Qpower_opp).
      pose proof (pow2_pos (- quantum q)) as Hq'.
      destruct (Z_le_gt_dec (-1074) (binade q - 52)) as [Hnormal|Hsub].
      - assert (B : (2 ^ 53 / 2 ^ binade q == 2 * 2 ^ (52 - binade q))%Q).
        { rewrite <- pow2_succ. rewrite <- Qpower_minus by discriminate.
          replace (52 - binade q + 1) with (53 - binade q) by lia. reflexivity. }
        assert (C : (2 ^ (52 - binade q) <= 2 ^ (- quantum q))%Q).
        { apply pow2_le. unfold quantum. lia. }
        lra.
      - assert (B : (inject_Z d <= 2 ^ 53)%Q).
        { rewrite (pow2_Z 53) by lia. rewrite <- Zle_Qle. lia. }
        assert (C : (2 ^ 53 <= 2 ^ (- quantum q))%Q).
        { apply pow2_le. unfold quantum. lia. }
        lra. }
    set (e := quantum q) in *.
    assert (HE : 0 < 2 ^ (- e)) by (apply Z.pow_pos_nonneg; lia).
    assert (HEq : (0 < inject_Z (2 ^ (- e)))%Q).
    { change 0%Q with (inject_Z 0). now rewrite <- Zlt_Qlt. }
    assert (HP : (2 ^ e == / inject_Z (2 ^ (- e)))%Q).
    { rewrite <- (pow2_Z (- e)) by lia. rewrite Qpower_opp, Qinv_involutive. reflexivity. }
    assert (HPinv : (/ 2 ^ e == inject_Z (2 ^ (- e)))%Q).
    { rewrite HP, Qinv_involutive. reflexivity. }
    rewrite HPinv in Hwide.
    set (E := inject_Z (2 ^ (- e))) in *.
    assert (HX : q / 2 ^ e == q * E) by (rewrite HP; unfold E; field; fold E; lra).
    assert (Hm_hi : round_half_even (q / 2 ^ e) <= (n / d + 1) * 2 ^ (- e)).
    { apply round_half_even_le. rewrite HX, inject_Z_mult. fold E.
      apply Qmult_le_compat_r; [|lra].
      apply (Qmult_le_r _ _ (inject_Z d)); [lra|]. exact Hhi. }
    assert (Hm_lo : n / d * 2 ^ (- e) + 1 <= round_half_even (q / 2 ^ e)).
    { apply round_half_even_gt. rewrite HX, inject_Z_mult. fold E.
      apply (Qmult_lt_r _ _ (inject_Z d)); [lra|].
      assert (A : ((inject_Z (n / d) * inject_Z d + 1) * E <= q * inject_Z d * E)%Q).
      { apply Qmult_le_compat_r; lra. }
      assert (B : (inject_Z d * (1 # 2) < E)%Q) by lra.
      assert (C : ((inject_Z (n / d) * E + (1 # 2)) * inject_Z d
                  == inject_Z (n / d) * inject_Z d * E + inject_Z d * (1 # 2))%Q) by ring.
      assert (D : (q * E * inject_Z d == q * inject_Z d * E)%Q) by ring.
      rewrite C, D. lra. }
    set (m := round_half_even (q / 2 ^ e)) in *.
    assert (Hx_hi : (inject_Z m * 2 ^ e <= inject_Z (n / d + 1))%Q).
    { rewrite HP. apply Qle_shift_div_r; [exact HEq|]. unfold E.
      rewrite <- inject_Z_mult, <- Zle_Qle. exact Hm_hi. }
    assert (Hx_lo : (inject_Z (n / d) < inject_Z m * 2 ^ e)%Q).
    { rewrite HP. apply Qlt_shift_div_l; [exact HEq|]. unfold E.
      rewrite <- inject_Z_mult, <- Zlt_Qlt. lia. }
    split.
    + apply Hfinite. split; [|exact Hx_hi].
      assert (A : (0 <= inject_Z (n / d))%Q).
      { change 0%Q with (inject_Z 0). rewrite <- Zle_Qle. lia. }
      lra.
    + rewrite (Qceiling_between _ (n / d + 1)).
      * symmetry. rewrite <- Z.opp_inj_wd, Z.opp_involutive. symmetry.
        apply Z.div_unique with (r := d - n mod d); lia.
      * rewrite inject_Z_plus in *. change (inject_Z 1) with 1%Q in *. lra.
Qed.

(** X20: for a result with hits and a page size, both at most [2^53],
    the page count that [QueryResult] computes is the least number of
    pages that holds all hits, and [as_dict] reports it next to the
    totals. *)
Theorem page_count_covers_all_hits :
  forall (data page : value) (n per_page : Z),
    0 < n <= 2 ^ 53 -> 0 < per_page <= 2 ^ 53 ->
    exists pc,
      QueryResult.init data (VInt n) (VInt per_page) page VNone VNone
      = inr {| QueryResult.data := data; QueryResult.total_count := VInt n;
               QueryResult.page := page; QueryResult.page_count := VInt pc;
               QueryResult.per_page := VInt per_page; QueryResult.scroll_id := VNone |} /\
      (pc - 1) * per_page < n <= pc * per_page /\
      QueryResult.as_dict
        {| QueryResult.data := data; QueryResult.total_count := VInt n;
           QueryResult.page := page; QueryResult.page_count := VInt pc;
           QueryResult.per_page := VInt per_page; QueryResult.scroll_id := VNone |}
      = VDict [("meta", VDict [("total_count", VInt n); ("per_page", VInt per_page);
                               ("page_count", VInt pc); ("page", page)]);
               ("results", data)].
Proof.
  intros data page n per_page Hn Hp. exists (- ((- n) / per_page)). split; [|split].
  - unfold QueryResult.init, QueryResult.pages. cbn [truthy as_int].
    destruct (Z.eqb_spec n 0) as [->|_]; [lia|]. cbn [negb andb].
    destruct (Z.eqb_spec per_page 0) as [->|_]; [lia|].
    destruct (to_double_quotient_ceil n per_page Hn Hp) as [Hfin Hceil].
    rewrite Hfin, ceil_Qceiling, Hceil. reflexivity.
  - pose proof (Z.div_mod (- n) per_page ltac:(lia)) as Hdm.
    pose proof (Z.mod_pos_bound (- n) per_page ltac:(lia)) as Hbound.
    nia.
  - reflexivity.
Qed.

(** Past [2^53] the quotient is no longer exact: for [2^53 + 1] hits on
    pages of one, the page count is one page short. *)
Lemma page_count_past_2_53_is_short :
  QueryResult.pages (VInt (2 ^ 53 + 1)) (VInt 1) = inr (2 ^ 53).
Proof. vm_compute. reflexivity. Qed.

Lemma page_count_covers_all_hits_witness :
  exists pc,
    QueryResult.init (VList []) (VInt 21) (VInt 10) (VInt 0) VNone VNone
    = inr {| QueryResult.data := VList []; QueryResult.total_count := VInt 21;
             QueryResult.page := VInt 0; QueryResult.page_count := VInt pc;
             QueryResult.per_page := VInt 10; QueryResult.scroll_id := VNone |} /\
    (pc - 1) * 10 < 21 <= pc * 10 /\
    QueryResult.as_dict
      {| QueryResult.data := VList []; QueryResult.total_count := VInt 21;
         QueryResult.page := VInt 0; QueryResult.page_count := VInt pc;
         QueryResult.per_page := VInt 10; QueryResult.scroll_id := VNone |}
    = VDict [("meta", VDict [("total_count", VInt 21); ("per_page", VInt 10);
                             ("page_count", VInt pc); ("page", VInt 0)]);
             ("results", VList [])].
Proof.
  apply (page_count_covers_all_hits (VList []) (VInt 0) 21 10); simpl; lia.
Defined.

(** X21: a result without hits gets no page count: [n] is 0 or null, so
    the page size is never divided by (a page size of 0 or null does
    not raise), and [as_dict] reports a null page count, not 0. *)
Theorem no_hits_no_page_count :
  forall (data n per_page page : value),
    truthy n = false ->
    exists r,
      QueryResult.init data n per_page page VNone VNone = inr r /\
      QueryResult.as_dict r
      = VDict [("meta", VDict [("total_count", n); ("per_page", per_page);
                               ("page_count", VNone); ("page", page)]);
               ("results", data)].
Proof.
  intros data n per_page page Hn. unfold QueryResult.init. rewrite Hn.
  eexists. split; reflexivity.
Qed.

Lemma no_hits_no_page_count_witness :
  exists r,
    QueryResult.init (VList []) (VInt 0) (VInt 0) (VInt 0) VNone VNone = inr r /\
    QueryResult.as_dict r
    = VDict [("meta", VDict [("total_count", VInt 0); ("per_page", VInt 0);
                             ("page_count", VNone); ("page", VInt 0)]);
             ("results", VList [])].
Proof.
  apply (no_hits_no_page_count (VList []) (VInt 0) (VInt 0) (VInt 0)). reflexivity.
Defined.

(* ================================================================== *)
(** ** A whole call on a cached index *)

Lemma bound_axes_fields (index : index_arg) (axes : list Axis.t) (ftypes : list value) :
  List.length ftypes = List.length axes ->
  map BoundAxis.field (bound_axes index axes ftypes) = map Axis.field axes.
Proof.
  unfold bound_axes. revert ftypes.
  induction axes as [|a l IH]; intros [|t ftypes]; simpl; try discriminate.
  - reflexivity.
  - intros [= H]. now rewrite IH.
Qed.

Section WarmCall.
Variable respond : backend.

Lemma run_bind_aggregations_warm (index : string) (d : list (string * value))
      (aggregations : option (list Aggregation.t)) (w : world) :
  cached_fields index w = VDict d -> nonempty d = true ->
  run respond (bind_aggregations (IndexStr index) aggregations) w =
  (match rmapM (cached_aggregation_ftype d) (supplied aggregations) with
   | Ok ftypes => Ok (bound_aggregations (IndexStr index) (supplied aggregations) ftypes)
   | Err e => Err e
   end, w).
Proof.
  intros Hc Hne.
  assert (H : forall l,
             run respond (mapM (fun a => BoundAggregation.init a (IndexStr index)) l) w =
             (match rmapM (cached_aggregation_ftype d) l with
              | Ok ftypes => Ok (bound_aggregations (IndexStr index) l ftypes)
              | Err e => Err e
              end, w)).
  { induction l as [|a l IH]; cbn [mapM rmapM]; [reflexivity|].
    rewrite run_bind. unfold BoundAggregation.init at 1. rewrite run_bind.
    unfold field_type. rewrite run_bind. cbn [get_fields].
    rewrite run_get_index_fields_hit, Hc; [|rewrite Hc; exact Hne].
    rewrite run_lift. fold (cached_aggregation_ftype d a).
    destruct (cached_aggregation_ftype d a) as [ftype|e]; [|reflexivity].
    cbn [rbind run]. rewrite run_bind, IH.
    destruct (rmapM (cached_aggregation_ftype d) l) as [ftypes|e]; reflexivity. }
  destruct aggregations as [[|a l]|]; [reflexivity | apply H | reflexivity].
Qed.

End WarmCall.

(** X22: a whole call on a cached index, with one or two axes none of
    which is by [_query], over pages that number no more than the
    frames of recursion left: the axes and aggregations are bound with
    the cached field types without a round trip, the pages are
    requested one after the other, each request but the first with the
    cursor of the page before, and the result holds the bound axes, the
    bound aggregations, the decoded buckets of all pages in order and
    the count column ["n"]. *)
Theorem query_aggregate_on_cached_index :
  forall (respond : backend) interval_mapping build_body _normalize_queries depth
         (index : string) (d : list (string * value)) (axes : list Axis.t)
         (aggregations : option (list Aggregation.t)) queries filters
         (ftypes atypes sources : list value) (mappings clause : list (string * value))
         (pages : list value) (rows : list (list value)) (w : world),
    cached_fields index w = VDict d ->
    nonempty d = true ->
    nonempty axes = true ->
    (List.length axes <= 2)%nat ->
    existsb (String.eqb "_query") (map Axis.field axes) = false ->
    rmapM (cached_ftype d) axes = Ok ftypes ->
    rmapM (cached_aggregation_ftype d) (supplied aggregations) = Ok atypes ->
    let _axes := bound_axes (IndexStr index) axes ftypes in
    let _aggregations := bound_aggregations (IndexStr index) (supplied aggregations) atypes in
    let request := composite_request (IndexStr index) (VList sources)
                                     (metrics_block _aggregations) (VDict mappings) clause in
    rmapM (BoundAxis.query interval_mapping) _axes = Ok sources ->
    _combine_mappings (map (BoundAxis.runtime_mappings interval_mapping) _axes)
    = Ok mappings ->
    query_clause build_body (_normalize_queries queries) filters clause ->
    paged pages = true ->
    serves respond (calls w) (exchange request None pages) ->
    (List.length pages <= depth)%nat ->
    rmapM (bucket_row interval_mapping _axes _aggregations) (all_buckets pages) = Ok rows ->
    run respond (query_aggregate interval_mapping build_body _normalize_queries (S depth)
                   (IndexStr index) (Some axes) aggregations queries filters) w =
    (Ok {| AggregateResult.axes := _axes;
           AggregateResult.data := rows;
           AggregateResult.aggregations := _aggregations;
           AggregateResult.count_column := "n" |},
     {| FIELD_CACHE := FIELD_CACHE w;
        calls := calls w ++ exchange request None pages |}).
Proof.
  intros respond im bb nq depth index d axes aggregations queries filters ftypes atypes
         sources mappings clause pages rows w Hc Hne Haxes Hlen Hnq Hft Hat _axes
         _aggregations request Hsrc Hmap Hclause Hpaged Hserves Hpages Hrows.
  unfold query_aggregate.
  assert (Hguard : too_many_query_axes (Some axes) = false).
  { destruct axes as [|a [|b [|c l]]]; try reflexivity. simpl in Hlen. lia. }
  rewrite Hguard. unfold query_aggregate_body.
  rewrite run_bind, (run_bind_axes_warm respond index d axes w Hc Hne), Hft.
  rewrite run_bind, (run_bind_aggregations_warm respond index d aggregations w Hc Hne), Hat.
  fold _axes _aggregations. rewrite run_bind.
  assert (Hfields : map BoundAxis.field _axes = map Axis.field axes).
  { apply bound_axes_fields. eapply rmapM_length; eauto. }
  rewrite (_aggregate_results_paged respond im bb depth (IndexStr index) _axes
             (nq queries) filters _aggregations sources mappings clause pages rows w);
    try assumption.
  - reflexivity.
  - unfold _axes, bound_axes. apply rmapM_length in Hft.
    destruct axes as [|a l]; [discriminate|]. destruct ftypes; [discriminate|]. reflexivity.
  - now rewrite existsb_is_query_axis, Hfields.
Qed.

(* ================================================================== *)
(** ** The properties above at concrete inputs *)

Lemma aggregation_dsl_holds_every_metric_witness :
  py_getitem (aggregation_dsl [avg_i; min_date]) (BoundAggregation.name min_date) =
  Ok (VDict [(BoundAggregation.function min_date,
              VDict [("field", VStr (BoundAggregation.field min_date))])]).
Proof.
  apply (aggregation_dsl_holds_every_metric [avg_i; min_date] min_date).
  - simpl. repeat constructor; simpl; intuition discriminate.
  - simpl. tauto.
Defined.

Lemma as_dicts_maps_column_to_cell_witness :
  exists d, nth_error (AggregateResult.as_dicts by_query_result) 1 = Some d /\
            py_getitem d "_query" = Ok (VStr "q2").
Proof.
  apply (as_dicts_maps_column_to_cell by_query_result 1 1
           [VStr "a"; VStr "q2"; VInt 1] "_query" (VStr "q2")).
  - simpl. repeat constructor; simpl; intuition discriminate.
  - reflexivity.
  - reflexivity.
  - reflexivity.
Defined.

Lemma as_dicts_count_column_holds_count_witness :
  exists d n,
    nth_error (AggregateResult.as_dicts shadowed_result) 0 = Some d /\
    nth_error [VStr "a"; VInt 3] (List.length (AggregateResult.axes shadowed_result))
    = Some n /\
    py_getitem d (AggregateResult.count_column shadowed_result) = Ok n.
Proof.
  apply (as_dicts_count_column_holds_count shadowed_result 0 [VStr "a"; VInt 3]).
  - reflexivity.
  - reflexivity.
  - simpl. tauto.
Defined.

Lemma field_cache_serves_second_lookup_witness :
  run (scripted [Ok mapping_response])
      (a <- get_index_fields "idx" ;; b <- get_index_fields "idx" ;; Ret (a, b))%prog
      world0 =
  (Ok (VDict (dict_of idx_fields), VDict (dict_of idx_fields)),
   {| FIELD_CACHE := dict_set "idx" (VDict (dict_of idx_fields)) (FIELD_CACHE world0);
      calls := calls world0 ++ [(get_mapping_call "idx", Ok mapping_response)] |}).
Proof.
  apply (field_cache_serves_second_lookup (scripted [Ok mapping_response]) "idx" world0
           mapping_response idx_fields); reflexivity.
Defined.

Lemma field_cache_misses_empty_index_witness :
  run (scripted [Ok empty_mapping_response; Ok empty_mapping_response])
      (a <- get_index_fields "idx" ;; b <- get_index_fields "idx" ;; Ret (a, b))%prog
      world0 =
  (Ok (VDict [], VDict []),
   {| FIELD_CACHE := dict_set "idx" (VDict []) (FIELD_CACHE world0);
      calls := calls world0 ++ [(get_mapping_call "idx", Ok empty_mapping_response);
                                (get_mapping_call "idx", Ok empty_mapping_response)] |}).
Proof.
  apply (field_cache_misses_empty_index
           (scripted [Ok empty_mapping_response; Ok empty_mapping_response]) "idx" world0
           empty_mapping_response empty_mapping_response); reflexivity.
Defined.

Lemma get_fields_merges_two_indices_witness :
  exists merged,
    run (scripted []) (get_fields (IndexList ["idx"; "idx2"])) two_index_world
    = (Ok (VDict merged), two_index_world) /\
    forall f,
      dict_get f merged =
      match dict_get f [("i", VDict [("name", VStr "i"); ("type", VStr "long")]);
                        ("cat", VDict [("name", VStr "cat"); ("type", VStr "keyword")])],
            dict_get f [("i", VDict [("name", VStr "i"); ("type", VStr "keyword")]);
                        ("cat", VDict [("name", VStr "cat"); ("type", VStr "keyword")]);
                        ("url", VDict [("name", VStr "url"); ("type", VStr "url")])] with
      | Some x, Some y => Some (if py_eqb x y then x else merged_descriptor f)
      | Some x, None => Some x
      | None, other => other
      end.
Proof.
  apply (get_fields_merges_two_indices (scripted []) "idx" "idx2"
           [("i", VDict [("name", VStr "i"); ("type", VStr "long")]);
            ("cat", VDict [("name", VStr "cat"); ("type", VStr "keyword")])]
           [("i", VDict [("name", VStr "i"); ("type", VStr "keyword")]);
            ("cat", VDict [("name", VStr "cat"); ("type", VStr "keyword")]);
            ("url", VDict [("name", VStr "url"); ("type", VStr "url")])]
           two_index_world);
    try reflexivity;
    simpl; repeat constructor; simpl; intuition discriminate.
Defined.

Lemma query_aggregate_keeps_other_cache_entries_witness :
  cached_fields "idx2" by_query_world = cached_fields "idx2" world0.
Proof.
  apply (query_aggregate_keeps_other_cache_entries by_query_backend
           sample_interval_mapping sample_build_body sample_normalize_queries 1000
           (IndexStr "idx") (Some by_query_axes) None by_query_queries VNone
           world0 by_query_world (fst by_query_outcome) "idx2").
  - vm_compute. reflexivity.
  - simpl. intros [H|[]]. discriminate.
Defined.

Lemma pipeline_never_writes_field_cache_witness :
  FIELD_CACHE (snd pipeline_outcome) = FIELD_CACHE warm_world.
Proof.
  apply (pipeline_never_writes_field_cache (scripted [Ok first_page; Ok last_page])
           sample_interval_mapping sample_build_body 1000 (IndexStr "idx") [cat_axis] []
           VNone [] warm_world (snd pipeline_outcome) (fst pipeline_outcome)).
  vm_compute. reflexivity.
Defined.

Lemma composite_rows_are_decoded_buckets_witness :
  run (scripted [Ok first_page; Ok last_page])
      (collect (_aggregate_results sample_interval_mapping sample_build_body 1000
                  (IndexStr "idx") [cat_axis] [] VNone [])) world0 =
  (Ok [[VStr "a"; VInt 3]; [VStr "b"; VInt 1]],
   {| FIELD_CACHE := []; calls := cat_exchange |}).
Proof.
  apply (composite_rows_are_decoded_buckets (scripted [Ok first_page; Ok last_page])
           sample_interval_mapping sample_build_body 999 (IndexStr "idx") [cat_axis] []
           VNone [] cat_sources [] [] [first_page; last_page]
           [[VStr "a"; VInt 3]; [VStr "b"; VInt 1]] world0);
    try reflexivity.
  - simpl. repeat split; reflexivity.
  - simpl. lia.
Defined.

Lemma undecodable_bucket_stops_pagination_witness :
  run (scripted [Ok first_page; Ok broken_page; Ok last_page])
      (collect (_aggregate_results sample_interval_mapping sample_build_body 1000
                  (IndexStr "idx") [cat_axis] [] VNone [])) world0 =
  (Err (KeyError "doc_count"),
   {| FIELD_CACHE := FIELD_CACHE world0;
      calls := calls world0 ++
               page_events (page_request (IndexStr "idx") (VList cat_sources) []
                                         (VDict []) []) VNone
                           ([first_page] ++ [broken_page]) |}).
Proof.
  apply (undecodable_bucket_stops_pagination
           (scripted [Ok first_page; Ok broken_page; Ok last_page])
           sample_interval_mapping sample_build_body 999 (IndexStr "idx") [cat_axis] []
           VNone [] cat_sources [] [] [first_page] broken_page [[VStr "a"; VInt 3]]
           (KeyError "doc_count") world0);
    try reflexivity.
  - simpl. repeat split; reflexivity.
  - simpl. lia.
Defined.

Lemma query_axis_without_queries_yields_nothing_witness :
  run (scripted [])
      (collect (_aggregate_results sample_interval_mapping sample_build_body 1000
                  (IndexStr "idx") [cat_axis; query_axis] [] VNone [avg_i])) world0
  = (Ok [], world0).
Proof.
  apply (query_axis_without_queries_yields_nothing (scripted []) sample_interval_mapping
           sample_build_body 999 (IndexStr "idx") [cat_axis; query_axis] VNone [avg_i]
           world0).
  reflexivity.
Defined.

Lemma query_aggregate_on_cached_index_witness :
  run (scripted [Ok first_page; Ok last_page])
      (sample_query_aggregate (Some [Axis.init "cat" None None]) None QueriesNone VNone)
      two_index_world =
  (Ok {| AggregateResult.axes := [cat_axis];
         AggregateResult.data := [[VStr "a"; VInt 3]; [VStr "b"; VInt 1]];
         AggregateResult.aggregations := [];
         AggregateResult.count_column := "n" |},
   {| FIELD_CACHE := FIELD_CACHE two_index_world; calls := cat_exchange |}).
Proof.
  apply (query_aggregate_on_cached_index (scripted [Ok first_page; Ok last_page])
           sample_interval_mapping sample_build_body sample_normalize_queries 999 "idx"
           [("i", VDict [("name", VStr "i"); ("type", VStr "long")]);
            ("cat", VDict [("name", VStr "cat"); ("type", VStr "keyword")])]
           [Axis.init "cat" None None] None QueriesNone VNone
           [VStr "keyword"] [] cat_sources [] [] [first_page; last_page]
           [[VStr "a"; VInt 3]; [VStr "b"; VInt 1]] two_index_world);
    try reflexivity.
  - simpl. lia.
  - simpl. repeat split; reflexivity.
  - simpl. lia.
Defined.

Lemma scalar_count_only_witness :
  run (scripted [Ok count_response])
      (collect (_aggregate_results sample_interval_mapping sample_build_body 1000
                  (IndexStr "idx") [] [] VNone [])) world0
  = (Ok [[VInt 4]],
     {| FIELD_CACHE := FIELD_CACHE world0;
        calls := calls world0 ++
                 [({| method := count;
                      kwargs := [("index", index_joined (IndexStr "idx"));
                                 ("body", VDict [("query", VDict [("bool",
                                    VDict [("should", VDict []); ("filter", VNone)])])])] |},
                   Ok count_response)] |}).
Proof.
  apply (scalar_count_only (scripted [Ok count_response]) sample_interval_mapping
           sample_build_body 999 (IndexStr "idx") [] VNone
           (VDict [("query", VDict [("bool",
              VDict [("should", VDict []); ("filter", VNone)])])])
           count_response (VInt 4) world0); reflexivity.
Defined.

Lemma scalar_metrics_with_query_witness :
  run (scripted [Ok metrics_response; Ok count_response])
      (collect (_aggregate_results sample_interval_mapping sample_build_body 1000
                  (IndexStr "idx") [] [("q1", "foo")] VNone [avg_i])) world0
  = (Ok [[VInt 4; VInt 11]],
     {| FIELD_CACHE := FIELD_CACHE world0;
        calls := calls world0 ++
                 [({| method := search;
                      kwargs := [("query", VDict [("bool",
                                    VDict [("should", VDict [("q1", VStr "foo")]);
                                           ("filter", VNone)])]);
                                 ("index", index_value (IndexStr "idx"));
                                 ("size", VInt 0);
                                 ("aggregations", aggregation_dsl [avg_i])] |},
                   Ok metrics_response);
                  ({| method := count;
                      kwargs := [("body", VDict [("query", VDict [("bool",
                                    VDict [("should", VDict [("q1", VStr "foo")]);
                                           ("filter", VNone)])])]);
                                 ("index", index_value (IndexStr "idx"))] |},
                   Ok count_response)] |}).
Proof.
  apply (scalar_metrics_with_query (scripted [Ok metrics_response; Ok count_response])
           sample_interval_mapping sample_build_body 999 (IndexStr "idx") [("q1", "foo")]
           VNone avg_i []
           (VDict [("query", VDict [("bool",
              VDict [("should", VDict [("q1", VStr "foo")]); ("filter", VNone)])])])
           (VDict [("bool", VDict [("should", VDict [("q1", VStr "foo")]);
                                   ("filter", VNone)])])
           metrics_response count_response (VInt 4)
           (VDict [("avg_i", VDict [("value", VInt 11)])]) [VInt 11] world0);
    reflexivity.
Defined.

Lemma date_metric_decodes_epoch_millis_witness :
  BoundAggregation.get_value min_date
    (VDict [("min_date", VDict [("value", VFloat (inject_Z 1514764800000))])])
  = Ok (VDateTime (1000 * 1514764800000)).
Proof.
  apply (date_metric_decodes_epoch_millis min_date
           (VDict [("min_date", VDict [("value", VFloat (inject_Z 1514764800000))])])
           (VFloat (inject_Z 1514764800000)) 1514764800000).
  - reflexivity.
  - reflexivity.
  - right. reflexivity.
  - discriminate.
  - simpl. lia.
Defined.

Lemma metric_passes_through_witness :
  BoundAggregation.get_value min_date (VDict [("min_date", VDict [("value", VNone)])])
  = Ok VNone.
Proof.
  apply (metric_passes_through min_date
           (VDict [("min_date", VDict [("value", VNone)])]) VNone).
  - reflexivity.
  - left. reflexivity.
Defined.
